(** * Doenet math-parser: a shallow embedding of the stack parser and its AST

  The development follows the TypeScript sources:
  - [ast/Node.ts], [ast/Op.ts], [ast/Rel.ts], [ast/Group.ts], [ast/Func.ts],
    [ast/Name.ts], [ast/Num.ts]: the AST classes (module [Ast]);
  - [Parser.ts]: registries, the pattern compiler and the match loop
    (modules [Lexer] and [Parser]);
  - [Stack.ts], [token/*.ts]: the stack and the token classes with their
    negotiation handlers (module [Parser]).

  JavaScript objects are modelled by value.  Exceptions are the [Throw]
  outcome of [Result]; recursion that the source leaves unbounded (a push
  that triggers more pushes) is bounded by a fuel argument, whose exhaustion
  is the separate outcome [OutOfFuel]; the few places where the value model
  cannot follow the source (documented where they occur) stop with
  [Unmodelled], so that an [Ok] outcome is always one the source produces. *)

From Stdlib Require Import String Ascii List ZArith QArith Bool Lia DecimalString.
Import ListNotations.
Close Scope Q_scope.
Open Scope list_scope.
Open Scope string_scope.

Set Implicit Arguments.
Set Warnings "-register-all".

(** ** Outcomes *)

Inductive Result (A : Type) : Type :=
| Ok (a : A)
| Throw (message : string)
| OutOfFuel
| Unmodelled (why : string).

Arguments Ok {A} a.
Arguments Throw {A} message.
Arguments OutOfFuel {A}.
Arguments Unmodelled {A} why.

Definition rbind {A B} (r : Result A) (k : A -> Result B) : Result B :=
match r with
| Ok a => k a
| Throw m => Throw m
| OutOfFuel => OutOfFuel
| Unmodelled w => Unmodelled w
end.

Fixpoint rmap {A B} (f : A -> Result B) (l : list A) : Result (list B) :=
match l with
| [] => Ok []
| x :: l' => rbind (f x) (fun y => rbind (rmap f l') (fun ys => Ok (y :: ys)))
end.

(** ** JavaScript values used by the parser *)

Module JS.

(** Strings are UTF-8 byte strings; [length] is the number of UTF-16 code
    units, which is what [String.prototype.length] returns. *)
Definition units (c : ascii) : nat :=
  let n := nat_of_ascii c in
  if Nat.ltb n 128 then 1
  else if Nat.ltb n 192 then 0
  else if Nat.ltb n 240 then 1 else 2.

Fixpoint length (s : string) : nat :=
  match s with
  | EmptyString => 0
  | String c s' => units c + length s'
  end.

Fixpoint utf8 (bytes : list nat) : string :=
  match bytes with
  | [] => EmptyString
  | b :: bs => String (ascii_of_nat b) (utf8 bs)
  end.

(** [s.charAt(0)] for the ASCII symbols the relations use. *)
Definition charAt0 (s : string) : string :=
  match s with
  | EmptyString => ""
  | String c _ => String c EmptyString
  end.

(** [Array.prototype.join] on strings. *)
Definition join (sep : string) (l : list string) : string := String.concat sep l.

(** Numbers that the AST stores: finite decimals [mant * 10^-scale], kept
    without trailing zeros.  This is exact for the numerals a double
    represents with a round-trip (up to 15 significant digits). *)
Record number := mkNumber { mant : Z; scale : nat }.

Fixpoint normalize (fuel : nat) (m : Z) (s : nat) : number :=
  match fuel, s with
  | S fuel', S s' => if Z.eqb (m mod 10) 0 then normalize fuel' (m / 10) s' else mkNumber m s
  | _, _ => mkNumber m s
  end.

Definition digit (c : ascii) : option Z :=
  let n := nat_of_ascii c in
  if andb (Nat.leb 48 n) (Nat.leb n 57) then Some (Z.of_nat (n - 48)) else None.

Fixpoint digits (s : string) (acc : Z) (count : nat) : Z * nat * string :=
  match s with
  | String c s' =>
      match digit c with
      | Some d => digits s' (acc * 10 + d) (S count)
      | None => (acc, count, s)
      end
  | EmptyString => (acc, count, s)
  end.

(** [parseFloat] on an unsigned decimal numeral without exponent, the only
    form the number pattern lets through; [None] is NaN. *)
Definition parseFloat (s : string) : option number :=
  let '(ip, n1, rest) := digits s 0 0 in
  match rest with
  | String "."%char rest' =>
      let '(m, n2, _) := digits rest' ip 0 in
      if andb (Nat.eqb n1 0) (Nat.eqb n2 0) then None else Some (normalize n2 m n2)
  | _ => if Nat.eqb n1 0 then None else Some (mkNumber ip 0)
  end.

Definition string_of_Z (z : Z) : string := NilZero.string_of_int (Z.to_int z).

Fixpoint zeros (n : nat) : string :=
  match n with
  | O => ""
  | S n' => "0" ++ zeros n'
  end.

(** [String(n)] for a number in the fixed-notation range. *)
Definition String (n : number) : string :=
  match scale n with
  | O => string_of_Z (mant n)
  | sc =>
      let p := (10 ^ Z.of_nat sc)%Z in
      let a := Z.abs (mant n) in
      let frac := string_of_Z (a mod p) in
      (if Z.ltb (mant n) 0 then "-" else "") ++ string_of_Z (a / p) ++ "."
        ++ zeros (sc - String.length frac) ++ frac
  end.

Definition neg (n : number) : number := mkNumber (- mant n) (scale n).
Definition isZero (n : number) : bool := Z.eqb (mant n) 0.
Definition positive (n : number) : bool := Z.ltb 0 (mant n).

End JS.

(** ** The AST classes ([ast/*.ts]) *)

Module Ast.

(** The classes of [ast/BaseObjects.ts] and the base class [AstNode].
    [ast/BaseObjects.ts] exports [Vector] and [Set] from [ast/Vector.ts] and
    [ast/Set.ts], and the tokens name them as [GroupAstClass: 'Vector'] and
    [GroupAstClass: 'Set'].  Modelled from the spec: these two classes, whose
    declarations are missing, as vector and set groups that extend [Group]
    without overriding anything, each with its own [kind]. *)
Inductive Class :=
| AstNode | Op | Bop | Uop | Rel | MultiRel
| StackGroup | Group | Vector | Set_
| FuncApply | FuncExp
| Name | Num | FuncName.

Definition Class_eqb (a b : Class) : bool :=
  match a, b with
  | AstNode, AstNode | Op, Op | Bop, Bop | Uop, Uop | Rel, Rel | MultiRel, MultiRel
  | StackGroup, StackGroup | Group, Group | Vector, Vector | Set_, Set_
  | FuncApply, FuncApply | FuncExp, FuncExp
  | Name, Name | Num, Num | FuncName, FuncName => true
  | _, _ => false
  end.

(** [extends c] is the direct superclass among the classes above
    ([AstObject] and [AstLeaf] are never instantiated and are left out). *)
Definition extends (c : Class) : option Class :=
  match c with
  | AstNode => None
  | Op => Some AstNode
  | Bop => Some Op
  | Uop => Some Op
  | Rel => Some Bop
  | MultiRel => Some Rel
  | StackGroup => Some AstNode
  | Group => Some StackGroup
  | Vector => Some Group
  | Set_ => Some Group
  | FuncApply => Some AstNode
  | FuncExp => Some FuncApply
  | Name => None
  | Num => None
  | FuncName => Some Name
  end.

(** [node instanceof C], walking the prototype chain (at most four links). *)
Fixpoint instanceof_from (depth : nat) (c target : Class) : bool :=
  Class_eqb c target ||
  match depth with
  | O => false
  | S d => match extends c with
           | Some p => instanceof_from d p target
           | None => false
           end
  end.

Definition subclass (c target : Class) : bool := instanceof_from 4 c target.

Definition isLeaf (c : Class) : bool :=
  match c with
  | Name | Num | FuncName => true
  | _ => false
  end.

(** The static [kind] of each class. *)
Definition kind (c : Class) : string :=
  match c with
  | AstNode => "AstNode" | Op => "Op" | Bop => "Bop" | Uop => "Uop"
  | Rel => "Rel" | MultiRel => "MultiRel"
  | StackGroup => "StackGroup" | Group => "Group" | Vector => "Vector" | Set_ => "Set"
  | FuncApply => "FuncApply" | FuncExp => "FuncExp"
  | Name => "Name" | Num => "Num" | FuncName => "FuncName"
  end.

Inductive value :=
| VStr (s : string)
| VNum (n : JS.number).

(** The own properties of a node besides [childNodes] and [exp].  [None]
    means the node has no such own property (a read then falls through to
    the prototype); [opString] can be an own property holding [null]. *)
Record own := mkOwn {
  value_ : value;
  precedence : option Q;
  associativity : option string;
  isComma : option bool;
  equalParens : option bool;
  opString : option (option string);
  relations : option (list string);
  opStrings : option (list (string * string));
  open : option string;
  close : option (option string);
  inverse : option string;
  autoApply : option bool
}.

Definition plain (v : value) : own :=
  mkOwn v None None None None None None None None None None None.

Definition set_value v (o : own) :=
  mkOwn v (precedence o) (associativity o) (isComma o) (equalParens o) (opString o)
        (relations o) (opStrings o) (open o) (close o) (inverse o) (autoApply o).
Definition set_precedence x (o : own) :=
  mkOwn (value_ o) (Some x) (associativity o) (isComma o) (equalParens o) (opString o)
        (relations o) (opStrings o) (open o) (close o) (inverse o) (autoApply o).
Definition set_associativity x (o : own) :=
  mkOwn (value_ o) (precedence o) (Some x) (isComma o) (equalParens o) (opString o)
        (relations o) (opStrings o) (open o) (close o) (inverse o) (autoApply o).
Definition set_isComma x (o : own) :=
  mkOwn (value_ o) (precedence o) (associativity o) (Some x) (equalParens o) (opString o)
        (relations o) (opStrings o) (open o) (close o) (inverse o) (autoApply o).
Definition set_equalParens x (o : own) :=
  mkOwn (value_ o) (precedence o) (associativity o) (isComma o) (Some x) (opString o)
        (relations o) (opStrings o) (open o) (close o) (inverse o) (autoApply o).
Definition set_opString x (o : own) :=
  mkOwn (value_ o) (precedence o) (associativity o) (isComma o) (equalParens o) (Some x)
        (relations o) (opStrings o) (open o) (close o) (inverse o) (autoApply o).
Definition set_relations x (o : own) :=
  mkOwn (value_ o) (precedence o) (associativity o) (isComma o) (equalParens o) (opString o)
        (Some x) (opStrings o) (open o) (close o) (inverse o) (autoApply o).
Definition set_opStrings x (o : own) :=
  mkOwn (value_ o) (precedence o) (associativity o) (isComma o) (equalParens o) (opString o)
        (relations o) (Some x) (open o) (close o) (inverse o) (autoApply o).
Definition set_open x (o : own) :=
  mkOwn (value_ o) (precedence o) (associativity o) (isComma o) (equalParens o) (opString o)
        (relations o) (opStrings o) (Some x) (close o) (inverse o) (autoApply o).
Definition set_close x (o : own) :=
  mkOwn (value_ o) (precedence o) (associativity o) (isComma o) (equalParens o) (opString o)
        (relations o) (opStrings o) (open o) (Some x) (inverse o) (autoApply o).
Definition set_inverse x (o : own) :=
  mkOwn (value_ o) (precedence o) (associativity o) (isComma o) (equalParens o) (opString o)
        (relations o) (opStrings o) (open o) (close o) (Some x) (autoApply o).
Definition set_autoApply x (o : own) :=
  mkOwn (value_ o) (precedence o) (associativity o) (isComma o) (equalParens o) (opString o)
        (relations o) (opStrings o) (open o) (close o) (inverse o) (Some x).

(** A node: its class, its own properties, its own [childNodes] (a leaf has
    none: its [childNodes] getter returns a fresh empty list) and, for a
    [FuncExp], the own property [exp]. *)
Inductive node :=
| Node (c : Class) (o : own) (childNodes : list node) (exp : option node).

Definition class_of (n : node) : Class := let 'Node c _ _ _ := n in c.
Definition own_of (n : node) : own := let 'Node _ o _ _ := n in o.
Definition exp_of (n : node) : option node := let 'Node _ _ _ e := n in e.
Definition value_of (n : node) : value := value_ (own_of n).

(** [node.childNodes]: the getter of [AstLeaf] or the own property. *)
Definition childNodes (n : node) : list node :=
  let 'Node c _ ch _ := n in if isLeaf c then [] else ch.

Definition with_own (f : own -> own) (n : node) : node :=
  let 'Node c o ch e := n in Node c (f o) ch e.

Definition with_children (f : list node -> list node) (n : node) : node :=
  let 'Node c o ch e := n in Node c o (f ch) e.


(** *** Properties read through the prototype chain

    [Op.defaults], [Uop.defaults], [MultiRel.defaults], [FuncName.defaults],
    [FuncApply.defaults] and [FuncExp.defaults] put defaults on the
    prototypes; a read returns the own property when there is one.  [None]
    is [undefined]. *)

Definition proto_precedence (c : Class) : option Q :=
if subclass c Op then Some 0%Q
else if subclass c FuncExp then Some (7 # 2)%Q
else None.

Definition precedence_of (n : node) : option Q :=
match precedence (own_of n) with
| Some p => Some p
| None => proto_precedence (class_of n)
end.

(** ['precedence' in node] *)
Definition has_precedence (n : node) : bool :=
match precedence_of n with Some _ => true | None => false end.

Definition associativity_of (n : node) : option string :=
match associativity (own_of n) with
| Some a => Some a
| None => if subclass (class_of n) Op then Some "left" else None
end.

Definition equalParens_of (n : node) : option bool :=
match equalParens (own_of n) with
| Some b => Some b
| None => if subclass (class_of n) Uop then Some true
          else if subclass (class_of n) Op then Some false else None
end.

Definition isComma_of (n : node) : option bool :=
match isComma (own_of n) with
| Some b => Some b
| None => if subclass (class_of n) Op then Some false else None
end.

Definition opString_of (n : node) : option (option string) :=
match opString (own_of n) with
| Some s => Some s
| None => if subclass (class_of n) Op then Some None else None
end.

Definition opStrings_of (n : node) : option (list (string * string)) :=
match opStrings (own_of n) with
| Some m => Some m
| None => if subclass (class_of n) MultiRel then Some [] else None
end.

Definition inverse_of (n : node) : option string :=
match inverse (own_of n) with
| Some s => Some s
| None => if subclass (class_of n) FuncName then Some "" else None
end.

Definition autoApply_of (n : node) : option bool :=
match autoApply (own_of n) with
| Some b => Some b
| None => if subclass (class_of n) FuncApply then Some false else None
end.

(** Truthiness and string conversion of a node's [value]. *)
Definition truthy (v : value) : bool :=
match v with
| VStr s => negb (String.eqb s "")
| VNum n => negb (JS.isZero n)
end.

Definition value_to_string (v : value) : string :=
match v with
| VStr s => s
| VNum n => JS.String n
end.

(** Property lookup in an object used as a string map ([opStrings]). *)
Fixpoint lookup (key : string) (m : list (string * string)) : option string :=
match m with
| [] => None
| (k, v) :: m' => if String.eqb k key then Some v else lookup key m'
end.

(** *** Constructors *)

(** [AstObject]'s constructor stores [args[0] || '']. *)
Definition new_AstNode (c : Class) (v : string) (children : list node) : node :=
Node c (plain (VStr v)) children None.

Definition new_Leaf (c : Class) (v : string) : node :=
Node c (plain (VStr v)) [] None.

(** [Num]: [super(parseFloat(value))]; a zero or NaN is falsy and is stored
    as the empty string by [AstObject]'s constructor. *)
Definition new_Num (v : string) : node :=
match JS.parseFloat v with
| Some n => if JS.isZero n then Node Num (plain (VStr "")) [] None
            else Node Num (plain (VNum n)) [] None
| None => Node Num (plain (VStr "")) [] None
end.

Definition new_StackGroup (c : Class) (op : string) (cl : option string) (children : list node) : node :=
Node c (set_close cl (set_open op (plain (VStr "")))) children None.

Definition new_MultiRel (v : string) (children : list node) (rels : list string)
  (ops : list (string * string)) : node :=
let o := set_relations rels (plain (VStr v)) in
Node MultiRel (match ops with [] => o | _ => set_opStrings ops o end) children None.

Definition new_FuncExp (exp : option node) (args : list node) (auto : bool) (prec : Q) : node :=
let o := plain (VStr "") in
let o := if Bool.eqb auto false then o else set_autoApply auto o in
let o := if Qeq_bool prec (7 # 2) then o else set_precedence prec o in
Node FuncExp o args exp.

(** *** [append] *)

(** [AstObject.append]: [this.childNodes.push(child)]; on a leaf the push
    goes to the fresh list of the getter and is lost. *)
Definition AstObject_append (n child : node) : node :=
if isLeaf (class_of n) then n else with_children (fun ch => (ch ++ [child])%list) n.

(** [Group.append] splices the children of a comma operator. *)
Definition Group_append (n child : node) : node :=
if negb (subclass (class_of child) Op) || negb (match isComma_of child with Some b => b | None => false end)
then AstObject_append n child
else with_children (fun ch => (ch ++ childNodes child)%list) n.

Definition append (n child : node) : node :=
if subclass (class_of n) Group then Group_append n child else AstObject_append n child.

(** *** [toString] and [addParens]

    [None] is a [TypeError] (a method called on [undefined]). *)

(** The test of [AstObject.addParens]. *)
Definition wraps (n : node) (threshold : Q) (equal : bool) : bool :=
match precedence_of n with
| None => false
| Some p => negb (Qle_bool threshold p) || (equal && Qeq_bool p threshold)
end.

Definition parens (n : node) (text : string) (threshold : Q) (equal : bool) : string :=
if wraps n threshold equal then "(" ++ text ++ ")" else text.

(** [Op.operatorString] and its override in [Bop]. *)
Definition Op_operatorString (n : node) : string :=
match opString_of n with
| Some (Some s) => if String.eqb s "" then (if truthy (value_of n) then value_to_string (value_of n) else "") else s
| _ => if truthy (value_of n) then value_to_string (value_of n) else ""
end.

Definition Bop_operatorString (n : node) : string :=
match opString_of n with
| Some (Some s) => s
| Some None => " " ++ value_to_string (value_of n) ++ " "
| None => ","
end.

(** The defaults of [Op.addParens]: [this.precedence] and [this.equalParens];
    for a node of the [Op] family both are defined. *)
Definition Op_threshold (n : node) : Q :=
match precedence_of n with Some p => p | None => 0%Q end.

Definition Op_equal (n : node) : bool :=
match equalParens_of n with Some b => b | None => false end.

Definition getOp (n : node) (name : option string) : string :=
let key := match name with Some k => k | None => "undefined" end in
match lookup key (match opStrings_of n with Some m => m | None => [] end) with
| Some s => s
| None => match name with Some k => k | None => "" end
end.

Fixpoint MultiRel_items (n : node) (i : nat) (rest : list string) : list string :=
match rest with
| [] => []
| t :: rest' =>
    getOp n (nth_error (match relations (own_of n) with Some r => r | None => [] end) i)
      :: t :: MultiRel_items n (S i) rest'
end.

Definition undefined_string (s : option string) : string :=
match s with Some x => x | None => "undefined" end.

Fixpoint toString (n : node) : option string :=
let 'Node c o ch e := n in
let texts :=
  (fix go (l : list node) : option (list (node * string)) :=
     match l with
     | [] => Some []
     | x :: l' =>
         match toString x with
         | Some s => option_map (cons (x, s)) (go l')
         | None => None
         end
     end) ch in
if isLeaf c then Some (value_to_string (value_ o))
else
  match texts with
  | None => None
  | Some ts =>
      let strs := map snd ts in
      if subclass c MultiRel then
        match strs with
        | [] => None
        | s0 :: rest =>
            match relations o, rest with
            | None, _ :: _ => None
            | _, _ => Some (JS.join " " (s0 :: MultiRel_items n 0 rest))
            end
        end
      else if subclass c Bop then
        Some (JS.join (Bop_operatorString n)
                (map (fun xs => parens (fst xs) (snd xs) (Op_threshold n) (Op_equal n)) ts))
      else if subclass c Uop then
        match ts with
        | [] => None
        | (x, s) :: _ =>
            let arg := parens x s (Op_threshold n) (Op_equal n) in
            Some (if match associativity_of n with Some a => String.eqb a "left" | None => false end
                  then Op_operatorString n ++ arg else arg ++ Op_operatorString n)
        end
      else if subclass c FuncExp then
        match e with
        | None => None
        | Some x =>
            match toString x with
            | None => None
            | Some s =>
                Some (parens x s (Op_threshold n) false ++ "(" ++ JS.join ", " strs ++ ")")
            end
        end
      else if subclass c FuncApply then
        Some (value_to_string (value_ o) ++ "(" ++ JS.join ", " strs ++ ")")
      else if subclass c StackGroup then
        Some (undefined_string (open o) ++ JS.join ", " strs
                ++ undefined_string (match close o with Some x => x | None => None end))
      else
        let children := JS.join "," strs in
        Some (if truthy (value_ o)
              then value_to_string (value_ o)
                     ++ (if String.eqb children "" then "" else "(" ++ children ++ ")")
              else children)
  end.

(** [AstObject.addParens(node, precedence, equalParens)] *)
Definition addParens (n : node) (threshold : Q) (equal : bool) : option string :=
match toString n with
| Some text => Some (if negb (has_precedence n) then text
                     else if wraps n threshold equal then "(" ++ text ++ ")" else text)
| None => None
end.

(** [Op.addParens(node)] with its default arguments. *)
Definition Op_addParens (this n : node) : option string :=
addParens n (Op_threshold this) (Op_equal this).


(** *** JSON ([toJSON], [fromJSON])

    The plain object that [toJSON] builds: [kind], a copy of the own
    properties, the serialized [childNodes] (absent for a leaf) and, for a
    [FuncExp], the serialized [exp]. *)

Inductive json :=
| JObject (kind : string) (o : own) (childNodes : option (list json)) (exp : option json).

(** [AstObject.toJSON], [AstLeaf.toJSON] and [FuncExp.toJSON].  A node other
    than a [FuncExp] never owns [exp]; if it did, [Object.assign] would copy
    the node itself into the object, which [json] does not describe. *)
Fixpoint toJSON (n : node) : Result json :=
let 'Node c o ch e := n in
if isLeaf c then
  match e with
  | None => Ok (JObject (kind c) o None None)
  | Some _ => Unmodelled "own exp on a leaf"
  end
else
  rbind ((fix go (l : list node) : Result (list json) :=
            match l with
            | [] => Ok []
            | x :: l' => rbind (toJSON x) (fun j => rbind (go l') (fun js => Ok (j :: js)))
            end) ch)
    (fun children =>
       if subclass c FuncExp then
         match e with
         | Some x => rbind (toJSON x) (fun j => Ok (JObject (kind c) o (Some children) (Some j)))
         | None => Throw "TypeError: this.exp is undefined"
         end
       else
         match e with
         | None => Ok (JObject (kind c) o (Some children) None)
         | Some _ => Unmodelled "own exp on a node that is not a FuncExp"
         end).

(** [Parser.baseAst]: the AST classes a parser starts with, by name. *)
Definition baseAst : list (string * Class) :=
[ ("Name", Name); ("Num", Num); ("Op", Op); ("Bop", Bop); ("Uop", Uop);
  ("Rel", Rel); ("MultiRel", MultiRel); ("Group", Group); ("StackGroup", StackGroup);
  ("FuncName", FuncName); ("FuncApply", FuncApply); ("FuncExp", FuncExp);
  ("Vector", Vector); ("Set", Set_); ("base", AstNode) ].

Fixpoint assoc (key : string) (m : list (string * Class)) : option Class :=
match m with
| [] => None
| (k, c) :: m' => if String.eqb k key then Some c else assoc key m'
end.

(** [Parser.getAstClass] *)
Definition getAstClass (astMap : list (string * Class)) (type : string) : Result Class :=
match assoc type astMap with
| Some c => Ok c
| None => Throw ("No definition for AST class: " ++ type)
end.

(** [Parser.fromJSON] followed by the static [fromJSON] of the class:
    [FuncExp.fromJSON] converts [exp], [AstNode.fromJSON] converts the
    children, [AstObject.fromJSON] creates the object from the prototype and
    assigns the properties. *)
Fixpoint fromJSON (astMap : list (string * Class)) (j : json) : Result node :=
let 'JObject k o ch e := j in
rbind (getAstClass astMap k) (fun c =>
  if isLeaf c then
    match ch, e with
    | None, None => Ok (Node c o [] None)
    | Some _, _ => Throw "TypeError: Cannot set property childNodes which has only a getter"
    | None, Some _ => Unmodelled "exp on a leaf"
    end
  else
    rbind (if subclass c FuncExp
           then match e with
                | Some x => rbind (fromJSON astMap x) (fun n => Ok (Some n))
                | None => Ok None
                end
           else match e with
                | Some _ => Unmodelled "exp on a node that is not a FuncExp"
                | None => Ok None
                end)
      (fun exp =>
         match ch with
         | None => Unmodelled "a node without childNodes"
         | Some l =>
             rbind ((fix go (l : list json) : Result (list node) :=
                       match l with
                       | [] => Ok []
                       | x :: l' =>
                           rbind (fromJSON astMap x) (fun n => rbind (go l') (fun ns => Ok (n :: ns)))
                       end) l)
               (fun children => Ok (Node c o children exp))
         end)).

End Ast.

(** ** Token classes ([token/*.ts])

    A class is its method table (the class body that implements it), the
    names of the classes on its prototype chain and the properties the
    [define] calls put on those prototypes, most derived first. *)

Module Class.

(** The class bodies that define methods. *)
Inductive Impl :=
| IToken | IOperand | ITree | IGroup | IApply
| IOperator | IRelation | IPower | IUnaryMinus
| IApplyOp | IApplyArgument | IApplyPending
| IDelimiter | IStackDelimiter | ILookAhead | IAngle.

Inductive Val :=
| VNull
| VBool (b : bool)
| VNumber (q : Q)
| VInfinity
| VString (s : string)
| VStrings (l : list string)
| VMap (m : list (string * string))
| VClass (c : t)
with t :=
| mk (name : string) (kind : string) (impl : Impl) (chain : list string)
     (props : list (string * Val)).

Definition name (c : t) : string := let 'mk n _ _ _ _ := c in n.
Definition kind (c : t) : string := let 'mk _ k _ _ _ := c in k.
Definition impl (c : t) : Impl := let 'mk _ _ i _ _ := c in i.
Definition chain (c : t) : list string := let 'mk _ _ _ ch _ := c in ch.
Definition props (c : t) : list (string * Val) := let 'mk _ _ _ _ p := c in p.

(** A property read on the prototype; [None] is [undefined]. *)
Fixpoint find (key : string) (p : list (string * Val)) : option Val :=
match p with
| [] => None
| (k, v) :: p' => if String.eqb k key then Some v else find key p'
end.

Definition get (key : string) (c : t) : option Val := find key (props c).

(** [C instanceof]-style test: is [c] the class called [n] or derived from it? *)
Definition derives (c : t) (n : string) : bool := existsb (String.eqb n) (chain c).

(** [Base.define(kind, def)]: an anonymous subclass of [Base] with the
    properties of [def] on its prototype. *)
Definition define (base : t) (n : string) (k : string) (def : list (string * Val)) : t :=
mk n k (impl base) (n :: chain base) (def ++ props base)%list.

(** [Base.define(kind, def, C)] for a class [C] declared with a body of its
    own, [class C extends Base]. *)
Definition declare (base : t) (i : Impl) (n : string) (k : string) (def : list (string * Val)) : t :=
mk n k i (n :: chain base) (def ++ props base)%list.

(** Typed reads with the result a JavaScript read of a missing property has
    where it is used: [undefined] is falsy. *)
Definition bool_ (key : string) (c : t) : bool :=
match get key c with Some (VBool b) => b | _ => false end.

Definition string_ (key : string) (c : t) : option string :=
match get key c with Some (VString s) => Some s | _ => None end.

Definition number_ (key : string) (c : t) : option Q :=
match get key c with Some (VNumber q) => Some q | _ => None end.

Definition map_ (key : string) (c : t) : list (string * string) :=
match get key c with Some (VMap m) => m | _ => [] end.

(** [token] is a string, a list of strings or absent. *)
Definition strings_ (key : string) (c : t) : list string :=
match get key c with
| Some (VString s) => [s]
| Some (VStrings l) => l
| _ => []
end.

(** *** The base classes ([Token.ts], [Operand.ts], [Tree.ts], [Group.ts],
    [Operator.ts], [Relation.ts], [Apply.ts], [Delimiter.ts], [LookAhead.ts],
    [Angle.ts], [Stack.ts]) *)

Definition Token : t :=
mk "Token" "token" IToken ["Token"]
  [ ("canApply", VBool true); ("priority", VNumber 10); ("astClass", VString "base");
    ("normalize", VMap []); ("normalizeTo", VNull) ].

Definition Operand : t :=
declare Token IOperand "Operand" "operand" [ ("canApply", VBool false); ("astClass", VString "Name") ].

Definition Tree : t :=
declare Operand ITree "Tree" "tree" [ ("canApply", VBool true) ].

Definition Group : t :=
declare Tree IGroup "Group" "group" [ ("open", VString ""); ("close", VString "") ].

Definition Operator : t :=
declare Token IOperator "Operator" "operator"
  [ ("associativity", VString "left"); ("precedence", VNumber 5); ("combine", VBool false);
    ("appliesLeft", VBool false); ("type", VString "binary"); ("isComma", VBool false);
    ("unaryClass", VString ""); ("equalParens", VBool false); ("opString", VNull);
    ("opStrings", VMap []) ].

Definition BinaryOp : t :=
declare Operator IOperator "BinaryOp" "binary" [ ("type", VString "binary"); ("astClass", VString "Bop") ].

Definition UnaryOp : t :=
declare Operator IOperator "UnaryOp" "unary"
  [ ("type", VString "unary"); ("astClass", VString "Uop"); ("equalParens", VBool true) ].

Definition Juxtapose : t :=
define BinaryOp "Juxtapose" "*" [ ("precedence", VNumber 2); ("combine", VBool true); ("opString", VString " ") ].

Definition Relation : t :=
declare BinaryOp IRelation "Relation" "relation"
  [ ("precedence", VNumber (3 # 4)); ("combine", VBool true); ("combined", VMap []);
    ("opStrings", VMap []); ("astClass", VString "Rel") ].

Definition ApplyOp : t :=
declare Operator IApplyOp "ApplyOp" "apply"
  [ ("precedence", VNumber (7 # 2)); ("associativity", VString "right"); ("astClass", VString "FuncApply") ].

Definition ApplyArgument : t :=
declare ApplyOp IApplyArgument "ApplyArgument" "apply" [ ("precedence", VNumber 1000) ].

Definition ApplyPending : t :=
declare Operator IApplyPending "ApplyPending" "apply-pending"
  [ ("precedence", VNumber (7 # 2)); ("associativity", VString "right") ].

Definition Apply : t :=
declare Operand IApply "Apply" "function"
  [ ("astClass", VString "FuncName"); ("args", VNumber 1); ("autoApply", VBool false);
    ("requireArgument", VBool true); ("isInvertible", VBool false) ].

Definition Delimiter : t :=
declare Token IDelimiter "Delimiter" "delimiter"
  [ ("allowEmpty", VBool false); ("close", VStrings []); ("astClass", VString "Group");
    ("removable", VBool false); ("removePrecedence", VNumber (-1)); ("isApply", VBool false) ].

Definition StackDelimiter : t :=
declare Delimiter IStackDelimiter "StackDelimiter" "delimiter" [].

Definition Start : t :=
define StackDelimiter "Start" "_start_"
  [ ("close", VStrings ["_end_"]); ("allowEmpty", VBool true); ("astClass", VString "StackGroup") ].

Definition End_ : t :=
define StackDelimiter "End" "_end_" [ ("isClose", VBool true); ("astClass", VString "StackGroup") ].

Definition LookAhead : t :=
declare Token ILookAhead "LookAhead" "look-ahead"
  [ ("close", VString ""); ("operatorClass", VString ""); ("delimiterClass", VString "") ].

Definition Angle : t :=
declare LookAhead IAngle "Angle" "angle"
  [ ("token", VStrings ["<"; ">"]);
    ("operatorClass", VClass (define Relation "Angle.operatorClass" "<" []));
    ("delimiterClass",
     VClass (define Delimiter "Angle.delimiterClass" "<"
               [ ("close", VStrings [">"]); ("GroupAstClass", VString "Vector") ])) ].

(** [Parser.baseTokens]: the exports of [token/BaseTokens.ts]. *)
Definition baseTokens : list (string * t) :=
[ ("Start", Start); ("End", End_); ("Angle", Angle);
  ("Apply", Apply); ("ApplyOp", ApplyOp); ("ApplyArgument", ApplyArgument);
  ("ApplyPending", ApplyPending); ("Delimiter", Delimiter); ("Group", Group);
  ("LookAhead", LookAhead); ("Operand", Operand);
  ("Operator", Operator); ("UnaryOp", UnaryOp); ("BinaryOp", BinaryOp); ("Juxtapose", Juxtapose);
  ("Relation", Relation); ("Tree", Tree) ].

(** *** The token catalogue ([token/Standard.ts], [Greek.ts],
    [Inequalities.ts], [Sets.ts]), in the order of the declarations *)

Definition List_ : t :=
define BinaryOp "List" "list"
  [ ("token", VStrings [","]); ("precedence", VNumber (1 # 4)); ("combine", VBool true);
    ("isComma", VBool true); ("opString", VString ", ") ].

Definition Plus : t :=
define BinaryOp "Plus" "plus"
  [ ("token", VString "+"); ("precedence", VNumber 1); ("combine", VBool true);
    ("type", VString "both");
    ("unaryClass", VClass (define UnaryOp "Plus.unaryClass" "uplus" [ ("precedence", VNumber 3) ])) ].

Definition UnaryMinus : t :=
declare UnaryOp IUnaryMinus "UnaryMinus" "uminus"
  [ ("precedence", VNumber 3); ("negateNumbers", VBool true) ].

Definition minus_sign : string := JS.utf8 [226; 136; 146].

Definition Minus : t :=
define BinaryOp "Minus" "plus"
  [ ("token", VStrings ["-"; minus_sign]); ("precedence", VNumber 1); ("type", VString "both");
    ("normalizeTo", VString "-"); ("unaryClass", VClass UnaryMinus) ].

Definition Multiply : t :=
define BinaryOp "Multiply" "multiply"
  [ ("token", VString "*"); ("precedence", VNumber 2); ("combine", VBool true) ].

Definition Divide : t :=
define BinaryOp "Divide" "divide"
  [ ("token", VString "/"); ("precedence", VNumber 2); ("equalParens", VBool true) ].

Definition Power : t :=
declare BinaryOp IPower "Power" "power"
  [ ("token", VStrings ["^"]); ("precedence", VNumber 4); ("associativity", VString "right");
    ("appliesLeft", VBool true); ("opString", VString "^") ].

Definition Factorial : t :=
define UnaryOp "Factorial" "factorial"
  [ ("token", VStrings ["!"]); ("precedence", VNumber 5); ("associativity", VString "right") ].

Definition Parens : t :=
define Delimiter "Parens" "parens"
  [ ("token", VStrings ["("; ")"]); ("close", VStrings [")"]);
    ("removable", VBool true); ("removePrecedence", VNumber (99 # 100)); ("isApply", VBool true) ].

Definition Bar : t :=
define LookAhead "Bar" "|"
  [ ("token", VString "|"); ("close", VString "|");
    ("operatorClass", VClass (define BinaryOp "Bar.operatorClass" "|" [ ("precedence", VNumber (1 # 10)) ]));
    ("delimiterClass",
     VClass (define Delimiter "Bar.delimiterClass" "|"
               [ ("close", VStrings ["|"]); ("groupType", VString "abs") ])) ].

Definition Identifier : t :=
define Operand "Identifier" "identifier" [ ("pattern", VString "[a-zA-Z]") ].

Definition Numeric : t :=
define Operand "Numeric" "number"
  [ ("pattern", VString "[0-9]+(?:\.[0-9]*)?|\.[0-9]+"); ("canApply", VBool true);
    ("astClass", VString "Num") ].

Definition Trig : t :=
define Apply "Trig" "trig"
  [ ("token", VStrings ["sin"; "cos"; "tan"; "sec"; "csc"; "cot"]);
    ("autoApply", VBool true); ("isInvertible", VBool true) ].

Definition TrigInverse : t :=
define Apply "TrigInverse" "trig"
  [ ("token", VStrings ["asin"; "acos"; "atan"; "asec"; "acsc"; "acot"]); ("autoApply", VBool true) ].

Definition HyerbolicTrig : t :=
define Apply "HyerbolicTrig" "trig"
  [ ("token", VStrings ["sinh"; "cosh"; "tanh"; "sech"; "csch"; "coth"]);
    ("autoApply", VBool true); ("isInvertible", VBool true) ].

Definition HyperbolicTrigInverse : t :=
define Apply "HyperbolicTrigInverse" "trig"
  [ ("token", VStrings ["asinh"; "acosh"; "atanh"; "asech"; "acsch"; "acoth"]);
    ("autoApply", VBool true) ].

Definition Prime : t :=
define UnaryOp "Prime" "prime"
  [ ("token", VStrings ["'"]); ("precedence", VNumber 6); ("associativity", VString "right");
    ("appliesLeft", VBool true) ].

Definition FunctionLetters : t :=
define Apply "FunctionLetters" "functions"
  [ ("token", VStrings ["f"; "g"]); ("requireArgument", VBool false) ].

Definition Funcs2 : t :=
define Apply "Funcs2" "functions"
  [ ("token", VStrings ["h"]); ("requireArgument", VBool false); ("args", VNumber 2) ].

Definition Funcs3 : t :=
define Apply "Funcs3" "functions"
  [ ("token", VStrings ["F"]); ("requireArgument", VBool false); ("args", VInfinity) ].

Definition LowercaseGreek : t :=
define Operand "LowercaseGreek" "greek"
  [ ("token", VStrings ["alpha"; "beta"; "gamma"; "delta"; "epsilon"; "zeta"; "theta"; "iota";
                        "kappa"; "lambda"; "mu"; "nu"; "xi"; "pi"; "rho"; "sigma"; "tau";
                        "upsilon"; "phi"; "psi"; "omega"]) ].

Definition UppercaseGreek : t :=
define Operand "UppercaseGreek" "greek"
  [ ("token", VStrings ["Alpha"; "Beta"; "Gamma"; "Delta"; "Epsilon"; "Zeta"; "Theta"; "Iota";
                        "Kappa"; "Lambda"; "Mu"; "Nu"; "Xi"; "Pi"; "Rho"; "Sigma"; "Tau";
                        "Upsilon"; "Phi"; "Psi"; "Omega"]) ].

Definition StrictInequalities : t :=
define Relation "StrictInequalities" "inequalities"
  [ ("token", VStrings ["<"; ">"]); ("priority", VNumber 15) ].

Definition le_sign : string := JS.utf8 [226; 137; 164].
Definition ge_sign : string := JS.utf8 [226; 137; 165].
Definition ne_sign : string := JS.utf8 [226; 137; 160].
Definition in_sign : string := JS.utf8 [226; 136; 136].

Definition WeakInequalities : t :=
define Relation "WeakInequalities" "inequalities"
  [ ("token", VStrings ["<="; ">="; le_sign; ge_sign]);
    ("combined", VMap [("<=", "<"); (">=", ">")]);
    ("normalize", VMap [(le_sign, "<="); (ge_sign, ">=")]);
    ("opStrings", VMap [("<=", " " ++ le_sign ++ " "); (">=", " " ++ ge_sign ++ " ")]) ].

Definition Equals : t :=
define Relation "Equals" "equals" [ ("token", VStrings ["="]) ].

Definition NotEqual : t :=
define Relation "NotEqual" "notequal"
  [ ("token", VStrings ["!="; ne_sign]); ("combine", VBool false);
    ("normalizeTo", VString "!="); ("opString", VString ne_sign) ].

Definition InequalitiesWithVectors : t :=
define Angle "InequalitiesWithVectors" "angle" [].

Definition SetBraces : t :=
define Delimiter "SetBraces" "set"
  [ ("token", VStrings ["{"; "}"]); ("close", VStrings ["}"]); ("allowEmpty", VBool true);
    ("GroupAstClass", VString "Set") ].

Definition In : t :=
define BinaryOp "In" "in"
  [ ("token", VStrings ["in"; in_sign]); ("precedence", VNumber (1 # 2)); ("normalizeTo", VString in_sign) ].

(** The parse tokens of [main.ts]: the exports of the four catalogue files. *)
Definition Standard : list (string * t) :=
[ ("List", List_); ("Plus", Plus); ("UnaryMinus", UnaryMinus); ("Minus", Minus);
  ("Multiply", Multiply); ("Divide", Divide); ("Power", Power); ("Factorial", Factorial);
  ("Parens", Parens); ("Bar", Bar); ("Identifier", Identifier); ("Numeric", Numeric);
  ("Trig", Trig); ("TrigInverse", TrigInverse); ("HyerbolicTrig", HyerbolicTrig);
  ("HyperbolicTrigInverse", HyperbolicTrigInverse); ("Prime", Prime);
  ("FunctionLetters", FunctionLetters); ("Funcs2", Funcs2); ("Funcs3", Funcs3) ].

Definition Greek : list (string * t) :=
[ ("LowercaseGreek", LowercaseGreek); ("UppercaseGreek", UppercaseGreek) ].

Definition Inequalities : list (string * t) :=
[ ("StrictInequalities", StrictInequalities); ("WeakInequalities", WeakInequalities);
  ("Equals", Equals); ("NotEqual", NotEqual); ("InequalitiesWithVectors", InequalitiesWithVectors) ].

Definition Sets : list (string * t) :=
[ ("SetBraces", SetBraces); ("In", In) ].

End Class.

(** ** The pattern compiler and the matcher ([Parser.getPattern], [Parser.nextToken]) *)

Module Lexer.

(** [Map.prototype.set] on a map kept in insertion order. *)
Fixpoint set {A B} (eqb : A -> A -> bool) (k : A) (v : B) (m : list (A * B)) : list (A * B) :=
match m with
| [] => [(k, v)]
| (k', v') :: m' => if eqb k' k then (k', v) :: m' else (k', v') :: set eqb k v m'
end.

Fixpoint lookup {A B} (eqb : A -> A -> bool) (k : A) (m : list (A * B)) : option B :=
match m with
| [] => None
| (k', v) :: m' => if eqb k' k then Some v else lookup eqb k m'
end.

Definition NameMap := list (Q * list string).
Definition NameMapMap := list (Q * list (string * string)).
Definition PatternMap := list (Q * list (string * string)).

(** [Parser.addParseTokens] *)
Definition addParseTokens (tokens parseTokens : list (string * Class.t)) : list (string * Class.t) :=
fold_left (fun m idc => set String.eqb (fst idc) (snd idc) m) tokens parseTokens.

(** The static getter [priority]. *)
Definition priority (c : Class.t) : Q :=
match Class.number_ "priority" c with Some q => q | None => 0%Q end.

(** [Parser.getNameData] *)
Definition getNameData (id : string) (p : Q) (token : Class.t) (N : NameMap * NameMapMap)
  : NameMap * NameMapMap :=
match Class.get "token" token with
| Some (Class.VString _) | Some (Class.VStrings _) =>
    let names := Class.strings_ "token" token in
    let nlist := match lookup Qeq_bool p (fst N) with Some l => l | None => [] end in
    let nmap := match lookup Qeq_bool p (snd N) with Some m => m | None => [] end in
    (set Qeq_bool p (nlist ++ names)%list (fst N),
     set Qeq_bool p (fold_left (fun m name => set String.eqb name id m) names nmap) (snd N))
| _ => N
end.

(** [Parser.getPatternData] *)
Definition getPatternData (id : string) (p : Q) (token : Class.t) (P : PatternMap) : PatternMap :=
match Class.string_ "pattern" token with
| Some pattern =>
    if String.eqb pattern "" then P
    else set Qeq_bool p
           ((match lookup Qeq_bool p P with Some l => l | None => [] end) ++ [(id, pattern)])%list P
| None => P
end.

(** [Parser.getNamesAndPatterns] *)
Definition getNamesAndPatterns (parseTokens : list (string * Class.t))
  : NameMap * NameMapMap * PatternMap :=
fold_left
  (fun acc idc =>
     let '(N, P) := acc in
     let p := priority (snd idc) in
     (getNameData (fst idc) p (snd idc) N, getPatternData (fst idc) p (snd idc) P))
  parseTokens (([], []), []).

(** [Array.prototype.sort(compare)], as the stable insertion sort: an element
    goes before the first one it compares below.  For a comparison that is
    not a consistent order the standard leaves the result to the
    implementation. *)
Section Sort.
Variable A : Type.
Variable compare : A -> A -> Z.

Fixpoint insert (x : A) (l : list A) : list A :=
match l with
| [] => [x]
| y :: l' => if Z.ltb (compare x y) 0 then x :: l else y :: insert x l'
end.

Definition sort (l : list A) : list A := fold_left (fun acc x => insert x acc) l [].
End Sort.

(** The comparison function of [getNamePattern]:
    [(a, b) => (a.length < b.length ? 1 : a.length > b.length ? -1 : a < b ? -1 : a > b ? -1 : 0)] *)
Definition compareNames (a b : string) : Z :=
if Nat.ltb (JS.length a) (JS.length b) then 1%Z
else if Nat.ltb (JS.length b) (JS.length a) then (-1)%Z
else if String.ltb a b then (-1)%Z
else if String.ltb b a then (-1)%Z
else 0%Z.

(** The alternatives of the regular expression that [getNamePattern]
    returns: the names of more than one character in sorted order, then one
    character class with the names of one character ([chars] is empty when
    there is no class).  The escapes the source adds make every name and
    every class member match literally. *)
Record NamePattern := mkNamePattern { names : list string; chars : list string }.

Definition getNamePattern (NAMES : list string) : NamePattern :=
mkNamePattern
  (sort compareNames (filter (fun x => Nat.ltb 1 (JS.length x)) NAMES))
  (filter (fun x => Nat.eqb (JS.length x) 1) NAMES).

(** One capture group of the compiled pattern, with the function of [MAP]
    that belongs to it. *)
Inductive Part :=
| NamePart (priority : Q) (pattern : NamePattern) (nmap : list (string * string))
| PatternPart (priority : Q) (id : string) (pattern : string).

(** The comparison function of the priorities: [(a, b) => a > b ? 1 : -1]. *)
Definition comparePriorities (a b : Q) : Z :=
if negb (Qle_bool a b) then 1%Z else (-1)%Z.

Fixpoint dedup (l : list Q) (seen : list Q) : list Q :=
match l with
| [] => []
| q :: l' => if existsb (Qeq_bool q) seen then dedup l' seen else q :: dedup l' (q :: seen)
end.

(** [Parser.getPatternParts] *)
Definition getPatternParts (NAMES : NameMap) (NMAP : NameMapMap) (PATTERNS : PatternMap)
  : list Part :=
let keys := dedup (map fst NAMES ++ map fst PATTERNS)%list [] in
flat_map
  (fun i =>
     (match lookup Qeq_bool i NAMES with
      | Some l => [NamePart i (getNamePattern l)
                     (match lookup Qeq_bool i NMAP with Some m => m | None => [] end)]
      | None => []
      end
      ++
      match lookup Qeq_bool i PATTERNS with
      | Some ps => map (fun ip => PatternPart i (fst ip) (snd ip)) ps
      | None => []
      end)%list)
  (sort comparePriorities keys).

(** [Parser.getPattern] *)
Definition getPattern (parseTokens : list (string * Class.t)) : list Part :=
let '(NAMES, NMAP, PATTERNS) := getNamesAndPatterns parseTokens in
getPatternParts NAMES NMAP PATTERNS.

(** *** Matching *)

Definition continuation (c : ascii) : bool :=
let n := nat_of_ascii c in Nat.leb 128 n && Nat.ltb n 192.

Fixpoint take_continuation (s : string) : string * string :=
match s with
| String c s' =>
    if continuation c then let '(a, b) := take_continuation s' in (String c a, b)
    else (EmptyString, s)
| EmptyString => (EmptyString, EmptyString)
end.

(** The first character of the input (one UTF-16 code unit for a character
    of the basic plane) and the rest. *)
Definition uncons (s : string) : option (string * string) :=
match s with
| EmptyString => None
| String c s' => let '(a, b) := take_continuation s' in Some (String c a, b)
end.

Definition mem (x : string) (l : list string) : bool := existsb (String.eqb x) l.

(** The character class [[chars]]: a leading [^] negates it. *)
Definition matchClass (chars : list string) (input : string) : option string :=
match chars with
| [] => None
| "^" :: rest =>
    match uncons input with
    | Some (c, _) => if mem c rest then None else Some c
    | None => None
    end
| _ =>
    match uncons input with
    | Some (c, _) => if mem c chars then Some c else None
    | None => None
    end
end.

(** The alternatives of a name pattern are tried in order. *)
Fixpoint matchNames (l : list string) (input : string) : option string :=
match l with
| [] => None
| n :: l' => if String.prefix n input then Some n else matchNames l' input
end.

Definition matchNamePattern (p : NamePattern) (input : string) : option string :=
match names p, chars p with
| [], [] => Some ""
| _, _ =>
    match matchNames (names p) input with
    | Some n => Some n
    | None => matchClass (chars p) input
    end
end.

Definition isDigit (c : ascii) : bool :=
match JS.digit c with Some _ => true | None => false end.

Definition isLetter (c : ascii) : bool :=
let n := nat_of_ascii c in
(Nat.leb 65 n && Nat.leb n 90) || (Nat.leb 97 n && Nat.leb n 122).

Fixpoint takeDigits (s : string) : string * string :=
match s with
| String c s' =>
    if isDigit c then let '(a, b) := takeDigits s' in (String c a, b) else (EmptyString, s)
| EmptyString => (EmptyString, EmptyString)
end.

(** The two raw patterns of the catalogue; another pattern is outside the
    model. *)
Definition matchPattern (pattern : string) (input : string) : Result (option string) :=
if String.eqb pattern "[a-zA-Z]" then
  match input with
  | String c _ => Ok (if isLetter c then Some (String c EmptyString) else None)
  | EmptyString => Ok None
  end
else if String.eqb pattern "[0-9]+(?:\.[0-9]*)?|\.[0-9]+" then
  let '(d, rest) := takeDigits input in
  match d, rest with
  | String _ _, String "."%char rest' => Ok (Some (d ++ "." ++ fst (takeDigits rest')))
  | String _ _, _ => Ok (Some d)
  | EmptyString, String "."%char rest' =>
      match fst (takeDigits rest') with
      | EmptyString => Ok None
      | f => Ok (Some ("." ++ f))
      end
  | EmptyString, _ => Ok None
  end
else Unmodelled ("pattern " ++ pattern).

(** [RegExp.prototype.exec] for the sticky pattern [(p1)|(p2)|...]: the first
    group that matches at the position, with the token id its [MAP] function
    returns ([None] as id is [undefined]). *)
Fixpoint exec (parts : list Part) (input : string) : Result (option (option string * string)) :=
match parts with
| [] => Ok None
| NamePart _ p nmap :: parts' =>
    match matchNamePattern p input with
    | Some term => Ok (Some (lookup String.eqb term nmap, term))
    | None => exec parts' input
    end
| PatternPart _ id pattern :: parts' =>
    rbind (matchPattern pattern input) (fun r =>
      match r with
      | Some term => Ok (Some (Some id, term))
      | None => exec parts' input
      end)
end.

Fixpoint skipSpaces (s : string) : string :=
match s with
| String " "%char s' => skipSpaces s'
| _ => s
end.

Fixpoint drop (n : nat) (s : string) : string :=
match n, s with
| S n', String _ s' => drop n' s'
| _, _ => s
end.

(** The characters of a string: every byte with the continuation bytes
    that follow it. *)
Fixpoint characters (s : string) : list string :=
match s with
| EmptyString => []
| String c s' =>
    match s' with
    | String d _ =>
        if continuation d then
          match characters s' with
          | t :: l => String c t :: l
          | [] => [String c EmptyString]
          end
        else String c EmptyString :: characters s'
    | EmptyString => [String c EmptyString]
    end
end.

(** The white space and the line terminators of ECMAScript, which
    [String.prototype.trim] strips: U+0009 to U+000D, U+0020, U+00A0, U+1680,
    U+2000 to U+200A, U+2028, U+2029, U+202F, U+205F, U+3000 and U+FEFF. *)
Definition whiteSpace : list string :=
map JS.utf8
  [ [9]; [10]; [11]; [12]; [13]; [32]; [194; 160]; [225; 154; 128];
    [226; 128; 128]; [226; 128; 129]; [226; 128; 130]; [226; 128; 131];
    [226; 128; 132]; [226; 128; 133]; [226; 128; 134]; [226; 128; 135];
    [226; 128; 136]; [226; 128; 137]; [226; 128; 138];
    [226; 128; 168]; [226; 128; 169]; [226; 128; 175];
    [226; 129; 159]; [227; 128; 128]; [239; 187; 191] ].

Definition isSpace (c : string) : bool := mem c whiteSpace.

Fixpoint trimStart (l : list string) : list string :=
match l with
| c :: l' => if isSpace c then trimStart l' else l
| [] => []
end.

Definition trimEnd (l : list string) : list string := rev (trimStart (rev l)).

(** [String.prototype.trim] *)
Definition trim (s : string) : string :=
String.concat "" (trimEnd (trimStart (characters s))).

(** [string[i]] in a message, for the rest [s] of the input from [i] on: one
    UTF-16 code unit, or [undefined] at the end.  A character outside the
    basic plane is a pair of surrogates, and the first of them alone is not a
    string of UTF-8. *)
Definition codeUnit (s : string) : Result string :=
match s with
| EmptyString => Ok "undefined"
| String c _ =>
    if Nat.leb 240 (nat_of_ascii c) then Unmodelled "a character outside the basic plane"
    else match uncons s with
         | Some (u, _) => Ok u
         | None => Ok "undefined"
         end
end.

End Lexer.

(** ** Tokens, the stack and the negotiation handlers *)

Module Parser.

(** [ApplyData.args]: a number or [Infinity]. *)
Inductive ArgCount :=
| Count (q : Q)
| Infinity.

Definition ArgCount_eqb (a b : ArgCount) : bool :=
match a, b with
| Count x, Count y => Qeq_bool x y
| Infinity, Infinity => true
| _, _ => false
end.

(** The function-application data.  The object is shared by reference
    between tokens and [checkFunction] assigns to its [args]: [args] is a
    cell of the state, the two flags never change. *)
Record ApplyData := mkApplyData {
  autoApply : bool;
  requireArgument : bool;
  args : nat
}.

(** A token: its identity, its class and the properties that the methods
    assign on the instance.  The other properties are read from the class.
    ([Group.open] and [Group.close] are only ever written and are left out.) *)
Inductive Token := mkToken {
  tid : nat;
  cls : Class.t;
  value : string;
  ast : Ast.node;
  canApply : bool;
  applyData : option ApplyData;
  precedence : Q;
  type : string;
  removable : bool;
  isClose : bool;
  isApply : bool;
  list_ : list string;
  saved : list Token;
  isOpen : bool;
  hasComma : bool;
  isClosed : bool;
  pushed : bool
}.

Definition set_ast x (t : Token) :=
mkToken (tid t) (cls t) (value t) x (canApply t) (applyData t) (precedence t) (type t)
  (removable t) (isClose t) (isApply t) (list_ t) (saved t) (isOpen t) (hasComma t) (isClosed t) (pushed t).
Definition set_canApply x (t : Token) :=
mkToken (tid t) (cls t) (value t) (ast t) x (applyData t) (precedence t) (type t)
  (removable t) (isClose t) (isApply t) (list_ t) (saved t) (isOpen t) (hasComma t) (isClosed t) (pushed t).
Definition set_applyData x (t : Token) :=
mkToken (tid t) (cls t) (value t) (ast t) (canApply t) x (precedence t) (type t)
  (removable t) (isClose t) (isApply t) (list_ t) (saved t) (isOpen t) (hasComma t) (isClosed t) (pushed t).
Definition set_precedence x (t : Token) :=
mkToken (tid t) (cls t) (value t) (ast t) (canApply t) (applyData t) x (type t)
  (removable t) (isClose t) (isApply t) (list_ t) (saved t) (isOpen t) (hasComma t) (isClosed t) (pushed t).
Definition set_type x (t : Token) :=
mkToken (tid t) (cls t) (value t) (ast t) (canApply t) (applyData t) (precedence t) x
  (removable t) (isClose t) (isApply t) (list_ t) (saved t) (isOpen t) (hasComma t) (isClosed t) (pushed t).
Definition set_removable x (t : Token) :=
mkToken (tid t) (cls t) (value t) (ast t) (canApply t) (applyData t) (precedence t) (type t)
  x (isClose t) (isApply t) (list_ t) (saved t) (isOpen t) (hasComma t) (isClosed t) (pushed t).
Definition set_isClose x (t : Token) :=
mkToken (tid t) (cls t) (value t) (ast t) (canApply t) (applyData t) (precedence t) (type t)
  (removable t) x (isApply t) (list_ t) (saved t) (isOpen t) (hasComma t) (isClosed t) (pushed t).
Definition set_isApply x (t : Token) :=
mkToken (tid t) (cls t) (value t) (ast t) (canApply t) (applyData t) (precedence t) (type t)
  (removable t) (isClose t) x (list_ t) (saved t) (isOpen t) (hasComma t) (isClosed t) (pushed t).
Definition set_list x (t : Token) :=
mkToken (tid t) (cls t) (value t) (ast t) (canApply t) (applyData t) (precedence t) (type t)
  (removable t) (isClose t) (isApply t) x (saved t) (isOpen t) (hasComma t) (isClosed t) (pushed t).
Definition set_saved x (t : Token) :=
mkToken (tid t) (cls t) (value t) (ast t) (canApply t) (applyData t) (precedence t) (type t)
  (removable t) (isClose t) (isApply t) (list_ t) x (isOpen t) (hasComma t) (isClosed t) (pushed t).
Definition set_isOpen x (t : Token) :=
mkToken (tid t) (cls t) (value t) (ast t) (canApply t) (applyData t) (precedence t) (type t)
  (removable t) (isClose t) (isApply t) (list_ t) (saved t) x (hasComma t) (isClosed t) (pushed t).
Definition set_hasComma x (t : Token) :=
mkToken (tid t) (cls t) (value t) (ast t) (canApply t) (applyData t) (precedence t) (type t)
  (removable t) (isClose t) (isApply t) (list_ t) (saved t) (isOpen t) x (isClosed t) (pushed t).
Definition set_isClosed x (t : Token) :=
mkToken (tid t) (cls t) (value t) (ast t) (canApply t) (applyData t) (precedence t) (type t)
  (removable t) (isClose t) (isApply t) (list_ t) (saved t) (isOpen t) (hasComma t) x (pushed t).
Definition set_pushed x (t : Token) :=
mkToken (tid t) (cls t) (value t) (ast t) (canApply t) (applyData t) (precedence t) (type t)
  (removable t) (isClose t) (isApply t) (list_ t) (saved t) (isOpen t) (hasComma t) (isClosed t) x.

(** *** Properties read from the class *)

Definition kind (t : Token) : string := Class.kind (cls t).
Definition impl (t : Token) : Class.Impl := Class.impl (cls t).
Definition associativity (t : Token) : option string := Class.string_ "associativity" (cls t).
Definition combine (t : Token) : bool := Class.bool_ "combine" (cls t).
Definition appliesLeft (t : Token) : bool := Class.bool_ "appliesLeft" (cls t).
Definition allowEmpty (t : Token) : bool := Class.bool_ "allowEmpty" (cls t).
Definition close (t : Token) : list string := Class.strings_ "close" (cls t).
Definition removePrecedence (t : Token) : Q :=
match Class.number_ "removePrecedence" (cls t) with Some q => q | None => 0%Q end.
Definition negateNumbers (t : Token) : bool := Class.bool_ "negateNumbers" (cls t).
Definition combined (t : Token) : list (string * string) := Class.map_ "combined" (cls t).
Definition opStrings (t : Token) : list (string * string) := Class.map_ "opStrings" (cls t).
Definition opString (t : Token) : option string := Class.string_ "opString" (cls t).
Definition isComma (t : Token) : bool := Class.bool_ "isComma" (cls t).
Definition equalParens (t : Token) : bool := Class.bool_ "equalParens" (cls t).

Definition is_left (t : Token) : bool :=
match associativity t with Some a => String.eqb a "left" | None => false end.
Definition is_right (t : Token) : bool :=
match associativity t with Some a => String.eqb a "right" | None => false end.

(** [token.isa(type)]: [token instanceof parser.getBaseClass(type)] for the
    classes of [Parser.baseTokens], which are registered under their names. *)
Definition isa (type : string) (t : Token) : bool := Class.derives (cls t) type.

(** [token.isast(type, node)]; [node] may be [undefined]. *)
Definition isast (type : Ast.Class) (n : option Ast.node) : bool :=
match n with
| Some n => Ast.subclass (Ast.class_of n) type
| None => false
end.

(** The getters [canPrecedeOperand] and [canBeLeftUnary] of [Operator]. *)
Definition canPrecedeOperand (t : Token) : bool :=
String.eqb (type t) "binary" || is_left t.

Definition canBeLeftUnary (t : Token) : bool :=
negb (String.eqb (type t) "binary") && is_left t.

(** *** The state of a parse and its monad *)

Record State := mkState {
  stack : list Token;     (* [Stack.stack], the top is the last element *)
  nextId : nat;           (* the identity of the next token created *)
  cells : list ArgCount   (* the [args] of the [ApplyData] objects *)
}.

Definition M (A : Type) : Type := State -> Result (A * State).

Definition ret {A} (a : A) : M A := fun s => Ok (a, s).

Definition bind {A B} (m : M A) (k : A -> M B) : M B :=
fun s =>
  match m s with
  | Ok (a, s') => k a s'
  | Throw e => Throw e
  | OutOfFuel => OutOfFuel
  | Unmodelled w => Unmodelled w
  end.

Notation "x <- c1 ;; c2" := (bind c1 (fun x => c2))
  (at level 61, c1 at next level, right associativity).
Notation "c1 ;; c2" := (bind c1 (fun _ => c2))
  (at level 61, right associativity).

(** [parser.error(message)] throws. *)
Definition error {A} (message : string) : M A := fun _ => Throw message.

Definition typeError {A} : M A := fun _ => Throw "TypeError".

Definition unmodelled {A} (why : string) : M A := fun _ => Unmodelled why.

Definition outOfFuel {A} : M A := fun _ => OutOfFuel.

Definition lift {A} (r : Result A) : M A :=
fun s => match r with
         | Ok a => Ok (a, s)
         | Throw e => Throw e
         | OutOfFuel => OutOfFuel
         | Unmodelled w => Unmodelled w
         end.

(** A method call on a value that may be [undefined]. *)
Definition need {A} (o : option A) : M A :=
match o with Some a => ret a | None => typeError end.

(** [Stack.top], [Stack.pop] and the array push of [Stack.push]. *)
Definition top : M (option Token) :=
fun s => Ok (List.last (map Some (stack s)) None, s).

Definition pop : M (option Token) :=
fun s => Ok (List.last (map Some (stack s)) None,
             mkState (removelast (stack s)) (nextId s) (cells s)).

Definition rawPush (t : Token) : M unit :=
fun s => Ok (tt, mkState (stack s ++ [t])%list (nextId s) (cells s)).

Fixpoint rawPushAll (items : list Token) : M unit :=
match items with
| [] => ret tt
| t :: items' => rawPush t ;; rawPushAll items'
end.

(** An assignment to a property of the token on top of the stack. *)
Definition replaceTop (t : Token) : M unit :=
fun s => Ok (tt, mkState (removelast (stack s) ++ [t])%list (nextId s) (cells s)).

Definition fresh : M nat :=
fun s => Ok (nextId s, mkState (stack s) (S (nextId s)) (cells s)).

Definition newCell (a : ArgCount) : M nat :=
fun s => Ok (List.length (cells s), mkState (stack s) (nextId s) (cells s ++ [a])%list).

Definition readCell (r : nat) : M ArgCount :=
fun s => match nth_error (cells s) r with
         | Some a => Ok (a, s)
         | None => Unmodelled "dangling ApplyData"
         end.

Fixpoint update {A} (n : nat) (x : A) (l : list A) : list A :=
match l, n with
| [], _ => []
| _ :: l', O => x :: l'
| y :: l', S n' => y :: update n' x l'
end.

Definition writeCell (r : nat) (a : ArgCount) : M unit :=
fun s => Ok (tt, mkState (stack s) (nextId s) (update r a (cells s))).

(** An assignment through a reference to a token that was pushed: the token
    is looked for on the stack by its identity. *)
Fixpoint updateToken (id : nat) (f : Token -> Token) (l : list Token) : option (list Token) :=
match l with
| [] => None
| t :: l' =>
    match updateToken id f l' with
    | Some l'' => Some (t :: l'')
    | None => if Nat.eqb (tid t) id then Some (f t :: l') else None
    end
end.

Definition updateById (id : nat) (f : Token -> Token) : M unit :=
fun s => match updateToken id f (stack s) with
         | Some l => Ok (tt, mkState l (nextId s) (cells s))
         | None => Unmodelled "the token is not on the stack"
         end.


(** *** [tree] *)

Definition children (t : Token) : list Ast.node := Ast.childNodes (ast t).

Definition child (i : nat) (t : Token) : option Ast.node := nth_error (children t) i.

(** [Token.tree] *)
Definition Token_tree (t : Token) : Result Ast.node := Ok (ast t).

(** [Delimiter.canBeRemoved] *)
Definition canBeRemoved (t : Token) : bool :=
removable t && Nat.eqb (List.length (children t)) 1 &&
(negb (isast Ast.Op (child 0 t)) ||
 match child 0 t with
 | Some c => match Ast.precedence_of c with
             | Some p => negb (Qle_bool p (removePrecedence t))
             | None => false
             end
 | None => false
 end).

(** [Delimiter.tree] *)
Definition Delimiter_tree (t : Token) : Result Ast.node :=
if Nat.eqb (List.length (children t)) 0 && negb (allowEmpty t) && negb (isClose t)
then Throw "Empty delimiters not allowed"
else if canBeRemoved t
     then match child 0 t with Some c => Ok c | None => Ok (ast t) end
     else Ok (ast t).

(** [StackDelimiter.tree]: the first child, which may be [undefined]. *)
Definition StackDelimiter_tree (t : Token) : option Ast.node := child 0 t.

(** The class that [Token.createAst(type, ...)] instantiates:
    [this[type + 'AstClass'] || type], looked up in [Parser.baseAst]. *)
Definition astClassFor (c : Class.t) (type : string) : Result Ast.Class :=
Ast.getAstClass Ast.baseAst
  (match Class.string_ (type ++ "AstClass") c with
   | Some s => if String.eqb s "" then type else s
   | None => type
   end).

(** [Relation.tree] *)
Definition Relation_tree (t : Token) : Result Ast.node :=
if Nat.leb (List.length (children t)) 2 then Token_tree t
else
  rbind (astClassFor (cls t) "MultiRel") (fun c =>
    if Ast.Class_eqb c Ast.MultiRel then
      Ok (Ast.new_MultiRel
            (match Ast.lookup (type t) (combined t) with
             | Some s => if String.eqb s "" then type t else s
             | None => type t
             end)
            (children t) (list_ t) (opStrings t))
    else Unmodelled "MultiRelAstClass").

(** [UnaryMinus.tree] *)
Definition UnaryMinus_tree (t : Token) : Result Ast.node :=
if negateNumbers t && Nat.eqb (List.length (children t)) 1 && isast Ast.Num (child 0 t) then
  match child 0 t with
  | Some num =>
      match Ast.value_of num with
      | Ast.VNum n =>
          if JS.positive n
          then Ok (Ast.with_own (Ast.set_value (Ast.VNum (JS.neg n))) num)
          else Token_tree t
      | Ast.VStr s =>
          if String.eqb s "" then Token_tree t else Unmodelled "a string as the value of a Num"
      end
  | None => Token_tree t
  end
else Token_tree t.

(** [Power.tree] *)
Definition Power_tree (t : Token) : Result Ast.node :=
match applyData t, child 0 t with
| Some _, Some f =>
    if isast Ast.FuncName (Some f)
       && match Ast.inverse_of f with Some i => negb (String.eqb i "") | None => false end
    then
      match child 1 t with
      | None => Throw "TypeError"
      | Some e =>
          match Ast.toString e with
          | None => Throw "TypeError"
          | Some s =>
              if String.eqb s "-1"
              then Ok (Ast.with_own
                         (Ast.set_value
                            (Ast.VStr (match Ast.inverse_of f with Some i => i | None => "" end))) f)
              else Token_tree t
          end
      end
    else Token_tree t
| _, _ => Token_tree t
end.

(** [ApplyOp.tree] *)
Definition ApplyOp_tree (t : Token) : Result Ast.node :=
let prec := match Class.number_ "precedence" Class.ApplyOp with Some q => q | None => 0%Q end in
let auto := Qeq_bool prec (precedence t) in
let 'Ast.Node c o ch e := ast t in
if isast Ast.Name (child 0 t) then
  match child 0 t with
  | Some f =>
      let tree := Ast.Node c (Ast.set_value (Ast.value_of f) o) (tl (children t)) e in
      Ok (match Ast.autoApply_of tree with
          | Some b => if Bool.eqb b auto then tree else Ast.with_own (Ast.set_autoApply auto) tree
          | None => Ast.with_own (Ast.set_autoApply auto) tree
          end)
  | None => Ok (ast t)
  end
else
  rbind (astClassFor (cls t) "FuncExp") (fun c' =>
    if Ast.Class_eqb c' Ast.FuncExp
    then Ok (Ast.new_FuncExp (child 0 t) (tl (children t)) auto prec)
    else Unmodelled "FuncExpAstClass").

(** [token.tree()], by the class that implements it.  Every caller drops the
    token once it has its tree, so the changes that [UnaryMinus.tree],
    [Power.tree] and [ApplyOp.tree] make in place show in the result only. *)
Definition tree (t : Token) : Result Ast.node :=
match impl t with
| Class.IDelimiter => Delimiter_tree t
| Class.IStackDelimiter =>
    match StackDelimiter_tree t with
    | Some n => Ok n
    | None => Unmodelled "undefined as a tree"
    end
| Class.IRelation => Relation_tree t
| Class.IUnaryMinus => UnaryMinus_tree t
| Class.IPower => Power_tree t
| Class.IApplyOp | Class.IApplyArgument => ApplyOp_tree t
| _ => Token_tree t
end.

(** *** [saveFunction], [checkFunction], [append] *)

(** [Token.checkFunction] *)
Definition checkFunction (thisData tokenData : ApplyData) : M bool :=
if negb (Bool.eqb (autoApply thisData) (autoApply tokenData)) then ret false
else if negb (Bool.eqb (requireArgument thisData) (requireArgument tokenData)) then ret false
else if Nat.eqb (args thisData) (args tokenData) then ret true
else
  value1 <- readCell (args thisData) ;;
  value2 <- readCell (args tokenData) ;;
  if ArgCount_eqb value1 value2 then ret true
  else
    match value1, value2 with
    | _, Infinity => ret true
    | Infinity, Count _ => writeCell (args thisData) value2 ;; ret true
    | Count _, Count _ => ret false
    end.

(** [Token.saveFunction] *)
Definition saveFunction (this token : Token) : M Token :=
match applyData token, canApply this with
| Some tokenData, true =>
    match applyData this with
    | Some thisData =>
        ok <- checkFunction thisData tokenData ;;
        if ok then ret this
        else error ("Functions are not compatible types for " ++ value this)
    | None => ret (set_applyData (Some tokenData) this)
    end
| _, _ =>
    if negb (canApply token) then ret (set_applyData None (set_canApply false this))
    else ret this
end.

(** [Token.append]; the result is the receiver after the call. *)
Definition Token_append (this token : Token) : M Token :=
a <- lift (tree token) ;;
saveFunction (set_ast (Ast.append (ast this) a) this) token.

(** The getter [ApplyOp.name] *)
Definition ApplyOp_name (this : Token) : M string :=
match child 0 this with
| Some f => match Ast.toString f with
            | Some s => ret (s ++ "()")
            | None => typeError
            end
| None => typeError
end.

(** [ApplyOp.append] *)
Definition ApplyOp_append (this token : Token) : M Token :=
if negb (Nat.eqb (List.length (children this)) 0) && isa "Group" token && isApply token then
  a <- lift (tree token) ;;
  data <- need (applyData this) ;;
  n <- readCell (args data) ;;
  (if negb (ArgCount_eqb n (Count (inject_Z (Z.of_nat (List.length (Ast.childNodes a))))))
      && negb (ArgCount_eqb n Infinity)
   then name <- ApplyOp_name this ;; error ("Wrong number of arguments for " ++ name)
   else ret tt) ;;
  ret (set_ast (fold_left Ast.append (Ast.childNodes a) (ast this)) this)
else Token_append this token.

(** [this.append(token)] for a receiver held in a variable.  The [append] of
    [ApplyPending] works on the stack and is only called on the top of the
    stack ([appendTop] below). *)
Definition localAppend (this token : Token) : M Token :=
match impl this with
| Class.IApplyOp | Class.IApplyArgument => ApplyOp_append this token
| Class.IApplyPending => unmodelled "ApplyPending.append away from the stack"
| _ => Token_append this token
end.

(** *** Constructors *)

(** An argument of a constructor call. *)
Inductive Arg :=
| AUndef
| AStr (s : string)
| ABool (b : bool)
| ATok (t : Token).

(** [Token.normalizeValue] *)
Definition normalizeValue (c : Class.t) (v : option string) : string :=
match Class.get "normalizeTo" c with
| Some (Class.VString s) => s
| _ =>
    let name := match v with
                | Some s => if String.eqb s "" then Class.kind c else s
                | None => Class.kind c
                end in
    match Ast.lookup name (Class.map_ "normalize" c) with
    | Some n => if String.eqb n "" then name else n
    | None => name
    end
end.

(** [new C(value)] for the AST class [C], as [Token]'s constructor calls it. *)
Definition createAst (c : Class.t) (type : string) (v : string) : Result Ast.node :=
rbind (astClassFor c type) (fun a =>
  if Ast.Class_eqb a Ast.Num then Ok (Ast.new_Num v)
  else if Ast.isLeaf a then Ok (Ast.new_Leaf a v)
  else if Ast.subclass a Ast.StackGroup then Ok (Ast.new_StackGroup a v None [])
  else if Ast.subclass a Ast.MultiRel then Throw "TypeError"
  else if Ast.subclass a Ast.FuncExp then Unmodelled "a FuncExp made from a value"
  else Ok (Ast.new_AstNode a v [])).

Definition string_arg (a : Arg) : M (option string) :=
match a with
| AUndef => ret None
| AStr s => ret (Some s)
| _ => unmodelled "constructor argument"
end.

Definition token_arg (a : Arg) : M Token :=
match a with
| ATok t => ret t
| _ => unmodelled "constructor argument"
end.

(** [Token]'s constructor *)
Definition Token_new (c : Class.t) (a0 : Arg) : M Token :=
v <- string_arg a0 ;;
let value := normalizeValue c v in
node <- lift (createAst c (match Class.string_ "astClass" c with Some s => s | None => "" end) value) ;;
id <- fresh ;;
ret (mkToken id c value node (Class.bool_ "canApply" c) None
       (match Class.number_ "precedence" c with Some q => q | None => 0%Q end)
       (match Class.string_ "type" c with Some s => s | None => "" end)
       (Class.bool_ "removable" c) false (Class.bool_ "isApply" c)
       [] [] false false false false).

(** The loop of [Operator]'s constructor over [transferIds], which is
    [['associativity', 'precedence', 'isComma', 'equalParens', 'opString']]
    for every class: a property of the token that differs from the node's
    becomes an own property of the node. *)
Definition transfer (t : Token) (n : Ast.node) : Ast.node :=
let n := match associativity t with
         | Some a => match Ast.associativity_of n with
                     | Some a' => if String.eqb a a' then n else Ast.with_own (Ast.set_associativity a) n
                     | None => Ast.with_own (Ast.set_associativity a) n
                     end
         | None => n
         end in
let n := match Ast.precedence_of n with
         | Some p => if Qeq_bool p (precedence t) then n
                     else Ast.with_own (Ast.set_precedence (precedence t)) n
         | None => Ast.with_own (Ast.set_precedence (precedence t)) n
         end in
let n := match Ast.isComma_of n with
         | Some b => if Bool.eqb b (isComma t) then n else Ast.with_own (Ast.set_isComma (isComma t)) n
         | None => Ast.with_own (Ast.set_isComma (isComma t)) n
         end in
let n := match Ast.equalParens_of n with
         | Some b => if Bool.eqb b (equalParens t) then n
                     else Ast.with_own (Ast.set_equalParens (equalParens t)) n
         | None => Ast.with_own (Ast.set_equalParens (equalParens t)) n
         end in
match Ast.opString_of n, opString t with
| Some None, None => n
| Some (Some s), Some s' => if String.eqb s s' then n else Ast.with_own (Ast.set_opString (Some s')) n
| _, x => Ast.with_own (Ast.set_opString x) n
end.

(** [Operator]'s constructor *)
Definition Operator_new (c : Class.t) (a0 : Arg) : M Token :=
t <- Token_new c a0 ;;
let n := transfer t (ast t) in
ret (set_ast (match Ast.lookup (value t) (opStrings t) with
              | Some s => if String.eqb s "" then n else Ast.with_own (Ast.set_opString (Some s)) n
              | None => n
              end) t).

(** [Relation]'s constructor *)
Definition Relation_new (c : Class.t) (a0 : Arg) : M Token :=
t <- Operator_new c a0 ;;
ret (set_type (value t) (set_list [value t] t)).

(** The constructors of [ApplyOp] and [ApplyPending] *)
Definition ApplyOp_new (c : Class.t) (a0 : Arg) : M Token :=
token <- token_arg a0 ;;
t <- Operator_new c AUndef ;;
ret (set_applyData (applyData token) t).

(** [Tree]'s constructor *)
Definition Tree_new (c : Class.t) (a0 : Arg) : M Token :=
token <- token_arg a0 ;;
t <- Token_new c AUndef ;;
a <- lift (tree token) ;;
saveFunction (set_ast a t) token.

(** [Group]'s constructor *)
Definition Group_new (c : Class.t) (a0 a1 a2 : Arg) : M Token :=
op <- string_arg a0 ;;
cl <- string_arg a1 ;;
token <- token_arg a2 ;;
t <- Tree_new c a2 ;;
match op with
| Some op =>
    ret (set_isApply (isApply token)
           (set_ast (Ast.with_own (fun o => Ast.set_close cl (Ast.set_open op o)) (ast t)) t))
| None => unmodelled "constructor argument"
end.

(** [Apply]'s constructor *)
Definition Apply_new (c : Class.t) (a0 : Arg) : M Token :=
t <- Token_new c a0 ;;
count <- match Class.get "args" c with
         | Some (Class.VNumber q) => ret (Count q)
         | Some Class.VInfinity => ret Infinity
         | _ => unmodelled "args"
         end ;;
cell <- newCell count ;;
let data := mkApplyData (Class.bool_ "autoApply" c)
              (Class.bool_ "requireArgument" c || Class.bool_ "autoApply" c) cell in
let t := set_pushed false (set_canApply true (set_applyData (Some data) t)) in
ret (if Class.bool_ "isInvertible" c
     then set_ast (Ast.with_own (Ast.set_inverse ("a" ++ value t)) (ast t)) t
     else t).

(** [Delimiter]'s constructor with [checkIfClose] *)
Definition Delimiter_new (c : Class.t) (a0 a1 : Arg) : M Token :=
t <- Token_new c a0 ;;
match Class.get "isClose" c with
| Some (Class.VBool b) => ret (set_isClose b t)
| _ =>
    match a1 with
    | ABool b => ret (set_isClose b t)
    | AUndef =>
        ret (set_isClose (if String.eqb (value t) (kind t) then false
                          else existsb (String.eqb (value t)) (close t)) t)
    | _ => unmodelled "constructor argument"
    end
end.

(** [new C(stack, a0, a1, a2)] *)
Definition construct (c : Class.t) (a0 a1 a2 : Arg) : M Token :=
match Class.impl c with
| Class.IToken | Class.IOperand | Class.ILookAhead | Class.IAngle => Token_new c a0
| Class.ITree => Tree_new c a0
| Class.IGroup => Group_new c a0 a1 a2
| Class.IApply => Apply_new c a0
| Class.IOperator | Class.IPower | Class.IUnaryMinus => Operator_new c a0
| Class.IRelation => Relation_new c a0
| Class.IApplyOp | Class.IApplyArgument | Class.IApplyPending => ApplyOp_new c a0
| Class.IDelimiter | Class.IStackDelimiter => Delimiter_new c a0 a1
end.

(** [Parser.getBaseClass] *)
Definition getBaseClass (type : string) : Result Class.t :=
match Lexer.lookup String.eqb type Class.baseTokens with
| Some c => Ok c
| None => Throw ("No definition for token class: " ++ type)
end.

(** [Token.createToken(type, ...args)]: the class is
    [this[type + 'Class'] || type]. *)
Definition classFor (this : Token) (type : string) : Result Class.t :=
match Class.get (type ++ "Class") (cls this) with
| Some (Class.VClass c) => Ok c
| Some (Class.VString s) => if String.eqb s "" then getBaseClass type else getBaseClass s
| _ => getBaseClass type
end.

Definition createToken (this : Token) (type : string) (a0 a1 a2 : Arg) : M Token :=
c <- lift (classFor this type) ;;
construct c a0 a1 a2.


(** *** [Stack.push]

    The negotiation of [Stack.push], over the handlers it calls.
    [followedBy] also returns the new token, which a handler may have
    changed ([ApplyPending.checkDelimiter] does). *)
Definition Stack_push
  (followedBy : Token -> Token -> M (option (list Token) * Token))
  (follows : Token -> option Token -> M (list Token))
  (token : Token) : M unit :=
t <- top ;;
r <- match t with
     | Some t => followedBy t token
     | None => ret (None, token)
     end ;;
items <- match fst r with
         | Some items => ret items
         | None => t' <- top ;; follows (snd r) t'
         end ;;
rawPushAll items.

(** *** The handlers

    The handlers call back into the stack: [push] is [Stack.push],
    [appendTop token] is [this.stack.top().append(token)] and returns the
    receiver as the call leaves it, [closeLoop] is the loop of
    [Delimiter.follows]. *)

Section Handlers.

Variable push : Token -> M unit.
Variable appendTop : Token -> M Token.
Variable closeLoop : Token -> M (list Token).

Fixpoint pushAll (l : list Token) : M unit :=
match l with
| [] => ret tt
| t :: l' => push t ;; pushAll l'
end.

(** [Operator.makeUnary] *)
Definition makeUnary (this : Token) : M Token :=
if String.eqb (type this) "unary" then ret this
else createToken this "unary" (AStr (value this)) AUndef AUndef.

(** [ApplyPending.pushApplyOp] *)
Definition pushApplyOp (this token : Token) : M (option Token) :=
item <- (if isApply token
         then i <- createToken this "ApplyArgument" (ATok this) AUndef AUndef ;; ret (Some i)
         else data <- need (applyData this) ;;
              if autoApply data
              then i <- createToken this "ApplyOp" (ATok this) AUndef AUndef ;; ret (Some i)
              else ret None) ;;
match item with
| None =>
    data <- need (applyData this) ;;
    if negb (requireArgument data) then ret None
    else error "Function argument must be enclosed"
| Some i => push i ;; ret (Some i)
end.

(** [ApplyPending.appendOperator] *)
Definition appendOperator (this token : Token) : M Token :=
appendTop token ;;
p <- pop ;;
p <- need p ;;
tr <- createToken this "Tree" (ATok p) AUndef AUndef ;;
push tr ;;
let this' := set_precedence
               (match Class.number_ "precedence" (cls this) with Some q => q | None => 0%Q end)
               this in
push this' ;;
ret this'.

(** [ApplyPending.appendOther] *)
Definition appendOther (this token : Token) : M unit :=
item <- pushApplyOp this token ;;
match item with
| Some i =>
    a <- lift (tree token) ;;
    updateById (tid i) (fun x => set_ast (Ast.append (ast x) a) x)
| None => ret tt
end.

(** [ApplyPending.append] *)
Definition ApplyPending_append (this token : Token) : M Token :=
pop ;;
t <- top ;;
t <- need t ;;
if isa "Operator" t then appendOperator this token
else appendOther this token ;; ret this.

(** One call [this.stack.top().append(token)]. *)
Definition appendTop_step (token : Token) : M Token :=
t <- top ;;
t <- need t ;;
match impl t with
| Class.IApplyPending => ApplyPending_append t token
| _ => t' <- localAppend t token ;; replaceTop t' ;; ret t'
end.

(** **** [group] *)

(** [Token.group] *)
Definition Token_group (this : Token) : M bool :=
pop ;;
appendTop this ;;
ret false.

(** [Operator.checkOperands] *)
Definition checkOperands (this : Token) : bool :=
Nat.leb 2 (List.length (children this))
|| (String.eqb (type this) "unary" && Nat.eqb (List.length (children this)) 1).

(** [Operator.group] *)
Definition Operator_group (this : Token) : M bool :=
(if negb (checkOperands this)
 then error ("Missing operand following " ++ Ast.value_to_string (Ast.value_of (ast this)))
 else ret tt) ;;
Token_group this.

(** [ApplyOp.group] *)
Definition ApplyOp_group (this : Token) : M bool :=
(if Nat.ltb (List.length (children this)) 2
 then name <- ApplyOp_name this ;; error ("Missing argument for " ++ name)
 else ret tt) ;;
pop ;;
tr <- createToken this "Tree" (ATok this) AUndef AUndef ;;
appendTop tr ;;
ret false.

(** [ApplyPending.group] *)
Definition ApplyPending_group (this : Token) : M bool :=
pop ;;
data <- need (applyData this) ;;
(if requireArgument data
 then a <- createToken this "ApplyArgument" (ATok this) AUndef AUndef ;; push a
 else ret tt) ;;
ret false.

(** [Delimiter.isClosedBy] *)
Definition isClosedBy (this item : Token) : bool :=
existsb (String.eqb (value item)) (close this).

(** [Delimiter.group] *)
Definition Delimiter_group (this item : Token) : M bool :=
if isClosedBy this item then
  (if negb (isa "Start" this) then
     pop ;;
     g <- (if canBeRemoved this
           then createToken this "Tree" (ATok this) AUndef AUndef
           else createToken this "Group" (AStr (value this)) (AStr (value item)) (ATok this)) ;;
     push g ;;
     match applyData this with
     | Some _ => a <- createToken this "ApplyPending" (ATok this) AUndef AUndef ;; push a
     | None => ret tt
     end
   else ret tt) ;;
  ret true
else if isa "Start" this then
  error ("Missing open delimiter for '" ++ value item ++ "'")
else if isa "End" item then
  error ("Missing close delimiter for '" ++ value this ++ "'")
else
  error ("Mismatched delimiters: '" ++ value this ++ "' and '" ++ value item ++ "'").

(** [LookAhead.unravel] *)
Definition unravel (this : Token) (item : string) (isClose : bool) : M unit :=
pop ;;
t <- createToken this item AUndef (ABool isClose) AUndef ;;
push t ;;
pushAll (saved this).

(** [LookAhead.group] *)
Definition LookAhead_group (this : Token) : M bool :=
match saved this with
| _ :: _ => unravel this "operator" false ;; ret false
| [] => error ("Missing operand after " ++ value this)
end.

(** [top.group(item)] *)
Definition group (this item : Token) : M bool :=
match impl this with
| Class.IOperator | Class.IRelation | Class.IPower | Class.IUnaryMinus => Operator_group this
| Class.IApplyOp | Class.IApplyArgument => ApplyOp_group this
| Class.IApplyPending => ApplyPending_group this
| Class.IDelimiter | Class.IStackDelimiter => Delimiter_group this item
| Class.ILookAhead | Class.IAngle => LookAhead_group this
| _ => Token_group this
end.

(** One round of the loop of [Delimiter.follows]:
    [while (top) { if (top.group(this)) return []; top = this.stack.top(); }]
    and the error after it. *)
Definition closeLoop_step (this : Token) : M (list Token) :=
t <- top ;;
match t with
| Some t =>
    closed <- group t this ;;
    if closed then ret [] else closeLoop this
| None => error ("Extra close delimiter: " ++ value this)
end.

(** **** [follows] *)

(** [Token.follows] *)
Definition Token_follows (this : Token) : M (list Token) := ret [this].

(** [Operand.follows] *)
Definition Operand_follows (this : Token) (t : option Token) : M (list Token) :=
t <- need t ;;
if negb (isa "Operand" t) then ret [this]
else
  j <- createToken this "Juxtapose" AUndef AUndef AUndef ;;
  push j ;;
  push this ;;
  ret [].

(** [Apply.follows] *)
Definition Apply_follows (this : Token) (t : option Token) : M (list Token) :=
if pushed this then ret [this]
else
  let this := set_pushed true this in
  t <- need t ;;
  (if isa "Operand" t
   then j <- createToken this "Juxtapose" AUndef AUndef AUndef ;; push j
   else ret tt) ;;
  a <- createToken this "ApplyPending" (ATok this) AUndef AUndef ;;
  ret [this; a].

(** [Operator.checkIsHigherPrecedence] and its override in [ApplyArgument] *)
Definition Operator_checkIsHigherPrecedence (this prev : Token) : bool :=
negb (Qle_bool (precedence prev) (precedence this))
|| (Qeq_bool (precedence prev) (precedence this) && is_left this).

Definition checkIsHigherPrecedence (this prev t : Token) : bool :=
match impl this with
| Class.IApplyArgument =>
    match applyData t with
    | None => true
    | Some _ => Operator_checkIsHigherPrecedence this prev
    end
| _ => Operator_checkIsHigherPrecedence this prev
end.

(** [Operator.canCombine] *)
Definition Operator_canCombine (this prev : Token) : bool :=
String.eqb (value prev) (value this) && combine this && negb (String.eqb (type prev) "unary").

(** [Relation.canCombine]: the test, and [prev] as the call leaves it. *)
Definition Relation_can (this prev : Token) : bool :=
combine this && isa "Relation" prev
&& (String.eqb (type prev) "="
    || (String.eqb (value this) "="
        || String.eqb (JS.charAt0 (type prev)) (JS.charAt0 (value this)))).

Definition Relation_canCombine (this prev : Token) : bool * Token :=
if Relation_can this prev then
  let prev := set_list (list_ prev ++ [value this])%list prev in
  (true, if String.eqb (type prev) "=" then set_type (JS.charAt0 (value this)) prev else prev)
else (false, prev).

Definition canCombine (this prev : Token) : bool * Token :=
match impl this with
| Class.IRelation => Relation_canCombine this prev
| _ => (Operator_canCombine this prev, prev)
end.

(** [Operator.checkOperator]: [Some []] when the previous operator took the
    operand, [None] for [null]. *)
Definition checkOperator (this t : Token) : M (option (list Token)) :=
pop ;;
prev <- top ;;
prev <- need prev ;;
if isa "Operator" prev && checkIsHigherPrecedence this prev t then
  prev <- appendTop t ;;
  let r := canCombine this prev in
  (if fst r then
     match impl this with
     | Class.IRelation => replaceTop (snd r)
     | _ => ret tt
     end
   else
     pop ;;
     tr <- createToken this "Tree" (ATok (snd r)) AUndef AUndef ;;
     push tr ;;
     push this) ;;
  ret (Some [])
else ret None.

(** [Operator.checkIsLeftUnary]; [top] is only looked at for a ['both']. *)
Definition checkIsLeftUnary (this : Token) (t : option Token) : M bool :=
if is_left this then
  if String.eqb (type this) "unary" then ret true
  else if String.eqb (type this) "both" then (t <- need t ;; ret (negb (isa "Operand" t)))
       else ret false
else ret false.

(** [Operator.checkIsRightUnary] *)
Definition checkIsRightUnary (this t : Token) : bool :=
is_right this
&& (String.eqb (type this) "unary" || (String.eqb (type this) "both" && negb (isa "Operator" t))).

(** [Operator.checkRightUnary] *)
Definition checkRightUnary (this t : Token) : M bool :=
if checkIsRightUnary this t then
  u <- makeUnary this ;;
  tr <- createToken this "Tree" (ATok u) AUndef AUndef ;;
  push tr ;;
  ret true
else ret false.

(** [Operator.follows] *)
Definition Operator_follows (this : Token) (t : option Token) : M (list Token) :=
unary <- checkIsLeftUnary this t ;;
if unary then (u <- makeUnary this ;; ret [u])
else
  t <- need t ;;
  (if negb (isa "Operand" t) then error ("Missing operand before " ++ value this) else ret tt) ;;
  handled <- checkOperator this t ;;
  match handled with
  | Some _ => ret []
  | None =>
      this <- localAppend this t ;;
      let this := if isa "Apply" t then set_applyData (applyData t) this else this in
      right <- checkRightUnary this t ;;
      if right then ret [] else ret [this]
  end.

(** [Delimiter.follows] *)
Definition Delimiter_follows (this : Token) : M (list Token) :=
if negb (isClose this) then ret [this] else closeLoop this.

(** [Angle.follows] *)
Definition Angle_follows (this : Token) (t : option Token) : M (list Token) :=
if match nth_error (Class.strings_ "token" (cls this)) 0 with
   | Some s => String.eqb (value this) s
   | None => false
   end
then
  t <- need t ;;
  ret [if isa "Delimiter" t || (isa "Operator" t && canPrecedeOperand t)
       then set_isOpen true this else this]
else
  o <- createToken this "operator" (AStr (value this)) AUndef AUndef ;;
  push o ;;
  ret [].

(** [token.follows(top)] *)
Definition follows (this : Token) (t : option Token) : M (list Token) :=
match impl this with
| Class.IOperand | Class.ITree | Class.IGroup => Operand_follows this t
| Class.IApply => Apply_follows this t
| Class.IOperator | Class.IRelation | Class.IPower | Class.IUnaryMinus
| Class.IApplyOp | Class.IApplyArgument => Operator_follows this t
| Class.IDelimiter | Class.IStackDelimiter => Delimiter_follows this
| Class.IAngle => Angle_follows this t
| Class.IToken | Class.ILookAhead | Class.IApplyPending => Token_follows this
end.

(** **** [followedBy] *)

(** [ApplyPending.checkRequiredArgument]: [Some this] for [true], with the
    precedence it has taken. *)
Definition checkRequiredArgument (this token : Token) : M (option Token) :=
data <- need (applyData this) ;;
if negb (requireArgument data) || appliesLeft token then
  push token ;;
  t <- top ;;
  t <- need t ;;
  if canApply t then ret (Some (set_precedence (precedence token) this)) else ret None
else ret None.

(** [ApplyPending.checkAutoApply] *)
Definition checkAutoApply (this token : Token) : M (option (list Token)) :=
data <- need (applyData this) ;;
if autoApply data then
  if canBeLeftUnary token then (u <- makeUnary token ;; ret (Some [this; u]))
  else if isa "Juxtapose" token then ret (Some [this])
       else ret None
else ret None.

(** [ApplyPending.checkOperator] *)
Definition ApplyPending_checkOperator (this token : Token) : M (option (list Token)) :=
if negb (isa "Operator" token) then ret None
else
  pop ;;
  prev <- top ;;
  required <- checkRequiredArgument this token ;;
  match required with
  | Some this' => ret (Some [this'])
  | None =>
      result <- checkAutoApply this token ;;
      match result with
      | Some l => ret (Some l)
      | None =>
          prev <- need prev ;;
          match Ast.toString (ast prev) with
          | Some s => error ("Missing argument for " ++ s)
          | None => typeError
          end
      end
  end.

(** [ApplyPending.checkOperand]; the outer [None] means that the token is
    not an operand and the next check is made. *)
Definition ApplyPending_checkOperand (this token : Token) : M (option (option (list Token))) :=
if negb (isa "Operand" token) then ret None
else
  pop ;;
  t <- top ;;
  t <- need t ;;
  if isa "Operator" t then (push token ;; ret (Some (Some [this])))
  else
    item <- pushApplyOp this token ;;
    match item with
    | None => ret (Some None)
    | Some _ => push token ;; ret (Some (Some []))
    end.

(** [ApplyPending.checkDelimiter]: always [null], with the token it marks. *)
Definition ApplyPending_checkDelimiter (token : Token) : Token :=
if isa "Delimiter" token && isApply token then set_removable false token else token.

(** [ApplyPending.followedBy] *)
Definition ApplyPending_followedBy (this token : Token) : M (option (list Token) * Token) :=
r <- ApplyPending_checkOperator this token ;;
match r with
| Some l => ret (Some l, token)
| None =>
    r <- ApplyPending_checkOperand this token ;;
    match r with
    | Some (Some l) => ret (Some l, token)
    | _ => ret (None, ApplyPending_checkDelimiter token)
    end
end.

(** [LookAhead.followedByCheck]: the outer [None] is [undefined]. *)
Definition LookAhead_followedByCheck (token : Token) : option (option (list Token)) :=
if isa "Delimiter" token then Some None else None.

(** [Angle.isOperator] *)
Definition Angle_isOperator (this token : Token) : bool :=
isa "Operand" token && hasComma this && negb (isOpen this).

(** The second name of [Angle.token]. *)
Definition Angle_closeName (this : Token) : Arg :=
match nth_error (Class.strings_ "token" (cls this)) 1 with
| Some s => AStr s
| None => AUndef
end.

(** [Angle.checkIsClosed] *)
Definition Angle_checkIsClosed (this token : Token) : M bool :=
if negb (isClosed this) then ret false
else
  (if Angle_isOperator this token then
     unravel this "operator" false ;;
     o <- createToken this "operator" (Angle_closeName this) (ABool true) AUndef ;;
     push o
   else
     unravel this "delimiter" false ;;
     d <- createToken this "delimiter" (Angle_closeName this) (ABool true) AUndef ;;
     push d) ;;
  push token ;;
  ret true.

(** [Angle.followedByCheck]; the token returned is the receiver, which
    [checkOperator] may have marked. *)
Definition Angle_followedByCheck (this token : Token)
  : M (option (option (list Token)) * Token) :=
closed <- Angle_checkIsClosed this token ;;
if closed then ret (Some (Some []), this)
else if isa "Delimiter" token then ret (Some None, this)
else if isa "Operator" token && String.eqb (value token) ","
     then ret (None, set_hasComma true this)
     else ret (None, this).

(** [LookAhead.followedBySelf] *)
Definition LookAhead_followedBySelf (this token : Token) : M (list Token) :=
match List.last (map Some (saved this)) None with
| Some t =>
    if negb (isa "Operator" t && canPrecedeOperand t) then
      unravel this "delimiter" false ;;
      d <- createToken this "delimiter"
             (match Class.string_ "close" (cls this) with Some s => AStr s | None => AUndef end)
             (ABool true) AUndef ;;
      push d ;;
      ret []
    else ret [token]
| None => ret [token]
end.

(** [LookAhead.followedBy], with the [followedByCheck] and [followedBySelf]
    of [Angle].  The receiver is the top of the stack; what the handler
    assigns to it is written there. *)
Definition LookAhead_followedBy (this token : Token) : M (option (list Token) * Token) :=
check <- match impl this with
         | Class.IAngle => Angle_followedByCheck this token
         | _ => ret (LookAhead_followedByCheck token, this)
         end ;;
match fst check with
| Some r => ret (r, token)
| None =>
    let this := snd check in
    if Class.derives (cls token) (Class.name (cls this)) then
      match impl this with
      | Class.IAngle =>
          if match nth_error (Class.strings_ "token" (cls this)) 0 with
             | Some s => String.eqb (value token) s
             | None => false
             end
          then replaceTop this ;; ret (Some [token], token)
          else replaceTop (set_isClosed true this) ;; ret (Some [], token)
      | _ => l <- LookAhead_followedBySelf this token ;; ret (Some l, token)
      end
    else
      replaceTop (set_saved (saved this ++ [token])%list this) ;;
      ret (Some [], token)
end.

(** [top.followedBy(token)] *)
Definition followedBy (this token : Token) : M (option (list Token) * Token) :=
match impl this with
| Class.IApplyPending => ApplyPending_followedBy this token
| Class.ILookAhead | Class.IAngle => LookAhead_followedBy this token
| _ => ret (None, token)
end.

End Handlers.

(** *** The engine

    [Stack.push], [append] on the top of the stack and the closing loop call
    each other without a bound in the source; here each call spends one unit
    of fuel. *)

Record Engine := mkEngine {
  push : Token -> M unit;
  appendTop : Token -> M Token;
  closeLoop : Token -> M (list Token)
}.

Fixpoint engine (fuel : nat) : Engine :=
match fuel with
| O => mkEngine (fun _ => outOfFuel) (fun _ => outOfFuel) (fun _ => outOfFuel)
| S n =>
    let e := engine n in
    mkEngine
      (Stack_push (followedBy (push e)) (follows (push e) (appendTop e) (closeLoop e)))
      (appendTop_step (push e) (appendTop e))
      (closeLoop_step (push e) (appendTop e) (closeLoop e))
end.

(** *** [Parser.convert] *)

(** [Parser.createToken(type)] with a class name. *)
Definition Parser_createToken (type : string) : M Token :=
c <- lift (getBaseClass type) ;;
construct c AUndef AUndef AUndef.

(** [Parser.nextToken]: the token and the input after it; [None] at the end
    of the input. *)
Definition nextToken (parts : list Lexer.Part) (parseTokens : list (string * Class.t))
  (input : string) : M (option (Token * string)) :=
if String.eqb input "" then ret None
else
  let input := Lexer.skipSpaces input in
  r <- lift (Lexer.exec parts input) ;;
  match r with
  | None =>
      c <- lift (Lexer.codeUnit input) ;;
      error ("Unexpected character: " ++ c)
  | Some (id, term) =>
      if String.eqb term "" then ret None
      else
        c <- need (match id with
                   | Some id => Lexer.lookup String.eqb id parseTokens
                   | None => None
                   end) ;;
        t <- construct c (AStr term) AUndef AUndef ;;
        ret (Some (t, Lexer.drop (String.length term) input))
  end.

(** The loop of [convert] over the tokens of the input. *)
Fixpoint pushTokens (n : nat) (e : Engine) (parts : list Lexer.Part)
  (parseTokens : list (string * Class.t)) (input : string) : M unit :=
match n with
| O => outOfFuel
| S n' =>
    r <- nextToken parts parseTokens input ;;
    match r with
    | None => ret tt
    | Some (t, rest) => push e t ;; pushTokens n' e parts parseTokens rest
    end
end.

Definition convertM (fuel : nat) (parseTokens : list (string * Class.t)) (input : string)
  : M (option Ast.node) :=
let input := Lexer.trim input in
let parts := Lexer.getPattern parseTokens in
let e := engine fuel in
start <- Parser_createToken "Start" ;;
push e start ;;
pushTokens (S (String.length input)) e parts parseTokens input ;;
end_ <- Parser_createToken "End" ;;
push e end_ ;;
t <- pop ;;
t <- need t ;;
match impl t with
| Class.IStackDelimiter => ret (StackDelimiter_tree t)
| _ => a <- lift (tree t) ;; ret (Some a)
end.

Definition initial : State := mkState [] 0 [].

(** [parser.convert(input)]; [Ok None] is the result [undefined]. *)
Definition convert (fuel : nat) (parseTokens : list (string * Class.t)) (input : string)
  : Result (option Ast.node) :=
match convertM fuel parseTokens input initial with
| Ok (a, _) => Ok a
| Throw e => Throw e
| OutOfFuel => OutOfFuel
| Unmodelled w => Unmodelled w
end.

(** The parser of [main.ts]. *)
Definition mainTokens : list (string * Class.t) :=
Lexer.addParseTokens Class.Sets
  (Lexer.addParseTokens Class.Inequalities
     (Lexer.addParseTokens Class.Greek
        (Lexer.addParseTokens Class.Standard []))).

(** [parser.convert(input).toString()] *)
Definition render (fuel : nat) (input : string) : Result (option string) :=
match convert fuel mainTokens input with
| Ok (Some a) => Ok (Ast.toString a)
| Ok None => Throw "TypeError"
| Throw e => Throw e
| OutOfFuel => OutOfFuel
| Unmodelled w => Unmodelled w
end.

End Parser.

(** * Properties *)

Unset Implicit Arguments.

(** ** Definitions used by the statements *)

(** A node that [toJSON] and [fromJSON] handle: the kind of every class in it
    names that class in the parser's AST registry, a leaf stores no children
    and no [exp], and [exp] is owned by the [FuncExp] nodes and only by them. *)
Fixpoint serializable (n : Ast.node) : bool :=
let 'Ast.Node c o ch e := n in
match Ast.assoc (Ast.kind c) Ast.baseAst with
| Some c' => Ast.Class_eqb c c'
| None => false
end
&& (if Ast.isLeaf c
    then match ch, e with [], None => true | _, _ => false end
    else (fix all (l : list Ast.node) : bool :=
            match l with
            | [] => true
            | x :: l' => serializable x && all l'
            end) ch
         && match e with
            | Some x => Ast.subclass c Ast.FuncExp && serializable x
            | None => negb (Ast.subclass c Ast.FuncExp)
            end).

(** The first child of the tree of a parse. *)
Definition first_child (r : Result (option Ast.node)) : option Ast.node :=
match r with
| Ok (Some a) => nth_error (Ast.childNodes a) 0
| _ => None
end.

(** ** An induction principle for nodes *)

Section NodeInd.
Variable P : Ast.node -> Prop.
Hypothesis step : forall c o ch e,
  Forall P ch -> match e with Some x => P x | None => True end -> P (Ast.Node c o ch e).

Fixpoint node_induction (n : Ast.node) : P n :=
match n with
| Ast.Node c o ch e =>
    step c o ch e
      ((fix go (l : list Ast.node) : Forall P l :=
          match l with
          | [] => Forall_nil P
          | x :: l' => Forall_cons x (node_induction x) (go l')
          end) ch)
      (match e return match e with Some x => P x | None => True end with
       | Some x => node_induction x
       | None => I
       end)
end.
End NodeInd.

(** ** Strings and rationals *)

Lemma length_append (a b : string) :
  String.length (a ++ b) = String.length a + String.length b.
Proof. induction a as [|c a IH]; simpl; [reflexivity | now rewrite IH]. Qed.

Lemma parenthesized_differs (text : string) : "(" ++ text ++ ")" <> text.
Proof.
  intro H. apply (f_equal String.length) in H.
  simpl in H. rewrite length_append in H. simpl in H. lia.
Qed.

Lemma Qlt_bool_iff (x y : Q) : negb (Qle_bool y x) = true <-> (x < y)%Q.
Proof.
  rewrite negb_true_iff. split.
  - intro H. apply Qnot_le_lt. intro L. apply Qle_bool_iff in L. congruence.
  - intro H. destruct (Qle_bool y x) eqn:E; [|reflexivity].
    apply Qle_bool_iff in E. exfalso. exact (Qlt_not_le _ _ H E).
Qed.

(** ** The AST: [addParens] *)

Lemma wraps_iff (n : Ast.node) (threshold : Q) (equal : bool) :
  Ast.wraps n threshold equal = true <->
  exists p, Ast.precedence_of n = Some p
            /\ ((p < threshold)%Q \/ (equal = true /\ (p == threshold)%Q)).
Proof.
  unfold Ast.wraps. destruct (Ast.precedence_of n) as [p|].
  - rewrite orb_true_iff, andb_true_iff, Qlt_bool_iff, Qeq_bool_iff. split.
    + intro H. exists p. split; [reflexivity | exact H].
    + intros [q [E H]]. injection E as <-. exact H.
  - split; [discriminate | intros [q [E _]]; discriminate].
Qed.

Lemma addParens_text (n : Ast.node) (threshold : Q) (equal : bool) (text : string) :
  Ast.toString n = Some text ->
  Ast.addParens n threshold equal
  = Some (if Ast.wraps n threshold equal then "(" ++ text ++ ")" else text).
Proof.
  intro H. unfold Ast.addParens, Ast.has_precedence, Ast.wraps. rewrite H.
  destruct (Ast.precedence_of n); reflexivity.
Qed.

(** C3 (as amended): [addParens(node, threshold, includeOnEqual)] puts the
    rendering of the node in parentheses if and only if the node has a
    precedence and that precedence is below the threshold, or equals it with
    [includeOnEqual] set; a node without the property keeps its rendering,
    and the name and number nodes that the constructors make have none.  The
    input "(3+4)*2" is rendered with the sum in parentheses. *)
Theorem addParens_iff (n : Ast.node) (threshold : Q) (equal : bool) (text : string) :
  Ast.toString n = Some text ->
  (Ast.addParens n threshold equal = Some ("(" ++ text ++ ")") <->
   exists p, Ast.precedence_of n = Some p
             /\ ((p < threshold)%Q \/ (equal = true /\ (p == threshold)%Q)))
  /\ (Ast.addParens n threshold equal = Some text <->
      ~ exists p, Ast.precedence_of n = Some p
                  /\ ((p < threshold)%Q \/ (equal = true /\ (p == threshold)%Q)))
  /\ (Ast.has_precedence n = false -> Ast.addParens n threshold equal = Some text)
  /\ (forall v, Ast.has_precedence (Ast.new_Leaf Ast.Name v) = false
                /\ Ast.has_precedence (Ast.new_Num v) = false)
  /\ (forall k, Parser.render (12 + k) "(3+4)*2" = Ok (Some "(3 + 4) * 2")).
Proof.
  intro H. rewrite (addParens_text n threshold equal text H).
  rewrite <- wraps_iff.
  assert (leaves : forall v, Ast.has_precedence (Ast.new_Leaf Ast.Name v) = false
                             /\ Ast.has_precedence (Ast.new_Num v) = false).
  { intro v. split; [reflexivity|]. unfold Ast.new_Num.
    destruct (JS.parseFloat v) as [x|]; [destruct (JS.isZero x)|]; reflexivity. }
  assert (example : forall k, Parser.render (12 + k) "(3+4)*2" = Ok (Some "(3 + 4) * 2")).
  { intro k. vm_compute. reflexivity. }
  destruct (Ast.wraps n threshold equal) eqn:W.
  - split; [split; intros; reflexivity|].
    split; [split|].
    + intro E. injection E as E. exfalso. exact (parenthesized_differs text E).
    + intro E. exfalso. apply E. reflexivity.
    + split; [|split; assumption].
      intro P. unfold Ast.has_precedence, Ast.wraps in *.
      destruct (Ast.precedence_of n); discriminate.
  - split; [split|].
    + intro E. injection E as E. exfalso. exact (parenthesized_differs text (eq_sym E)).
    + discriminate.
    + split; [split; [intros _ W'; discriminate | reflexivity]|].
      split; [reflexivity | split; assumption].
Qed.

(** The sum of "(3+4)*2", rendered under the product. *)
Lemma addParens_iff_witness :
  Ast.toString (Ast.Node Ast.Bop (Ast.set_precedence 1 (Ast.plain (Ast.VStr "+")))
                  [Ast.new_Num "3"; Ast.new_Num "4"] None) = Some "3 + 4"
  /\ Ast.addParens (Ast.Node Ast.Bop (Ast.set_precedence 1 (Ast.plain (Ast.VStr "+")))
                      [Ast.new_Num "3"; Ast.new_Num "4"] None) 2 false
     = Some "(3 + 4)".
Proof.
  split; [reflexivity|].
  apply (proj1 (addParens_iff
                  (Ast.Node Ast.Bop (Ast.set_precedence 1 (Ast.plain (Ast.VStr "+")))
                     [Ast.new_Num "3"; Ast.new_Num "4"] None) 2 false "3 + 4" eq_refl)).
  exists 1%Q. split; [reflexivity | left; reflexivity].
Defined.

(** C3 (as stated) fails for function applications: the function
    application that the parser resolves for "sin x" has a precedence (the
    one of its apply operator), and under the power of "(sin x)^2" it is put
    in parentheses. *)
Lemma function_application_wrapped :
  match first_child (Parser.convert 30 Parser.mainTokens "(sin x)^2") with
  | Some f =>
      Ast.class_of f = Ast.FuncApply
      /\ Ast.toString f = Some "sin(x)"
      /\ Ast.precedence_of f = Some (7 # 2)%Q
      /\ Ast.addParens f 4 false = Some "(sin(x))"
  | None => False
  end
  /\ Parser.render 30 "(sin x)^2" = Ok (Some "(sin(x))^2").
Proof. vm_compute. repeat split; reflexivity. Qed.

(** ** The AST: JSON *)

Lemma Class_eqb_eq (a b : Ast.Class) : Ast.Class_eqb a b = true -> a = b.
Proof. destruct a, b; simpl; intro H; try reflexivity; discriminate. Qed.

Lemma toJSON_children (l : list Ast.node) :
  (fix go (l : list Ast.node) : Result (list Ast.json) :=
     match l with
     | [] => Ok []
     | x :: l' => rbind (Ast.toJSON x) (fun j => rbind (go l') (fun js => Ok (j :: js)))
     end) l = rmap Ast.toJSON l.
Proof. induction l as [|x l IH]; simpl; [reflexivity | now rewrite IH]. Qed.

Lemma fromJSON_children (m : list (string * Ast.Class)) (l : list Ast.json) :
  (fix go (l : list Ast.json) : Result (list Ast.node) :=
     match l with
     | [] => Ok []
     | x :: l' => rbind (Ast.fromJSON m x) (fun n => rbind (go l') (fun ns => Ok (n :: ns)))
     end) l = rmap (Ast.fromJSON m) l.
Proof. induction l as [|x l IH]; simpl; [reflexivity | now rewrite IH]. Qed.

Lemma serializable_children (l : list Ast.node) :
  (fix all (l : list Ast.node) : bool :=
     match l with
     | [] => true
     | x :: l' => serializable x && all l'
     end) l = forallb serializable l.
Proof. induction l as [|x l IH]; simpl; [reflexivity | now rewrite IH]. Qed.

Lemma serializable_unfold c o ch e :
  serializable (Ast.Node c o ch e)
  = (match Ast.assoc (Ast.kind c) Ast.baseAst with
     | Some c' => Ast.Class_eqb c c'
     | None => false
     end
     && (if Ast.isLeaf c
         then match ch, e with [], None => true | _, _ => false end
         else forallb serializable ch
              && match e with
                 | Some x => Ast.subclass c Ast.FuncExp && serializable x
                 | None => negb (Ast.subclass c Ast.FuncExp)
                 end)).
Proof.
  change (serializable (Ast.Node c o ch e)) with
    (match Ast.assoc (Ast.kind c) Ast.baseAst with
     | Some c' => Ast.Class_eqb c c'
     | None => false
     end
     && (if Ast.isLeaf c
         then match ch, e with [], None => true | _, _ => false end
         else (fix all (l : list Ast.node) : bool :=
                 match l with
                 | [] => true
                 | x :: l' => serializable x && all l'
                 end) ch
              && match e with
                 | Some x => Ast.subclass c Ast.FuncExp && serializable x
                 | None => negb (Ast.subclass c Ast.FuncExp)
                 end)).
  rewrite serializable_children. reflexivity.
Qed.

Definition roundtrips (n : Ast.node) : Prop :=
  exists j, Ast.toJSON n = Ok j /\ Ast.fromJSON Ast.baseAst j = Ok n.

Lemma roundtrips_children (l : list Ast.node) :
  Forall (fun n => serializable n = true -> roundtrips n) l ->
  forallb serializable l = true ->
  exists js, rmap Ast.toJSON l = Ok js /\ rmap (Ast.fromJSON Ast.baseAst) js = Ok l.
Proof.
  induction 1 as [|x l Hx _ IH]; simpl; intro S.
  - exists []. split; reflexivity.
  - apply andb_true_iff in S. destruct S as [Sx Sl].
    destruct (Hx Sx) as [j [Tj Fj]]. destruct (IH Sl) as [js [Tjs Fjs]].
    exists (j :: js). simpl. rewrite Tj, Tjs, Fj, Fjs. split; reflexivity.
Qed.

Lemma serializable_roundtrips (n : Ast.node) : serializable n = true -> roundtrips n.
Proof.
  induction n as [c o ch e IHch IHe] using node_induction.
  intro S. rewrite serializable_unfold in S.
  apply andb_true_iff in S. destruct S as [Reg S].
  assert (G : Ast.getAstClass Ast.baseAst (Ast.kind c) = Ok c).
  { unfold Ast.getAstClass.
    destruct (Ast.assoc (Ast.kind c) Ast.baseAst) as [c'|]; [|discriminate].
    apply Class_eqb_eq in Reg. now subst c'. }
  unfold roundtrips. simpl Ast.toJSON. rewrite toJSON_children.
  destruct (Ast.isLeaf c) eqn:L.
  - destruct ch; [|discriminate]. destruct e; [discriminate|].
    eexists. split; [reflexivity|]. simpl. rewrite G. simpl. rewrite L. reflexivity.
  - apply andb_true_iff in S. destruct S as [Sch Se].
    destruct (roundtrips_children ch IHch Sch) as [js [Tjs Fjs]].
    rewrite Tjs. simpl.
    destruct e as [x|].
    + apply andb_true_iff in Se. destruct Se as [F Sx]. rewrite F.
      destruct (IHe Sx) as [jx [Tx Fx]]. rewrite Tx. simpl.
      eexists. split; [reflexivity|]. simpl. rewrite G. simpl. rewrite L, F, Fx. simpl.
      rewrite fromJSON_children, Fjs. reflexivity.
    + apply negb_true_iff in Se. rewrite Se.
      eexists. split; [reflexivity|]. simpl. rewrite G. simpl. rewrite L, Se. simpl.
      rewrite fromJSON_children, Fjs. reflexivity.
Qed.

(** The tree of "sin^2 x": a function expression with the head [sin^2]. *)
Definition sin_squared_x : Ast.node :=
match Parser.convert 30 Parser.mainTokens "sin^2 x" with
| Ok (Some a) => a
| _ => Ast.new_Leaf Ast.Name ""
end.

(** The round trip of the registered kinds: an AST whose nodes are of the
    kinds registered with the parser is serialized by [toJSON], and
    [fromJSON] of the same parser rebuilds from the result an AST with the
    same [toString]; [fromJSON] converts the embedded head of a function
    expression, then the children, and makes the parent from the converted
    parts. *)
Theorem toJSON_fromJSON_roundtrip (n : Ast.node) :
  serializable n = true ->
  (exists j n', Ast.toJSON n = Ok j
                /\ Ast.fromJSON Ast.baseAst j = Ok n'
                /\ Ast.toString n' = Ast.toString n)
  /\ (forall o l x,
        Ast.fromJSON Ast.baseAst (Ast.JObject "FuncExp" o (Some l) (Some x))
        = rbind (Ast.fromJSON Ast.baseAst x) (fun head =>
            rbind (rmap (Ast.fromJSON Ast.baseAst) l) (fun children =>
              Ok (Ast.Node Ast.FuncExp o children (Some head)))))
  /\ (forall k c o l,
        Ast.getAstClass Ast.baseAst k = Ok c ->
        Ast.isLeaf c = false -> Ast.subclass c Ast.FuncExp = false ->
        Ast.fromJSON Ast.baseAst (Ast.JObject k o (Some l) None)
        = rbind (rmap (Ast.fromJSON Ast.baseAst) l) (fun children =>
            Ok (Ast.Node c o children None))).
Proof.
  intro S. split; [|split].
  - destruct (serializable_roundtrips n S) as [j [T F]].
    exists j, n. repeat split; assumption.
  - intros o l x. simpl. destruct (Ast.fromJSON Ast.baseAst x); simpl; try reflexivity.
    rewrite fromJSON_children. reflexivity.
  - intros k c o l G L F. simpl. rewrite G. simpl. rewrite L, F. simpl.
    rewrite fromJSON_children. reflexivity.
Qed.

Lemma toJSON_fromJSON_roundtrip_witness :
  serializable sin_squared_x = true
  /\ Ast.class_of sin_squared_x = Ast.FuncExp
  /\ exists j n', Ast.toJSON sin_squared_x = Ok j
                  /\ Ast.fromJSON Ast.baseAst j = Ok n'
                  /\ Ast.toString n' = Ast.toString sin_squared_x.
Proof.
  split; [vm_compute; reflexivity|]. split; [vm_compute; reflexivity|].
  apply (proj1 (toJSON_fromJSON_roundtrip sin_squared_x eq_refl)).
Defined.

(** C4: the round trip fails on a tree that [convert] returns.  In
    "sin^-x f x" the multiplication that is implied before the last operand
    finds the pending application of [sin^-x] below the function [f]:
    [Operator.checkOperator] appends [f] to it, [ApplyPending.append] takes
    the pending application off the stack and pushes the application of
    [sin^(-x)] to [f] in its place, and [checkOperator] then pops that
    application as if it were the pending one and makes a tree of the pending
    application, whose AST is a bare [AstNode].  The parse succeeds with the
    product of that node and [x]; [toJSON] gives the node the kind "AstNode",
    which the parser has registered as "base" only, and [fromJSON] throws.
    Without the last operand the same text parses to the application. *)
Theorem pending_application_in_the_parse_result :
  forall k,
    (exists n p j,
        Parser.convert (5 + k) Parser.mainTokens "sin^-x f x" = Ok (Some n)
        /\ Ast.class_of n = Ast.Bop
        /\ Ast.childNodes n = [p; Ast.new_Leaf Ast.Name "x"]
        /\ Ast.class_of p = Ast.AstNode
        /\ Ast.value_of p = Ast.VStr "apply-pending"
        /\ Ast.toString n = Some "apply-pending x"
        /\ Ast.toJSON n = Ok j
        /\ Ast.fromJSON Ast.baseAst j = Throw "No definition for AST class: AstNode")
    /\ Parser.render (6 + k) "sin^-x f" = Ok (Some "sin^(-x)(f)").
Proof.
  intro k. split.
  - do 3 eexists.
    split; [vm_compute; reflexivity|].
    split; [reflexivity|].
    split; [reflexivity|].
    split; [reflexivity|].
    split; [reflexivity|].
    split; [vm_compute; reflexivity|].
    split; vm_compute; reflexivity.
  - vm_compute. reflexivity.
Qed.

(** ** Tokens: [tree] *)

Lemma subclass_Num (c : Ast.Class) : Ast.subclass c Ast.Num = true <-> c = Ast.Num.
Proof. destruct c; simpl; split; intro H; try reflexivity; discriminate. Qed.

(** A unary minus token over one operand, as [Operator]'s constructor and
    [append] leave it. *)
Definition uminus_over (operand : Ast.node) : Parser.Token :=
Parser.mkToken 0 Class.UnaryMinus "-"
  (Ast.Node Ast.Uop (Ast.set_precedence 3 (Ast.plain (Ast.VStr "-"))) [operand] None)
  true None 3 "unary" false false false [] [] false false false false.

(** C10: the unary minus folds the sign into a number only when
    [negateNumbers] is set, the token has exactly one child, the child is a
    [Num] node and its value is greater than zero; then [tree] is that [Num]
    node with the value negated.  In every other case, a zero operand
    included, [tree] is the unary operator node of the token with its
    children as they are.  (The value of a [Num] node is a number or, for
    zero, the empty string: [Num]'s constructor stores nothing else.) *)
Theorem UnaryMinus_tree_sign_fold (t : Parser.Token) :
  Parser.impl t = Class.IUnaryMinus ->
  (forall num n,
      Parser.negateNumbers t = true ->
      Parser.children t = [num] ->
      Ast.class_of num = Ast.Num ->
      Ast.value_of num = Ast.VNum n ->
      (0 < JS.mant n)%Z ->
      Parser.tree t = Ok (Ast.with_own (Ast.set_value (Ast.VNum (JS.neg n))) num))
  /\ (Parser.negateNumbers t = false
      \/ List.length (Parser.children t) <> 1
      \/ (exists x, Parser.children t = [x]
                    /\ (Ast.class_of x <> Ast.Num
                        \/ Ast.value_of x = Ast.VStr ""
                        \/ exists n, Ast.value_of x = Ast.VNum n /\ (JS.mant n <= 0)%Z)) ->
      Parser.tree t = Ok (Parser.ast t))
  /\ (forall k, Parser.convert (12 + k) Parser.mainTokens "-5"
                = Ok (Some (Ast.Node Ast.Num
                              (Ast.plain (Ast.VNum (JS.mkNumber (-5) 0))) [] None)))
  /\ (forall k, Parser.convert (12 + k) Parser.mainTokens "-0"
                = Ok (Some (Ast.Node Ast.Uop (Ast.set_precedence 3 (Ast.plain (Ast.VStr "-")))
                              [Ast.Node Ast.Num (Ast.plain (Ast.VStr "")) [] None] None))).
Proof.
  intro I. unfold Parser.tree. rewrite I. unfold Parser.UnaryMinus_tree, Parser.child.
  split; [|split; [|split]].
  - intros num n N C K V P. rewrite N, C. simpl.
    unfold Parser.isast. rewrite K. simpl. rewrite V.
    unfold JS.positive. apply Z.ltb_lt in P. rewrite P. reflexivity.
  - intros [N | [L | [x [C [K | [V | [n [V P]]]]]]]].
    + rewrite N. reflexivity.
    + destruct (Parser.negateNumbers t); [|reflexivity]. simpl.
      destruct (Nat.eqb (List.length (Parser.children t)) 1) eqn:E; [|reflexivity].
      apply Nat.eqb_eq in E. contradiction.
    + rewrite C. simpl. destruct (Parser.negateNumbers t); [|reflexivity]. simpl.
      unfold Parser.isast.
      destruct (Ast.subclass (Ast.class_of x) Ast.Num) eqn:E; [|reflexivity].
      apply subclass_Num in E. contradiction.
    + rewrite C. simpl. rewrite V.
      match goal with |- (if ?b then _ else _) = _ => destruct b end; reflexivity.
    + rewrite C. simpl. rewrite V. unfold JS.positive.
      apply Z.ltb_ge in P. rewrite P.
      match goal with |- (if ?b then _ else _) = _ => destruct b end; reflexivity.
  - intro k. vm_compute. reflexivity.
  - intro k. vm_compute. reflexivity.
Qed.

Lemma UnaryMinus_tree_sign_fold_witness :
  Parser.tree (uminus_over (Ast.new_Num "5"))
  = Ok (Ast.Node Ast.Num (Ast.plain (Ast.VNum (JS.mkNumber (-5) 0))) [] None)
  /\ Parser.tree (uminus_over (Ast.new_Num "0")) = Ok (Parser.ast (uminus_over (Ast.new_Num "0"))).
Proof.
  split.
  - apply (proj1 (UnaryMinus_tree_sign_fold (uminus_over (Ast.new_Num "5")) eq_refl)
             (Ast.new_Num "5") (JS.mkNumber 5 0)); try reflexivity.
  - apply (proj1 (proj2 (UnaryMinus_tree_sign_fold (uminus_over (Ast.new_Num "0")) eq_refl))).
    right. right. exists (Ast.new_Num "0"). split; [reflexivity|]. right. left. reflexivity.
Defined.

(** A power token with a base and an exponent. *)
Definition power_of (data : option Parser.ApplyData) (base exponent : Ast.node) : Parser.Token :=
Parser.mkToken 0 Class.Power "^"
  (Ast.Node Ast.Bop
     (Ast.set_opString (Some "^")
        (Ast.set_precedence 4 (Ast.set_associativity "right" (Ast.plain (Ast.VStr "^")))))
     [base; exponent] None)
  true data 4 "binary" false false false [] [] false false false false.

Definition sin_name : Ast.node :=
Ast.Node Ast.FuncName (Ast.set_inverse "asin" (Ast.plain (Ast.VStr "sin"))) [] None.

Definition minus_one : Ast.node :=
Ast.Node Ast.Num (Ast.plain (Ast.VNum (JS.mkNumber (-1) 0))) [] None.

(** C9: a power token with function-application data whose first child is
    a [FuncName] node with an inverse name and whose second child renders as
    "-1" resolves to that [FuncName] node with the inverse name as its value:
    no power node is built.  Any other power token with an exponent resolves
    to its power node. *)
Theorem Power_tree_inverse (t : Parser.Token) :
  Parser.impl t = Class.IPower ->
  (forall d f i e,
      Parser.applyData t = Some d ->
      Parser.child 0 t = Some f ->
      Ast.subclass (Ast.class_of f) Ast.FuncName = true ->
      Ast.inverse_of f = Some i -> i <> "" ->
      Parser.child 1 t = Some e ->
      Ast.toString e = Some "-1" ->
      Parser.tree t = Ok (Ast.with_own (Ast.set_value (Ast.VStr i)) f))
  /\ (Parser.applyData t = None
      \/ Parser.child 0 t = None
      \/ (exists f, Parser.child 0 t = Some f
                    /\ (Ast.subclass (Ast.class_of f) Ast.FuncName = false
                        \/ Ast.inverse_of f = None \/ Ast.inverse_of f = Some ""))
      \/ (exists e s, Parser.child 1 t = Some e /\ Ast.toString e = Some s /\ s <> "-1") ->
      Parser.tree t = Ok (Parser.ast t))
  /\ (forall k, Parser.render (16 + k) "sin^-1 x" = Ok (Some "asin(x)"))
  /\ (forall k, Parser.render (16 + k) "sin^2 x" = Ok (Some "sin^2(x)")).
Proof.
  intro I. unfold Parser.tree. rewrite I. unfold Parser.Power_tree.
  split; [|split; [|split]].
  - intros d f i e D F N V NE E S. rewrite D, F. unfold Parser.isast. rewrite N, V, E, S.
    destruct (String.eqb i "") eqn:Z; [apply String.eqb_eq in Z; contradiction|].
    reflexivity.
  - intros [D | [F | [[f [F [N | [V | V]]]] | [e [s [E [S NE]]]]]]].
    + rewrite D. reflexivity.
    + rewrite F. destruct (Parser.applyData t); reflexivity.
    + rewrite F. unfold Parser.isast. rewrite N. destruct (Parser.applyData t); reflexivity.
    + rewrite F, V. rewrite andb_false_r. destruct (Parser.applyData t); reflexivity.
    + rewrite F, V. rewrite andb_false_r. destruct (Parser.applyData t); reflexivity.
    + rewrite E, S.
      destruct (String.eqb s "-1") eqn:Z; [apply String.eqb_eq in Z; contradiction|].
      destruct (Parser.applyData t); [|reflexivity].
      destruct (Parser.child 0 t) as [f|]; [|reflexivity].
      match goal with |- (if ?b then _ else _) = _ => destruct b end; reflexivity.
  - intro k. vm_compute. reflexivity.
  - intro k. vm_compute. reflexivity.
Qed.

Lemma Power_tree_inverse_witness :
  Parser.tree (power_of (Some (Parser.mkApplyData true true 0)) sin_name minus_one)
  = Ok (Ast.Node Ast.FuncName (Ast.set_inverse "asin" (Ast.plain (Ast.VStr "asin"))) [] None)
  /\ Parser.tree (power_of None sin_name minus_one)
     = Ok (Parser.ast (power_of None sin_name minus_one)).
Proof.
  split.
  - apply (proj1 (Power_tree_inverse
                    (power_of (Some (Parser.mkApplyData true true 0)) sin_name minus_one) eq_refl)
             (Parser.mkApplyData true true 0) sin_name "asin" minus_one);
      try reflexivity. discriminate.
  - apply (proj1 (proj2 (Power_tree_inverse (power_of None sin_name minus_one) eq_refl))).
    left. reflexivity.
Defined.

(** A relation token holding a chain. *)
Definition chain_of (symbols : list string) (operands : list Ast.node) : Parser.Token :=
Parser.mkToken 0 Class.WeakInequalities "<="
  (Ast.Node Ast.Rel
     (Ast.set_opString (Some (" " ++ Class.le_sign ++ " "))
        (Ast.set_precedence (3 # 4) (Ast.plain (Ast.VStr "<="))))
     operands None)
  false None (3 # 4) "<=" false false false symbols [] false false false false.

(** What [Relation.tree] builds: the tree of a relation token with more than
    two operands is a [MultiRel] node with the operands of the token, in
    order, and the list of relation symbols of the token, whatever its
    length; with at most two operands it is the relation node of the token.
    "x < y <= z" parses to one [MultiRel] node with the operands x, y, z and
    the symbols "<", "<=", and is rendered as "x < y <= z"; "x <= y" parses
    to a relation node with two children. *)
Theorem Relation_tree_chain (t : Parser.Token) :
  Parser.impl t = Class.IRelation ->
  Class.string_ "MultiRelAstClass" (Parser.cls t) = None ->
  (2 < List.length (Parser.children t) ->
   exists n, Parser.tree t = Ok n
             /\ Ast.class_of n = Ast.MultiRel
             /\ Ast.childNodes n = Parser.children t
             /\ Ast.relations (Ast.own_of n) = Some (Parser.list_ t))
  /\ (List.length (Parser.children t) <= 2 -> Parser.tree t = Ok (Parser.ast t))
  /\ (forall k,
        Parser.convert (12 + k) Parser.mainTokens "x < y <= z"
        = Ok (Some (Ast.new_MultiRel "<"
                      [Ast.new_Leaf Ast.Name "x"; Ast.new_Leaf Ast.Name "y";
                        Ast.new_Leaf Ast.Name "z"] ["<"; "<="] []))
        /\ Parser.render (12 + k) "x < y <= z" = Ok (Some "x < y <= z"))
  /\ (forall k,
        Parser.convert (12 + k) Parser.mainTokens "x <= y"
        = Ok (Some (Ast.Node Ast.Rel
                      (Ast.set_opString (Some (" " ++ Class.le_sign ++ " "))
                         (Ast.set_precedence (3 # 4) (Ast.plain (Ast.VStr "<="))))
                      [Ast.new_Leaf Ast.Name "x"; Ast.new_Leaf Ast.Name "y"] None))).
Proof.
  intros I A. unfold Parser.tree. rewrite I. unfold Parser.Relation_tree.
  split; [|split; [|split]].
  - intro L. destruct (Nat.leb (List.length (Parser.children t)) 2) eqn:E.
    + apply Nat.leb_le in E. lia.
    + unfold Parser.astClassFor.
      change ("MultiRel" ++ "AstClass") with "MultiRelAstClass". rewrite A. simpl. eexists. split; [reflexivity|].
      unfold Ast.new_MultiRel. destruct (Parser.opStrings t); repeat split; reflexivity.
  - intro L. apply Nat.leb_le in L. rewrite L. reflexivity.
  - intro k. split; vm_compute; reflexivity.
  - intro k. vm_compute. reflexivity.
Qed.

Lemma Relation_tree_chain_witness :
  (exists n,
      Parser.tree (chain_of ["<="; "<"] [Ast.new_Leaf Ast.Name "x"; Ast.new_Leaf Ast.Name "y";
                                          Ast.new_Leaf Ast.Name "z"]) = Ok n
      /\ Ast.class_of n = Ast.MultiRel
      /\ Ast.childNodes n = [Ast.new_Leaf Ast.Name "x"; Ast.new_Leaf Ast.Name "y";
                             Ast.new_Leaf Ast.Name "z"]
      /\ Ast.relations (Ast.own_of n) = Some ["<="; "<"])
  /\ Parser.tree (chain_of ["<="] [Ast.new_Leaf Ast.Name "x"; Ast.new_Leaf Ast.Name "y"])
     = Ok (Parser.ast (chain_of ["<="] [Ast.new_Leaf Ast.Name "x"; Ast.new_Leaf Ast.Name "y"])).
Proof.
  split.
  - apply (proj1 (Relation_tree_chain
                    (chain_of ["<="; "<"] [Ast.new_Leaf Ast.Name "x"; Ast.new_Leaf Ast.Name "y";
                                            Ast.new_Leaf Ast.Name "z"]) eq_refl eq_refl)).
    simpl. lia.
  - apply (proj1 (proj2 (Relation_tree_chain
                           (chain_of ["<="] [Ast.new_Leaf Ast.Name "x"; Ast.new_Leaf Ast.Name "y"])
                           eq_refl eq_refl))).
    simpl. lia.
Defined.

(** C6: the list of symbols is not parallel to the operands.  A relation
    that fuses with the chain below it is consumed when it arrives:
    [Relation.canCombine] adds its symbol to the list of the chain before any
    operand follows, and at the end [Operator.checkOperands] only asks the
    chain for two operands.  "x <= y <= z <=" parses, to a [MultiRel] node
    with the three operands x, y, z and three symbols, one more than there
    are adjacent pairs; "1 - 2 -", whose operators do not fuse, is refused
    for the operand that is missing. *)
Theorem Relation_chain_with_a_dangling_symbol :
  (forall k, exists n,
      Parser.convert (3 + k) Parser.mainTokens "x <= y <= z <=" = Ok (Some n)
      /\ Ast.class_of n = Ast.MultiRel
      /\ Ast.childNodes n = [Ast.new_Leaf Ast.Name "x"; Ast.new_Leaf Ast.Name "y";
                             Ast.new_Leaf Ast.Name "z"]
      /\ Ast.relations (Ast.own_of n) = Some ["<="; "<="; "<="])
  /\ (forall k,
        Parser.convert (2 + k) Parser.mainTokens "1 - 2 -"
        = Throw "Missing operand following -").
Proof.
  split; intro k.
  - eexists. split; [vm_compute; reflexivity|]. repeat split; reflexivity.
  - vm_compute. reflexivity.
Qed.

(** ** The stack *)

Open Scope list_scope.

Definition with_stack (l : list Parser.Token) (s : Parser.State) : Parser.State :=
Parser.mkState l (Parser.nextId s) (Parser.cells s).

(** The operators whose [append], [follows] and precedence test are the ones
    of [Operator] and [Token]. *)
Definition plainOperator (t : Parser.Token) : bool :=
match Parser.impl t with
| Class.IOperator | Class.IRelation | Class.IPower | Class.IUnaryMinus => true
| _ => false
end.

(** The receiver of [Token.append] after it has taken the tree [a] of an
    operand without function data. *)
Definition attach (receiver operand : Parser.Token) (a : Ast.node) : Parser.Token :=
let r := Parser.set_ast (Ast.append (Parser.ast receiver) a) receiver in
if negb (Parser.canApply operand)
then Parser.set_applyData None (Parser.set_canApply false r)
else r.

(** [prev] binds tighter than the incoming operator [this]. *)
Definition higher (this prev : Parser.Token) : Prop :=
(Parser.precedence this < Parser.precedence prev)%Q
\/ ((Parser.precedence prev == Parser.precedence this)%Q
    /\ Parser.associativity this = Some "left").

Lemma last_snoc {A} (l : list A) (x : A) : List.last (map Some (l ++ [x])) None = Some x.
Proof. rewrite map_app. simpl. apply last_last. Qed.

Lemma top_snoc l x i c :
  Parser.top (Parser.mkState (l ++ [x]) i c) = Ok (Some x, Parser.mkState (l ++ [x]) i c).
Proof. unfold Parser.top. simpl. now rewrite last_snoc. Qed.

Lemma pop_snoc l x i c :
  Parser.pop (Parser.mkState (l ++ [x]) i c) = Ok (Some x, Parser.mkState l i c).
Proof. unfold Parser.pop. simpl. now rewrite last_snoc, removelast_last. Qed.

Lemma replaceTop_snoc l x y i c :
  Parser.replaceTop y (Parser.mkState (l ++ [x]) i c) = Ok (tt, Parser.mkState (l ++ [y]) i c).
Proof. unfold Parser.replaceTop. simpl. now rewrite removelast_last. Qed.

Lemma rawPushAll_app (items : list Parser.Token) (s : Parser.State) :
  Parser.rawPushAll items s = Ok (tt, with_stack (Parser.stack s ++ items) s).
Proof.
  revert s. induction items as [|t items IH]; intro s; simpl.
  - rewrite app_nil_r. destruct s; reflexivity.
  - unfold Parser.bind, Parser.rawPush. rewrite IH. simpl.
    unfold with_stack. simpl. now rewrite <- app_assoc.
Qed.

Lemma is_left_iff (t : Parser.Token) :
  Parser.is_left t = true <-> Parser.associativity t = Some "left".
Proof.
  unfold Parser.is_left. destruct (Parser.associativity t) as [a|].
  - rewrite String.eqb_eq. split; [intros ->; reflexivity | intro H; now injection H].
  - split; discriminate.
Qed.

Lemma higher_iff (this prev : Parser.Token) :
  Parser.Operator_checkIsHigherPrecedence this prev = true <-> higher this prev.
Proof.
  unfold Parser.Operator_checkIsHigherPrecedence, higher.
  now rewrite orb_true_iff, andb_true_iff, Qlt_bool_iff, Qeq_bool_iff, is_left_iff.
Qed.


Lemma Token_append_attach (receiver operand : Parser.Token) (a : Ast.node) (s : Parser.State) :
  Parser.tree operand = Ok a ->
  Parser.applyData operand = None ->
  Parser.Token_append receiver operand s = Ok (attach receiver operand a, s).
Proof.
  intros T D. unfold Parser.Token_append, Parser.bind, Parser.lift. rewrite T.
  unfold Parser.saveFunction. rewrite D. unfold attach.
  destruct (Parser.canApply operand); reflexivity.
Qed.

Lemma plain_localAppend (receiver operand : Parser.Token) :
  plainOperator receiver = true ->
  Parser.localAppend receiver operand = Parser.Token_append receiver operand.
Proof.
  unfold plainOperator, Parser.localAppend.
  destruct (Parser.impl receiver); intro H; try discriminate; reflexivity.
Qed.



(** ** Operators: precedence climbing *)

Lemma attach_type receiver operand a :
  Parser.type (attach receiver operand a) = Parser.type receiver.
Proof. unfold attach. destruct (Parser.canApply operand); reflexivity. Qed.

Lemma attach_cls receiver operand a :
  Parser.cls (attach receiver operand a) = Parser.cls receiver.
Proof. unfold attach. destruct (Parser.canApply operand); reflexivity. Qed.

Lemma attach_ast receiver operand a :
  Parser.ast (attach receiver operand a) = Ast.append (Parser.ast receiver) a.
Proof. unfold attach. destruct (Parser.canApply operand); reflexivity. Qed.

Lemma attach_list receiver operand a :
  Parser.list_ (attach receiver operand a) = Parser.list_ receiver.
Proof. unfold attach. destruct (Parser.canApply operand); reflexivity. Qed.

Lemma attach_value receiver operand a :
  Parser.value (attach receiver operand a) = Parser.value receiver.
Proof. unfold attach. destruct (Parser.canApply operand); reflexivity. Qed.

(** The incoming operator with its first operand, left open. *)
Definition opened (this t : Parser.Token) (a : Ast.node) : Parser.Token :=
if Parser.isa "Apply" t
then Parser.set_applyData (Parser.applyData t) (attach this t a)
else attach this t a.

Lemma opened_ast this t a : Parser.ast (opened this t a) = Ast.append (Parser.ast this) a.
Proof. unfold opened. destruct (Parser.isa "Apply" t); simpl; apply attach_ast. Qed.

Lemma opened_not_right_unary this t a :
  Parser.type this <> "unary" ->
  (Parser.type this = "both" -> Parser.associativity this = Some "left") ->
  Parser.checkIsRightUnary (opened this t a) t = false.
Proof.
  intros U B. unfold Parser.checkIsRightUnary.
  assert (E : Parser.type (opened this t a) = Parser.type this).
  { unfold opened. destruct (Parser.isa "Apply" t); simpl; apply attach_type. }
  assert (R : Parser.is_right (opened this t a) = Parser.is_right this).
  { unfold Parser.is_right, Parser.associativity, opened.
    destruct (Parser.isa "Apply" t); simpl; now rewrite attach_cls. }
  rewrite E, R.
  destruct (String.eqb (Parser.type this) "unary") eqn:E1;
    [apply String.eqb_eq in E1; contradiction|].
  destruct (String.eqb (Parser.type this) "both") eqn:E2.
  - apply String.eqb_eq in E2. apply B in E2.
    unfold Parser.is_right. rewrite E2. reflexivity.
  - simpl. apply andb_false_r.
Qed.

Lemma not_left_unary this t s :
  Parser.type this <> "unary" ->
  Parser.isa "Operand" t = true ->
  Parser.checkIsLeftUnary this (Some t) s = Ok (false, s).
Proof.
  intros U O. unfold Parser.checkIsLeftUnary.
  destruct (String.eqb (Parser.type this) "unary") eqn:E1;
    [apply String.eqb_eq in E1; contradiction|].
  destruct (Parser.is_left this); [|reflexivity].
  destruct (String.eqb (Parser.type this) "both"); [|reflexivity].
  unfold Parser.bind, Parser.need, Parser.ret. rewrite O. reflexivity.
Qed.

(** [Operator.follows] over an operand, after [checkOperator]. *)
Lemma Operator_follows_operand push appendTop this t a s :
  plainOperator this = true ->
  Parser.type this <> "unary" ->
  (Parser.type this = "both" -> Parser.associativity this = Some "left") ->
  Parser.isa "Operand" t = true ->
  Parser.tree t = Ok a ->
  Parser.applyData t = None ->
  Parser.Operator_follows push appendTop this (Some t) s
  = match Parser.checkOperator push appendTop this t s with
    | Ok (Some _, s') => Ok ([], s')
    | Ok (None, s') => Ok ([opened this t a], s')
    | Throw m => Throw m
    | OutOfFuel => OutOfFuel
    | Unmodelled w => Unmodelled w
    end.
Proof.
  intros P U B O T D. unfold Parser.Operator_follows.
  unfold Parser.bind at 1. rewrite (not_left_unary this t s U O).
  unfold Parser.bind at 1. unfold Parser.need at 1. unfold Parser.ret at 1.
  rewrite O. cbn [negb].
  unfold Parser.bind at 1. unfold Parser.ret at 1.
  unfold Parser.bind at 1.
  destruct (Parser.checkOperator push appendTop this t s) as [[[l|] s']| | |]; try reflexivity.
  unfold Parser.bind at 1.
  rewrite (plain_localAppend this t P), (Token_append_attach this t a s' T D).
  fold (opened this t a).
  unfold Parser.bind, Parser.checkRightUnary.
  rewrite (opened_not_right_unary this t a U B). reflexivity.
Qed.




(** A token as its constructor makes it in a fresh state. *)
Definition token_of (c : Class.t) (v : string) : Parser.Token :=
match Parser.construct c (Parser.AStr v) Parser.AUndef Parser.AUndef Parser.initial with
| Ok (t, _) => t
| _ => Parser.mkToken 0 c v (Ast.new_Leaf Ast.Name v) false None 0 "" false false false
         [] [] false false false false
end.




(** ** Relations: fusing into a chain *)





(** ** Delimiters: closing a group *)

(** The message of [Delimiter.group] for a closer that the delimiter does not
    accept. *)
Definition delimiter_error (this item : Parser.Token) : string :=
if Parser.isa "Start" this then
  ("Missing open delimiter for '" ++ Parser.value item ++ "'")%string
else if Parser.isa "End" item then
  ("Missing close delimiter for '" ++ Parser.value this ++ "'")%string
else
  ("Mismatched delimiters: '" ++ Parser.value this ++ "' and '" ++ Parser.value item ++ "'")%string.

Definition isDelimiter (t : Parser.Token) : bool :=
match Parser.impl t with
| Class.IDelimiter | Class.IStackDelimiter => true
| _ => false
end.

Lemma Delimiter_group_rejects push this item s :
  Parser.isClosedBy this item = false ->
  Parser.Delimiter_group push this item s = Throw (delimiter_error this item).
Proof.
  intro H. unfold Parser.Delimiter_group, delimiter_error. rewrite H.
  destruct (Parser.isa "Start" this); [reflexivity|].
  destruct (Parser.isa "End" item); reflexivity.
Qed.

Ltac no_result fuel :=
  do 14 (destruct fuel as [|fuel]; [intros a H; vm_compute in H; discriminate|]);
  intros a H; vm_compute in H; discriminate.

(** C8: a close delimiter that is pushed asks the top of the stack to close
    against it, and again the top that is left as long as the answer is no.
    A delimiter on top that does not accept the closer ends the parse with an
    error: "Missing open delimiter" when it is the start marker, "Missing
    close delimiter" when the closer is the end marker, "Mismatched
    delimiters" otherwise; an empty stack is the error "Extra close
    delimiter".  "(x,y", ")" and "(x}" end with these errors, and for no
    amount of fuel is an AST returned. *)
Theorem Delimiter_close_errors n (item : Parser.Token) :
  isDelimiter item = true ->
  let e := Parser.engine (S n) in
  (Parser.isClose item = true ->
   forall t s, Parser.follows (Parser.push e) (Parser.appendTop e) (Parser.closeLoop e) item t s
               = Parser.closeLoop e item s)
  /\ (forall s, Parser.closeLoop (Parser.engine (S (S n))) item s
                = Parser.bind Parser.top (fun t =>
                    match t with
                    | Some t =>
                        Parser.bind (Parser.group (Parser.push e) (Parser.appendTop e) t item)
                          (fun closed => if closed then Parser.ret [] else Parser.closeLoop e item)
                    | None => Parser.error ("Extra close delimiter: " ++ Parser.value item)%string
                    end) s)
  /\ (forall this rest i c,
        isDelimiter this = true ->
        Parser.isClosedBy this item = false ->
        Parser.closeLoop e item (Parser.mkState (rest ++ [this]) i c)
        = Throw (delimiter_error this item)
        /\ (Parser.isa "Start" this = true ->
            delimiter_error this item
            = ("Missing open delimiter for '" ++ Parser.value item ++ "'")%string)
        /\ (Parser.isa "Start" this = false -> Parser.isa "End" item = true ->
            delimiter_error this item
            = ("Missing close delimiter for '" ++ Parser.value this ++ "'")%string)
        /\ (Parser.isa "Start" this = false -> Parser.isa "End" item = false ->
            delimiter_error this item
            = ("Mismatched delimiters: '" ++ Parser.value this ++ "' and '"
                 ++ Parser.value item ++ "'")%string))
  /\ (forall i c, Parser.closeLoop e item (Parser.mkState [] i c)
                  = Throw ("Extra close delimiter: " ++ Parser.value item)%string)
  /\ (forall k, Parser.convert (14 + k) Parser.mainTokens "(x,y"
                = Throw "Missing close delimiter for '('")
  /\ (forall k, Parser.convert (14 + k) Parser.mainTokens ")"
                = Throw "Missing open delimiter for ')'")
  /\ (forall k, Parser.convert (14 + k) Parser.mainTokens "(x}"
                = Throw "Mismatched delimiters: '(' and '}'")
  /\ (forall fuel a, Parser.convert fuel Parser.mainTokens "(x,y" <> Ok a)
  /\ (forall fuel a, Parser.convert fuel Parser.mainTokens ")" <> Ok a)
  /\ (forall fuel a, Parser.convert fuel Parser.mainTokens "(x}" <> Ok a).
Proof.
  intros Di e.
  repeat match goal with |- _ /\ _ => split end.
  - intros Cl t s. unfold Parser.follows, Parser.Delimiter_follows.
    unfold isDelimiter in Di. destruct (Parser.impl item); try discriminate;
      rewrite Cl; reflexivity.
  - intro s. reflexivity.
  - intros this rest i c Dl R. split; [|split; [|split]].
    + subst e. simpl. unfold Parser.closeLoop_step, Parser.bind. rewrite top_snoc.
      unfold Parser.group. unfold isDelimiter in Dl.
      destruct (Parser.impl this); try discriminate;
        rewrite (Delimiter_group_rejects _ this item _ R); reflexivity.
    + intro S. unfold delimiter_error. now rewrite S.
    + intros S E. unfold delimiter_error. now rewrite S, E.
    + intros S E. unfold delimiter_error. now rewrite S, E.
  - reflexivity.
  - intro k. vm_compute. reflexivity.
  - intro k. vm_compute. reflexivity.
  - intro k. vm_compute. reflexivity.
  - intro fuel. no_result fuel.
  - intro fuel. no_result fuel.
  - intro fuel. no_result fuel.
Qed.

(** The closing parenthesis of ")" against the start marker, and the end
    marker of "(" against the parenthesis. *)
Lemma Delimiter_close_errors_witness :
  Parser.closeLoop (Parser.engine 1) (token_of Class.Parens ")")
    (Parser.mkState ([] ++ [token_of Class.Start ""]) 0 [])
  = Throw "Missing open delimiter for ')'"
  /\ Parser.closeLoop (Parser.engine 1) (token_of Class.End_ "")
       (Parser.mkState ([token_of Class.Start ""] ++ [token_of Class.Parens "("]) 0 [])
     = Throw "Missing close delimiter for '('".
Proof.
  split.
  - apply (proj1 (proj1 (proj2 (proj2
             (Delimiter_close_errors 0 (token_of Class.Parens ")") eq_refl)))
             (token_of Class.Start "") [] 0 [] eq_refl eq_refl)).
  - apply (proj1 (proj1 (proj2 (proj2
             (Delimiter_close_errors 0 (token_of Class.End_ "") eq_refl)))
             (token_of Class.Parens "(") [token_of Class.Start ""] 0 [] eq_refl eq_refl)).
Defined.

(** ** [Stack.push] *)

Definition top_of (s : Parser.State) : option Parser.Token :=
List.last (map Some (Parser.stack s)) None.

(** The array pushes at the end of [Stack.push]: the items go, in order,
    onto the stack as the handlers left it. *)
Definition pushed (r : Result (list Parser.Token * Parser.State)) : Result (unit * Parser.State) :=
match r with
| Ok (items, s) => Ok (tt, with_stack (Parser.stack s ++ items) s)
| Throw m => Throw m
| OutOfFuel => OutOfFuel
| Unmodelled w => Unmodelled w
end.

(** The handlers that [Token] gives to every class that does not override
    them. *)
Definition default_followedBy (t : Parser.Token) : bool :=
match Parser.impl t with
| Class.IApplyPending | Class.ILookAhead | Class.IAngle => false
| _ => true
end.

Definition default_follows (t : Parser.Token) : bool :=
match Parser.impl t with
| Class.IToken | Class.ILookAhead | Class.IApplyPending => true
| _ => false
end.

(** The stack after the tokens of an input (after the start marker). *)
Definition after (fuel : nat) (input : string) : Result Parser.State :=
match Parser.bind
        (Parser.bind (Parser.Parser_createToken "Start") (Parser.push (Parser.engine fuel)))
        (fun _ =>
        Parser.pushTokens (S (String.length input)) (Parser.engine fuel)
          (Lexer.getPattern Parser.mainTokens) Parser.mainTokens input) Parser.initial with
| Ok (_, s) => Ok s
| Throw m => Throw m
| OutOfFuel => OutOfFuel
| Unmodelled w => Unmodelled w
end.

Lemma Stack_push_pushed followedBy follows token s :
  Parser.Stack_push followedBy follows token s
  = match top_of s with
    | Some t =>
        match followedBy t token s with
        | Ok ((Some items, _), s1) => pushed (Ok (items, s1))
        | Ok ((None, token'), s1) => pushed (follows token' (top_of s1) s1)
        | Throw m => Throw m
        | OutOfFuel => OutOfFuel
        | Unmodelled w => Unmodelled w
        end
    | None => pushed (follows token None s)
    end.
Proof.
  unfold Parser.Stack_push, Parser.bind, Parser.top, Parser.ret, top_of, pushed.
  destruct (List.last (map Some (Parser.stack s)) None) as [t|] eqn:E.
  - destruct (followedBy t token s) as [[[[items|] token'] s1]| | |]; try reflexivity.
    + simpl. apply rawPushAll_app.
    + simpl. destruct (follows token' (List.last (map Some (Parser.stack s1)) None) s1)
        as [[items s2]| | |]; try reflexivity.
      apply rawPushAll_app.
  - simpl. rewrite E. destruct (follows token None s) as [[items s2]| | |]; try reflexivity.
    apply rawPushAll_app.
Qed.

(** C1 (as amended): a push first asks the top of the stack, when there is
    one, with [followedBy]; a result that is not [null] is the complete list
    of the items that the push adds, and they go in order onto the stack as
    the handler left it.  The push itself removes nothing: the old top stays
    unless a handler popped it.  When [followedBy] returns [null], or the
    stack is empty, the new token is asked with [follows] about the top the
    stack then has, and its result is added in the same way.  By default
    [followedBy] returns [null] and [follows] returns the list of the new
    token alone, unchanged. *)
Theorem push_negotiation n (token : Parser.Token) (s : Parser.State) :
  let e := Parser.engine n in
  let follows := Parser.follows (Parser.push e) (Parser.appendTop e) (Parser.closeLoop e) in
  Parser.push (Parser.engine (S n)) token s
  = match top_of s with
    | Some t =>
        match Parser.followedBy (Parser.push e) t token s with
        | Ok ((Some items, _), s1) => Ok (tt, with_stack (Parser.stack s1 ++ items) s1)
        | Ok ((None, token'), s1) => pushed (follows token' (top_of s1) s1)
        | Throw m => Throw m
        | OutOfFuel => OutOfFuel
        | Unmodelled w => Unmodelled w
        end
    | None => pushed (follows token None s)
    end
  /\ (forall t, default_followedBy t = true ->
                Parser.followedBy (Parser.push e) t token s = Ok ((None, token), s))
  /\ (default_follows token = true ->
      forall t, follows token t s = Ok ([token], s))
  /\ (forall t, top_of s = Some t -> default_followedBy t = true -> default_follows token = true ->
                Parser.push (Parser.engine (S n)) token s
                = Ok (tt, with_stack (Parser.stack s ++ [token]) s)).
Proof.
  intros e follows.
  assert (P : Parser.push (Parser.engine (S n)) token s
              = Parser.Stack_push (Parser.followedBy (Parser.push e)) follows token s)
    by reflexivity.
  assert (F : forall t, default_followedBy t = true ->
                        Parser.followedBy (Parser.push e) t token s = Ok ((None, token), s)).
  { intros t D. unfold Parser.followedBy. unfold default_followedBy in D.
    destruct (Parser.impl t); try discriminate; reflexivity. }
  assert (G : default_follows token = true -> forall t, follows token t s = Ok ([token], s)).
  { intros D t. unfold follows, Parser.follows. unfold default_follows in D.
    destruct (Parser.impl token); try discriminate; reflexivity. }
  split; [|split; [|split]].
  - rewrite P, Stack_push_pushed. reflexivity.
  - exact F.
  - exact G.
  - intros t T Dt Df. rewrite P, Stack_push_pushed, T, (F t Dt), (G Df). reflexivity.
Qed.

(** A token of the base class pushed over the start marker. *)
Lemma push_negotiation_witness :
  Parser.push (Parser.engine 1)
    (Parser.mkToken 1 Class.Token "t" (Ast.new_AstNode Ast.AstNode "t" []) true None 0 ""
       false false false [] [] false false false false)
    (Parser.mkState [token_of Class.Start ""] 2 [])
  = Ok (tt, Parser.mkState
              [token_of Class.Start "";
               Parser.mkToken 1 Class.Token "t" (Ast.new_AstNode Ast.AstNode "t" []) true None 0 ""
                 false false false [] [] false false false false] 2 []).
Proof.
  apply (proj2 (proj2 (proj2
           (push_negotiation 0
              (Parser.mkToken 1 Class.Token "t" (Ast.new_AstNode Ast.AstNode "t" []) true None 0 ""
                 false false false [] [] false false false false)
              (Parser.mkState [token_of Class.Start ""] 2 []))))
           (token_of Class.Start "") eq_refl eq_refl eq_refl).
Defined.

(** C1 (as stated) fails: with the bar of "|" on top of the stack, the push of
    "x" gets the empty list from [followedBy]; nothing is pushed, and the bar
    is still on the stack (with "x" saved in it) though the list does not
    name it. *)
Lemma top_stays_without_being_listed :
  match after 20 "|" with
  | Ok s0 =>
      match Parser.construct Class.Identifier (Parser.AStr "x") Parser.AUndef Parser.AUndef s0 with
      | Ok (x, s0') =>
          match top_of s0' with
          | Some bar =>
              Parser.impl bar = Class.ILookAhead
              /\ Parser.value bar = "|"
              /\ exists s1,
                   Parser.followedBy (Parser.push (Parser.engine 9)) bar x s0' = Ok ((Some [], x), s1)
                   /\ Parser.push (Parser.engine 10) x s0' = Ok (tt, s1)
                   /\ map Parser.tid (Parser.stack s1) = map Parser.tid (Parser.stack s0')
                   /\ option_map Parser.tid (top_of s1) = Some (Parser.tid bar)
                   /\ option_map Parser.saved (top_of s1) = Some [x]
          | None => False
          end
      | _ => False
      end
  | _ => False
  end.
Proof.
  vm_compute. split; [reflexivity|]. split; [reflexivity|].
  eexists. repeat split; reflexivity.
Qed.

(** ** The pattern compiler *)

Lemma In_insert {A} (cmp : A -> A -> Z) (x y : A) (l : list A) :
  In y (Lexer.insert cmp x l) <-> y = x \/ In y l.
Proof.
  induction l as [|z l IH]; simpl.
  - intuition congruence.
  - destruct (Z.ltb (cmp x z) 0); simpl; [intuition congruence|].
    rewrite IH. intuition congruence.
Qed.

Lemma In_sort_from {A} (cmp : A -> A -> Z) (y : A) (l acc : list A) :
  In y (fold_left (fun acc x => Lexer.insert cmp x acc) l acc) <-> In y l \/ In y acc.
Proof.
  revert acc. induction l as [|x l IH]; intro acc; simpl.
  - tauto.
  - rewrite IH, In_insert. intuition congruence.
Qed.

Lemma In_sort {A} (cmp : A -> A -> Z) (y : A) (l : list A) :
  In y (Lexer.sort cmp l) <-> In y l.
Proof. unfold Lexer.sort. rewrite In_sort_from. simpl. tauto. Qed.

(** Longest first: every name is at least as long as the names after it. *)
Fixpoint descending (l : list string) : Prop :=
match l with
| [] => True
| x :: l' => (forall y, In y l' -> JS.length y <= JS.length x) /\ descending l'
end.

Lemma compareNames_negative (a b : string) :
  (Lexer.compareNames a b < 0)%Z -> JS.length b <= JS.length a.
Proof.
  unfold Lexer.compareNames.
  destruct (Nat.ltb (JS.length a) (JS.length b)) eqn:E; [intro H; discriminate H|].
  intros _. apply Nat.ltb_ge in E. exact E.
Qed.

Lemma compareNames_not_negative (a b : string) :
  ~ (Lexer.compareNames a b < 0)%Z -> JS.length a <= JS.length b.
Proof.
  unfold Lexer.compareNames.
  destruct (Nat.ltb (JS.length a) (JS.length b)) eqn:E.
  - intros _. apply Nat.ltb_lt in E. lia.
  - destruct (Nat.ltb (JS.length b) (JS.length a)) eqn:F.
    + intro H. exfalso. apply H. reflexivity.
    + intros _. apply Nat.ltb_ge in F. exact F.
Qed.

Lemma insert_descending (x : string) (l : list string) :
  descending l -> descending (Lexer.insert Lexer.compareNames x l).
Proof.
  induction l as [|z l IH]; simpl; intro D.
  - split; [intros y []|exact I].
  - destruct D as [Dz Dl].
    destruct (Z.ltb (Lexer.compareNames x z) 0) eqn:E; simpl.
    + apply Z.ltb_lt, compareNames_negative in E.
      split; [|split; assumption].
      intros y [<- | Y]; [exact E | specialize (Dz y Y); lia].
    + apply Z.ltb_ge in E.
      assert (L : JS.length x <= JS.length z)
        by (apply compareNames_not_negative; lia).
      split; [|apply IH; exact Dl].
      intros y Y. apply In_insert in Y. destruct Y as [-> | Y]; [exact L | apply Dz; exact Y].
Qed.

Lemma sort_descending (l : list string) : descending (Lexer.sort Lexer.compareNames l).
Proof.
  unfold Lexer.sort.
  assert (G : forall acc, descending acc ->
                          descending (fold_left (fun acc x => Lexer.insert Lexer.compareNames x acc) l acc)).
  { induction l as [|x l IH]; intros acc D; simpl; [exact D|].
    apply IH, insert_descending, D. }
  apply G. exact I.
Qed.

Lemma matchNames_first (l : list string) (input m : string) :
  descending l ->
  Lexer.matchNames l input = Some m ->
  In m l /\ String.prefix m input = true
  /\ forall n, In n l -> String.prefix n input = true -> JS.length n <= JS.length m.
Proof.
  induction l as [|x l IH]; simpl; intros D M; [discriminate|].
  destruct D as [Dx Dl]. destruct (String.prefix x input) eqn:P.
  - injection M as <-. split; [left; reflexivity|]. split; [exact P|].
    intros n [<- | N] _; [lia | apply Dx; exact N].
  - destruct (IH Dl M) as [Im [Pm L]]. split; [right; exact Im|]. split; [exact Pm|].
    intros n [<- | N] Pn; [congruence | apply L; assumption].
Qed.

(** Within one priority the longest literal name that matches is the match:
    when a name of more than one character matches at the position, the
    term matched is a registered name and no registered name of more than
    one character that matches there is longer. *)
Lemma longest_name_matches (NAMES : list string) (input n : string) :
  In n NAMES -> 1 < JS.length n -> String.prefix n input = true ->
  exists m, Lexer.matchNamePattern (Lexer.getNamePattern NAMES) input = Some m
            /\ In m NAMES /\ String.prefix m input = true
            /\ JS.length n <= JS.length m.
Proof.
  intros N L P. unfold Lexer.matchNamePattern, Lexer.getNamePattern. simpl.
  set (names := Lexer.sort Lexer.compareNames (filter (fun x => Nat.ltb 1 (JS.length x)) NAMES)).
  assert (Nn : In n names).
  { apply In_sort, filter_In. split; [exact N | apply Nat.ltb_lt; exact L]. }
  assert (M : exists m, Lexer.matchNames names input = Some m).
  { clear - Nn P. induction names as [|x l IH]; [destruct Nn|]. simpl.
    destruct (String.prefix x input) eqn:Px; [eexists; reflexivity|].
    destruct Nn as [-> | Nn]; [congruence | apply IH; exact Nn]. }
  destruct M as [m M].
  destruct (matchNames_first names input m (sort_descending _) M) as [Im [Pm Lm]].
  exists m. rewrite M.
  assert (R : In m NAMES) by (apply In_sort, filter_In in Im; tauto).
  destruct names; [destruct Nn|].
  repeat split; try assumption. apply Lm; assumption.
Qed.

(** A sort that only looks at the elements through the comparison function
    commutes with a renaming of the elements. *)
Definition natural (srt : forall A, (A -> A -> Z) -> list A -> list A) : Prop :=
forall A B (f : A -> B) (cmpA : A -> A -> Z) (cmpB : B -> B -> Z) (l : list A),
  (forall x y, cmpB (f x) (f y) = cmpA x y) ->
  srt B cmpB (map f l) = map f (srt A cmpA l).

Lemma insert_natural A B (f : A -> B) (cmpA : A -> A -> Z) (cmpB : B -> B -> Z) x l :
  (forall x y, cmpB (f x) (f y) = cmpA x y) ->
  Lexer.insert cmpB (f x) (map f l) = map f (Lexer.insert cmpA x l).
Proof.
  intro H. induction l as [|y l IH]; simpl; [reflexivity|].
  rewrite H. destruct (Z.ltb (cmpA x y) 0); simpl; [reflexivity | now rewrite IH].
Qed.

Lemma sort_natural : natural (@Lexer.sort).
Proof.
  intros A B f cmpA cmpB l H. unfold Lexer.sort.
  change (@nil B) with (map f (@nil A)). generalize (@nil A) as acc.
  induction l as [|x l IH]; intro acc; simpl; [reflexivity|].
  rewrite (insert_natural A B f cmpA cmpB x acc H). apply IH.
Qed.

(** The comparison function of [getNamePattern] answers "before" for two
    different names of the same length in either order, so no sort that goes
    by its answers puts both ["aa"; "ab"] and ["ab"; "aa"] in lexicographic
    order. *)
Lemma no_sort_orders_by_name (srt : forall A, (A -> A -> Z) -> list A -> list A) :
  natural srt ->
  srt string Lexer.compareNames ["aa"; "ab"] <> ["aa"; "ab"]
  \/ srt string Lexer.compareNames ["ab"; "aa"] <> ["aa"; "ab"].
Proof.
  intro N.
  pose (cmp := fun x y : bool => if Bool.eqb x y then 0%Z else (-1)%Z).
  pose (f1 := fun b : bool => if b then "aa" else "ab").
  pose (f2 := fun b : bool => if b then "ab" else "aa").
  assert (H1 : srt string Lexer.compareNames ["aa"; "ab"] = map f1 (srt bool cmp [true; false])).
  { apply (N bool string f1 cmp Lexer.compareNames [true; false]).
    intros [] []; reflexivity. }
  assert (H2 : srt string Lexer.compareNames ["ab"; "aa"] = map f2 (srt bool cmp [true; false])).
  { apply (N bool string f2 cmp Lexer.compareNames [true; false]).
    intros [] []; reflexivity. }
  rewrite H1, H2.
  destruct (srt bool cmp [true; false]) as [|[] [|[] [|? ?]]]; simpl;
    first [left; discriminate | right; discriminate].
Qed.

Lemma no_sort_orders_by_name_witness :
  Lexer.sort Lexer.compareNames ["aa"; "ab"] <> ["aa"; "ab"]
  \/ Lexer.sort Lexer.compareNames ["ab"; "aa"] <> ["aa"; "ab"].
Proof. apply (no_sort_orders_by_name (@Lexer.sort) sort_natural). Defined.

(** C7 at the failing input: the names "aa" and "ab", registered in this
    order at one priority, come out of [getNamePattern] as "ab", "aa": the
    comparison function returns -1 for the pair in both orders.  (Names of
    different lengths are ordered longest first, and the two patterns of the
    parser of [main.ts] come after its names of the same priority.) *)
Theorem names_of_equal_length_not_lexicographic :
  Lexer.compareNames "aa" "ab" = (-1)%Z
  /\ Lexer.compareNames "ab" "aa" = (-1)%Z
  /\ String.ltb "aa" "ab" = true
  /\ Lexer.names (Lexer.getNamePattern ["aa"; "ab"]) = ["ab"; "aa"]
  /\ Lexer.names (Lexer.getNamePattern ["abc"; "aa"; "ab"; "a"]) = ["abc"; "ab"; "aa"]
  /\ map (fun p => match p with
                   | Lexer.NamePart q _ _ => (q, "names")
                   | Lexer.PatternPart q id _ => (q, id)
                   end) (Lexer.getPattern Parser.mainTokens)
     = [(10%Q, "names"); (10%Q, "Identifier"); (10%Q, "Numeric"); (15%Q, "names")].
Proof. vm_compute. repeat split; reflexivity. Qed.

(** * Further properties of the code *)

From Stdlib Require Import Sorted Permutation.

(** ** The pattern compiler: order of the alternatives *)

Lemma sort_permutation {A} (cmp : A -> A -> Z) (l : list A) :
  Permutation (Lexer.sort cmp l) l.
Proof.
  assert (I : forall x acc, Permutation (Lexer.insert cmp x acc) (x :: acc)).
  { intros x acc. induction acc as [|y acc IH]; simpl; [reflexivity|].
    destruct (Z.ltb (cmp x y) 0); [reflexivity|].
    rewrite IH. apply perm_swap. }
  unfold Lexer.sort.
  assert (G : forall acc,
             Permutation (fold_left (fun acc x => Lexer.insert cmp x acc) l acc) (l ++ acc)).
  { induction l as [|x l IH]; intro acc; simpl; [reflexivity|].
    rewrite IH, I. symmetry. apply Permutation_middle. }
  rewrite G, app_nil_r. reflexivity.
Qed.

(** The priority of an alternative, and whether it is the alternative of the
    literal names. *)
Definition part_priority (p : Lexer.Part) : Q :=
match p with
| Lexer.NamePart q _ _ => q
| Lexer.PatternPart q _ _ => q
end.

Definition is_names (p : Lexer.Part) : bool :=
match p with
| Lexer.NamePart _ _ _ => true
| Lexer.PatternPart _ _ _ => false
end.

(** [a] may stand before [b] in the compiled pattern. *)
Definition precedes (a b : Lexer.Part) : Prop :=
(part_priority a <= part_priority b)%Q
/\ (is_names b = true -> (part_priority a < part_priority b)%Q).

Lemma comparePriorities_negative (a b : Q) :
  (Lexer.comparePriorities a b <? 0)%Z = Qle_bool a b.
Proof. unfold Lexer.comparePriorities. destruct (Qle_bool a b); reflexivity. Qed.

Lemma insert_ascending (x : Q) (l : list Q) :
  StronglySorted Qlt l -> (forall y, In y l -> ~ (x == y)%Q) ->
  StronglySorted Qlt (Lexer.insert Lexer.comparePriorities x l).
Proof.
  induction 1 as [|y l Sl IH Hy]; intro D; simpl.
  - repeat constructor.
  - rewrite comparePriorities_negative.
    assert (Dy : ~ (x == y)%Q) by (apply D; left; reflexivity).
    destruct (Qle_bool x y) eqn:E.
    + apply Qle_bool_iff in E.
      assert (L : (x < y)%Q) by (apply Qle_lteq in E; tauto).
      constructor; [constructor; assumption|].
      constructor; [exact L|].
      rewrite Forall_forall in *. intros z Z. apply Qlt_trans with y; auto.
    + assert (L : (y < x)%Q).
      { apply Qnot_le_lt. intro C. apply Qle_bool_iff in C. congruence. }
      constructor.
      * apply IH. intros z Z. apply D. right. exact Z.
      * rewrite Forall_forall in *. intros z Z. apply In_insert in Z.
        destruct Z as [-> | Z]; [exact L | apply Hy; exact Z].
Qed.

Lemma sort_ascending (l : list Q) :
  ForallOrdPairs (fun a b => ~ (a == b)%Q) l ->
  StronglySorted Qlt (Lexer.sort Lexer.comparePriorities l).
Proof.
  unfold Lexer.sort.
  assert (G : forall acc,
             StronglySorted Qlt acc ->
             ForallOrdPairs (fun a b => ~ (a == b)%Q) l ->
             (forall x y, In x l -> In y acc -> ~ (x == y)%Q) ->
             StronglySorted Qlt
               (fold_left (fun acc x => Lexer.insert Lexer.comparePriorities x acc) l acc)).
  { induction l as [|x l IH]; intros acc S D X; simpl; [exact S|].
    inversion D as [|? ? Dx Dl]; subst.
    apply IH.
    - apply insert_ascending; [exact S|]. intros y Y. apply X; [left; reflexivity | exact Y].
    - exact Dl.
    - intros x' y X' Y. apply In_insert in Y. destruct Y as [-> | Y].
      + rewrite Forall_forall in Dx. intro C. apply (Dx x' X'). symmetry. exact C.
      + apply X; [right; exact X' | exact Y]. }
  intro D. apply G; [constructor | exact D | intros x y _ []].
Qed.

Lemma dedup_distinct (l seen : list Q) :
  ForallOrdPairs (fun a b => ~ (a == b)%Q) (Lexer.dedup l seen)
  /\ forall x s, In x (Lexer.dedup l seen) -> In s seen -> ~ (x == s)%Q.
Proof.
  revert seen. induction l as [|q l IH]; intro seen; simpl.
  - split; [constructor | intros x s []].
  - destruct (existsb (Qeq_bool q) seen) eqn:E; [apply IH|].
    destruct (IH (q :: seen)) as [D N]. split.
    + constructor; [|exact D]. rewrite Forall_forall. intros x X C.
      apply (N x q X); [left; reflexivity | symmetry; exact C].
    + intros x s [<- | X] S.
      * intro C. apply Qeq_bool_iff in C.
        assert (T : existsb (Qeq_bool q) seen = true)
          by (apply existsb_exists; exists s; split; assumption).
        congruence.
      * apply (N x s X). right. exact S.
Qed.

Lemma StronglySorted_app {A} (R : A -> A -> Prop) (l1 l2 : list A) :
  StronglySorted R l1 -> StronglySorted R l2 ->
  (forall a b, In a l1 -> In b l2 -> R a b) ->
  StronglySorted R (l1 ++ l2).
Proof.
  induction 1 as [|x l1 S1 IH Hx]; intros S2 X; simpl; [exact S2|].
  constructor.
  - apply IH; [exact S2|]. intros a b A' B. apply X; [right; exact A' | exact B].
  - apply Forall_app. split; [exact Hx|].
    rewrite Forall_forall. intros b B. apply X; [left; reflexivity | exact B].
Qed.

(** The alternatives that [getPatternParts] makes for one priority. *)
Definition parts_at (NAMES : Lexer.NameMap) (NMAP : Lexer.NameMapMap)
  (PATTERNS : Lexer.PatternMap) (i : Q) : list Lexer.Part :=
match Lexer.lookup Qeq_bool i NAMES with
| Some l => [Lexer.NamePart i (Lexer.getNamePattern l)
               (match Lexer.lookup Qeq_bool i NMAP with Some m => m | None => [] end)]
| None => []
end
++
match Lexer.lookup Qeq_bool i PATTERNS with
| Some ps => map (fun ip => Lexer.PatternPart i (fst ip) (snd ip)) ps
| None => []
end.

Lemma parts_at_priority NAMES NMAP PATTERNS i p :
  In p (parts_at NAMES NMAP PATTERNS i) -> part_priority p = i.
Proof.
  unfold parts_at. intro H. apply in_app_or in H. destruct H as [H | H].
  - destruct (Lexer.lookup Qeq_bool i NAMES); [|destruct H].
    destruct H as [<- | []]. reflexivity.
  - destruct (Lexer.lookup Qeq_bool i PATTERNS); [|destruct H].
    apply in_map_iff in H. destruct H as [ip [<- _]]. reflexivity.
Qed.

Lemma parts_at_sorted NAMES NMAP PATTERNS i :
  StronglySorted precedes (parts_at NAMES NMAP PATTERNS i).
Proof.
  assert (P : forall ps : list (string * string),
             StronglySorted precedes (map (fun ip => Lexer.PatternPart i (fst ip) (snd ip)) ps)).
  { induction ps as [|ip ps IH]; simpl; constructor; [exact IH|].
    rewrite Forall_forall. intros b B. apply in_map_iff in B. destruct B as [x [<- _]].
    split; simpl; [apply Qle_refl | discriminate]. }
  unfold parts_at. apply StronglySorted_app.
  - destruct (Lexer.lookup Qeq_bool i NAMES); repeat constructor.
  - destruct (Lexer.lookup Qeq_bool i PATTERNS); [apply P | constructor].
  - intros a b A' B.
    destruct (Lexer.lookup Qeq_bool i NAMES); [|destruct A'].
    destruct A' as [<- | []].
    destruct (Lexer.lookup Qeq_bool i PATTERNS); [|destruct B].
    apply in_map_iff in B. destruct B as [x [<- _]].
    split; simpl; [apply Qle_refl | discriminate].
Qed.

Lemma flat_map_sorted NAMES NMAP PATTERNS (keys : list Q) :
  StronglySorted Qlt keys ->
  StronglySorted precedes (flat_map (parts_at NAMES NMAP PATTERNS) keys).
Proof.
  induction 1 as [|i keys S IH Hi]; simpl; [constructor|].
  apply StronglySorted_app; [apply parts_at_sorted | exact IH |].
  intros a b A' B. apply in_flat_map in B. destruct B as [k [K B]].
  apply parts_at_priority in A'. apply parts_at_priority in B.
  rewrite Forall_forall in Hi. specialize (Hi k K).
  unfold precedes. rewrite A', B. split; [apply Qlt_le_weak; exact Hi | intros _; exact Hi].
Qed.

(** X1: in the pattern that [getPatternParts] compiles, an alternative never
    stands before one of a lower priority number, and the alternative of the
    literal names of a priority stands before every alternative of that
    priority: whatever stands before it has a strictly lower priority
    number.  So each priority has at most one alternative of names, and the
    raw patterns of the priority follow it. *)
Theorem getPatternParts_order (NAMES : Lexer.NameMap) (NMAP : Lexer.NameMapMap)
  (PATTERNS : Lexer.PatternMap) :
  StronglySorted precedes (Lexer.getPatternParts NAMES NMAP PATTERNS).
Proof.
  unfold Lexer.getPatternParts.
  change (StronglySorted precedes
            (flat_map (parts_at NAMES NMAP PATTERNS)
               (Lexer.sort Lexer.comparePriorities
                  (Lexer.dedup (map fst NAMES ++ map fst PATTERNS) [])))).
  apply flat_map_sorted, sort_ascending, dedup_distinct.
Qed.

(** X2: [getNamePattern] keeps every name of more than one character exactly
    once and puts a longer name before a shorter one; the names of one
    character form the character class in the order of their registration. *)
Theorem getNamePattern_longest_first (NAMES : list string) :
  descending (Lexer.names (Lexer.getNamePattern NAMES))
  /\ Permutation (Lexer.names (Lexer.getNamePattern NAMES))
       (filter (fun x => Nat.ltb 1 (JS.length x)) NAMES)
  /\ Lexer.chars (Lexer.getNamePattern NAMES)
     = filter (fun x => Nat.eqb (JS.length x) 1) NAMES.
Proof.
  split; [apply sort_descending|]. split; [apply sort_permutation | reflexivity].
Qed.

(** X3: where a registered name of more than one character matches, the
    alternative of the names matches a registered name of more than one
    character that no registered name matching there exceeds in length, the
    names of one character included. *)
Theorem longest_registered_name_wins (NAMES : list string) (input n : string) :
  In n NAMES -> 1 < JS.length n -> String.prefix n input = true ->
  exists m, Lexer.matchNamePattern (Lexer.getNamePattern NAMES) input = Some m
            /\ In m NAMES /\ String.prefix m input = true /\ 1 < JS.length m
            /\ forall n', In n' NAMES -> String.prefix n' input = true ->
                          JS.length n' <= JS.length m.
Proof.
  intros N L P.
  destruct (longest_name_matches NAMES input n N L P) as [m [M [Im [Pm Lm]]]].
  exists m. repeat split; try assumption; [lia|].
  intros n' N' P'. destruct (Nat.ltb 1 (JS.length n')) eqn:E.
  - apply Nat.ltb_lt in E.
    destruct (longest_name_matches NAMES input n' N' E P') as [m' [M' [_ [_ Lm']]]].
    rewrite M in M'. injection M' as <-. exact Lm'.
  - apply Nat.ltb_ge in E. lia.
Qed.

Lemma longest_registered_name_wins_witness :
  exists m, Lexer.matchNamePattern (Lexer.getNamePattern ["a"; "as"; "asin"; "asinh"]) "asinh x"
            = Some m
            /\ In m ["a"; "as"; "asin"; "asinh"] /\ String.prefix m "asinh x" = true
            /\ 1 < JS.length m
            /\ forall n', In n' ["a"; "as"; "asin"; "asinh"] -> String.prefix n' "asinh x" = true ->
                          JS.length n' <= JS.length m.
Proof.
  apply (longest_registered_name_wins ["a"; "as"; "asin"; "asinh"] "asinh x" "as");
    [simpl; tauto | vm_compute; lia | reflexivity].
Defined.

(** ** The matcher: what a match consumes *)

Lemma prefix_drop (a s : string) :
  String.prefix a s = true -> (a ++ Lexer.drop (String.length a) s)%string = s.
Proof.
  revert s. induction a as [|c a IH]; intros s H; [destruct s; reflexivity|].
  destruct s as [|d s]; [discriminate|]. simpl in *.
  destruct (ascii_dec c d) as [->|]; [|discriminate].
  rewrite (IH s H). reflexivity.
Qed.

Lemma prefix_append (a b : string) : String.prefix a (a ++ b)%string = true.
Proof.
  induction a as [|c a IH]; [destruct b; reflexivity|]. simpl.
  destruct (ascii_dec c c); [exact IH | congruence].
Qed.

Lemma take_continuation_append (s a b : string) :
  Lexer.take_continuation s = (a, b) -> s = (a ++ b)%string.
Proof.
  revert a b. induction s as [|c s IH]; simpl; intros a b H.
  - injection H as <- <-. reflexivity.
  - destruct (Lexer.continuation c).
    + destruct (Lexer.take_continuation s) as [a' b'].
      injection H as <- <-. simpl. rewrite (IH a' b' eq_refl). reflexivity.
    + injection H as <- <-. reflexivity.
Qed.

Lemma uncons_prefix (s c rest : string) :
  Lexer.uncons s = Some (c, rest) -> String.prefix c s = true.
Proof.
  destruct s as [|x s]; simpl; [discriminate|].
  destruct (Lexer.take_continuation s) as [a b] eqn:E. intro H. injection H as <- <-.
  rewrite (take_continuation_append s a b E).
  apply (prefix_append (String x a) b).
Qed.

Lemma matchClass_unfold (chars : list string) (input : string) :
  Lexer.matchClass chars input
  = match chars with
    | [] => None
    | k :: rest =>
        match Lexer.uncons input with
        | Some (c, _) =>
            if String.eqb k "^"
            then (if Lexer.mem c rest then None else Some c)
            else (if Lexer.mem c chars then Some c else None)
        | None => None
        end
    end.
Proof.
  destruct chars as [|k rest]; [reflexivity|].
  unfold Lexer.matchClass.
  destruct (Lexer.uncons input) as [[c r]|];
    destruct k as [|[[] [] [] [] [] [] [] []] [|? ?]]; reflexivity.
Qed.

Lemma matchClass_prefix (chars : list string) (input c : string) :
  Lexer.matchClass chars input = Some c -> String.prefix c input = true.
Proof.
  rewrite matchClass_unfold. destruct chars as [|k rest]; [discriminate|].
  destruct (Lexer.uncons input) as [[c' r]|] eqn:U; [|discriminate].
  intro H. assert (c' = c).
  { destruct (String.eqb k "^"); destruct (Lexer.mem c' _); congruence. }
  subst c'. apply (uncons_prefix input c r U).
Qed.

Lemma matchNames_prefix (l : list string) (input m : string) :
  Lexer.matchNames l input = Some m -> In m l /\ String.prefix m input = true.
Proof.
  induction l as [|x l IH]; simpl; [discriminate|].
  destruct (String.prefix x input) eqn:P; intro H.
  - injection H as <-. split; [left; reflexivity | exact P].
  - destruct (IH H). split; [right|]; assumption.
Qed.

Lemma matchNamePattern_prefix (p : Lexer.NamePattern) (input m : string) :
  Lexer.matchNamePattern p input = Some m -> String.prefix m input = true.
Proof.
  unfold Lexer.matchNamePattern. intro H.
  assert (G : match Lexer.matchNames (Lexer.names p) input with
              | Some n => Some n
              | None => Lexer.matchClass (Lexer.chars p) input
              end = Some m -> String.prefix m input = true).
  { destruct (Lexer.matchNames (Lexer.names p) input) as [n|] eqn:M.
    - intro E. injection E as <-. apply (matchNames_prefix _ _ _ M).
    - apply matchClass_prefix. }
  destruct (Lexer.names p); [destruct (Lexer.chars p)|]; try (apply G; exact H).
  injection H as <-. destruct input; reflexivity.
Qed.

Lemma takeDigits_append (s d rest : string) :
  Lexer.takeDigits s = (d, rest) -> s = (d ++ rest)%string.
Proof.
  revert d rest. induction s as [|c s IH]; simpl; intros d rest H.
  - injection H as <- <-. reflexivity.
  - destruct (Lexer.isDigit c).
    + destruct (Lexer.takeDigits s) as [a b].
      injection H as <- <-. simpl. rewrite (IH a b eq_refl). reflexivity.
    + injection H as <- <-. reflexivity.
Qed.

Lemma append_assoc (a b c : string) : ((a ++ b) ++ c)%string = (a ++ (b ++ c))%string.
Proof. induction a as [|x a IH]; simpl; [reflexivity | now rewrite IH]. Qed.

Lemma matchPattern_number (input : string) :
  Lexer.matchPattern "[0-9]+(?:\.[0-9]*)?|\.[0-9]+" input
  = let '(d, rest) := Lexer.takeDigits input in
    match rest with
    | String x rest' =>
        if Ascii.eqb x "."
        then match d with
             | String _ _ => Ok (Some (d ++ "." ++ fst (Lexer.takeDigits rest'))%string)
             | EmptyString =>
                 match fst (Lexer.takeDigits rest') with
                 | EmptyString => Ok None
                 | f => Ok (Some ("." ++ f)%string)
                 end
             end
        else match d with String _ _ => Ok (Some d) | EmptyString => Ok None end
    | EmptyString => match d with String _ _ => Ok (Some d) | EmptyString => Ok None end
    end.
Proof.
  unfold Lexer.matchPattern. simpl String.eqb. cbv iota.
  destruct (Lexer.takeDigits input) as [d rest].
  destruct d, rest as [|[[] [] [] [] [] [] [] []] ?]; reflexivity.
Qed.

Lemma matchPattern_prefix (pattern input m : string) :
  Lexer.matchPattern pattern input = Ok (Some m) ->
  String.prefix m input = true /\ m <> "".
Proof.
  intro H.
  destruct (String.eqb_spec pattern "[a-zA-Z]") as [->|N1].
  - unfold Lexer.matchPattern in H. simpl String.eqb in H. cbv iota in H.
    destruct input as [|c s]; [discriminate|].
    destruct (Lexer.isLetter c); [|discriminate].
    injection H as <-. split; [|discriminate].
    apply (prefix_append (String c "") s).
  - destruct (String.eqb_spec pattern "[0-9]+(?:\.[0-9]*)?|\.[0-9]+") as [->|N2].
    + rewrite matchPattern_number in H.
      destruct (Lexer.takeDigits input) as [d rest] eqn:T.
      apply takeDigits_append in T. subst input.
      destruct rest as [|x rest'].
      * destruct d; [discriminate|]. injection H as <-.
        split; [apply prefix_append | discriminate].
      * destruct (Ascii.eqb x ".") eqn:X.
        -- apply Ascii.eqb_eq in X. subst x.
           destruct (Lexer.takeDigits rest') as [f r] eqn:F. simpl in H.
           apply takeDigits_append in F. subst rest'.
           destruct d as [|c d].
           ++ destruct f; [discriminate|]. injection H as <-. split; [|discriminate].
              apply (prefix_append (String "." (String a f)) r).
           ++ injection H as <-. split; [|discriminate].
              change (String c d ++ String "." (f ++ r))%string
                with (String c d ++ ("." ++ (f ++ r)))%string.
              rewrite <- (append_assoc "." f r), <- append_assoc.
              apply prefix_append.
        -- destruct d; [discriminate|]. injection H as <-.
           split; [apply prefix_append | discriminate].
    + unfold Lexer.matchPattern in H.
      apply String.eqb_neq in N1, N2. rewrite N1, N2 in H. discriminate.
Qed.

Lemma exec_prefix (parts : list Lexer.Part) (input term : string) (id : option string) :
  Lexer.exec parts input = Ok (Some (id, term)) -> String.prefix term input = true.
Proof.
  induction parts as [|p parts IH]; simpl; [discriminate|].
  destruct p as [q np nmap | q i pattern].
  - destruct (Lexer.matchNamePattern np input) as [m|] eqn:M; [|exact IH].
    intro H. injection H as _ <-. apply (matchNamePattern_prefix _ _ _ M).
  - destruct (Lexer.matchPattern pattern input) as [[m|]| | |] eqn:M; simpl; try discriminate.
    + intro H. injection H as _ <-. apply (matchPattern_prefix _ _ _ M).
    + exact IH.
Qed.

Lemma skipSpaces_length (s : string) :
  String.length (Lexer.skipSpaces s) <= String.length s.
Proof.
  induction s as [|c s IH]; simpl; [lia|].
  destruct c as [[] [] [] [] [] [] [] []]; simpl; lia.
Qed.

Lemma length_drop (a s : string) :
  String.prefix a s = true ->
  String.length (Lexer.drop (String.length a) s) + String.length a = String.length s.
Proof.
  intro P. rewrite <- (prefix_drop a s P) at 2. rewrite length_append. lia.
Qed.

(** ** Inversion of the monad *)

Lemma bind_Ok {A B} (m : Parser.M A) (k : A -> Parser.M B) s b s' :
  Parser.bind m k s = Ok (b, s') ->
  exists a s1, m s = Ok (a, s1) /\ k a s1 = Ok (b, s').
Proof.
  unfold Parser.bind. destruct (m s) as [[a s1]| | |]; try discriminate.
  intro H. exists a, s1. split; [reflexivity | exact H].
Qed.

Lemma ret_Ok {A} (a b : A) s s' : Parser.ret a s = Ok (b, s') -> b = a /\ s' = s.
Proof. unfold Parser.ret. intro H. injection H as <- <-. split; reflexivity. Qed.

Lemma lift_Ok {A} (r : Result A) (a : A) s s' :
  Parser.lift r s = Ok (a, s') -> r = Ok a /\ s' = s.
Proof.
  unfold Parser.lift. destruct r; try discriminate.
  intro H. injection H as <- <-. split; reflexivity.
Qed.

Lemma need_Ok {A} (o : option A) (a : A) s s' :
  Parser.need o s = Ok (a, s') -> o = Some a /\ s' = s.
Proof.
  unfold Parser.need. destruct o; [|discriminate].
  intro H. apply ret_Ok in H. destruct H as [-> ->]. split; reflexivity.
Qed.

Lemma fresh_Ok (n : nat) s s' :
  Parser.fresh s = Ok (n, s') ->
  n = Parser.nextId s
  /\ s' = Parser.mkState (Parser.stack s) (S (Parser.nextId s)) (Parser.cells s).
Proof. unfold Parser.fresh. intro H. injection H as <- <-. split; reflexivity. Qed.

Ltac monad_inversion H :=
  cbv beta in H;
  lazymatch type of H with
  | Parser.bind _ _ _ = Ok _ =>
      let a := fresh "a" in
      let s1 := fresh "s" in
      let H1 := fresh "H" in
      let H2 := fresh "H" in
      apply bind_Ok in H; destruct H as [a [s1 [H1 H2]]];
      monad_inversion H1; monad_inversion H2
  | Parser.ret _ _ = Ok _ =>
      let E := fresh "E" in
      apply ret_Ok in H; destruct H as [E ?]; try subst
  | Parser.lift _ _ = Ok _ =>
      let E := fresh "E" in
      apply lift_Ok in H; destruct H as [E ?]; try subst
  | Parser.need _ _ = Ok _ =>
      let E := fresh "E" in
      apply need_Ok in H; destruct H as [E ?]; try subst
  | Parser.fresh _ = Ok _ =>
      let E := fresh "E" in
      apply fresh_Ok in H; destruct H as [E ?]; try subst
  | Parser.error _ _ = Ok _ => discriminate H
  | Parser.typeError _ = Ok _ => discriminate H
  | Parser.unmodelled _ _ = Ok _ => discriminate H
  | Parser.outOfFuel _ = Ok _ => discriminate H
  | _ => idtac
  end.

Lemma Token_new_cls c a0 s t s' :
  Parser.Token_new c a0 s = Ok (t, s') ->
  Parser.cls t = c
  /\ Parser.value t = Parser.normalizeValue c (match a0 with Parser.AStr v => Some v | _ => None end)
  /\ Parser.tid t = Parser.nextId s
  /\ Parser.stack s' = Parser.stack s.
Proof.
  unfold Parser.Token_new, Parser.string_arg. intro H.
  destruct a0; monad_inversion H; repeat split; reflexivity.
Qed.

Lemma Operator_new_cls c a0 s t s' :
  Parser.Operator_new c a0 s = Ok (t, s') ->
  Parser.cls t = c
  /\ Parser.value t = Parser.normalizeValue c (match a0 with Parser.AStr v => Some v | _ => None end)
  /\ Parser.tid t = Parser.nextId s
  /\ Parser.stack s' = Parser.stack s.
Proof.
  unfold Parser.Operator_new. intro H. monad_inversion H.
  apply Token_new_cls in H0. exact H0.
Qed.

(** The token that a constructor makes from a matched text is of the class
    constructed, and its value is the normalized text. *)
Lemma construct_text c term s t s' :
  Parser.construct c (Parser.AStr term) Parser.AUndef Parser.AUndef s = Ok (t, s') ->
  Parser.cls t = c
  /\ Parser.value t = Parser.normalizeValue c (Some term)
  /\ Parser.tid t = Parser.nextId s
  /\ Parser.stack s' = Parser.stack s.
Proof.
  unfold Parser.construct. destruct (Class.impl c); intro H;
    try (apply Token_new_cls in H; exact H);
    try (apply Operator_new_cls in H; exact H);
    try (unfold Parser.Tree_new, Parser.Group_new, Parser.ApplyOp_new,
           Parser.token_arg, Parser.string_arg in H; monad_inversion H; fail).
  - (* Apply *)
    unfold Parser.Apply_new in H. monad_inversion H.
    match goal with
    | T : Parser.Token_new _ _ _ = Ok _ |- _ =>
        apply Token_new_cls in T; destruct T as [C [V [I S]]]
    end.
    match goal with
    | N : Parser.newCell _ _ = Ok _ |- _ => unfold Parser.newCell in N; injection N as <- <-
    end.
    assert (S1 : Parser.stack s1 = Parser.stack s0).
    { destruct (Class.get "args" c) as [[]|];
        match goal with
        | X : _ s0 = Ok (_, s1) |- _ =>
            unfold Parser.unmodelled, Parser.ret in X;
            first [discriminate X | injection X as _ <-; reflexivity]
        end. }
    destruct (Class.bool_ "isInvertible" c); simpl; repeat split; try assumption; congruence.
  - (* Relation *)
    unfold Parser.Relation_new in H. monad_inversion H.
    apply Operator_new_cls in H0. exact H0.
  - (* Delimiter *)
    unfold Parser.Delimiter_new in H. monad_inversion H.
    apply Token_new_cls in H0.
    destruct (Class.get "isClose" c) as [[]|]; monad_inversion H1; exact H0.
  - (* StackDelimiter *)
    unfold Parser.Delimiter_new in H. monad_inversion H.
    apply Token_new_cls in H0.
    destruct (Class.get "isClose" c) as [[]|]; monad_inversion H1; exact H0.
Qed.

(** X4: a token that [nextToken] returns is cut from the front of the input
    after the leading spaces: the text it stands for is not empty, the input
    that is left is what follows the text, and it is shorter than the input
    was.  The token is of the class registered under the id that the match
    maps to, and its value is the normalized text. *)
Theorem nextToken_consumes parts parseTokens input s t rest s' :
  Parser.nextToken parts parseTokens input s = Ok (Some (t, rest), s') ->
  exists id term,
    Lexer.exec parts (Lexer.skipSpaces input) = Ok (Some (Some id, term))
    /\ term <> ""
    /\ Lexer.skipSpaces input = (term ++ rest)%string
    /\ String.length rest < String.length input
    /\ Lexer.lookup String.eqb id parseTokens = Some (Parser.cls t)
    /\ Parser.value t = Parser.normalizeValue (Parser.cls t) (Some term)
    /\ Parser.stack s' = Parser.stack s.
Proof.
  unfold Parser.nextToken. destruct (String.eqb input ""); [discriminate|].
  intro H. apply bind_Ok in H. destruct H as [r [s1 [L K]]].
  apply lift_Ok in L. destruct L as [E ->].
  destruct r as [[id term]|];
    [|apply bind_Ok in K; destruct K as [u [s2 [_ K]]]; discriminate K].
  destruct (String.eqb_spec term "") as [|N]; [discriminate K|].
  apply bind_Ok in K. destruct K as [c [s2 [L K]]].
  apply need_Ok in L. destruct L as [Lk ->].
  apply bind_Ok in K. destruct K as [t0 [s3 [Cn K]]].
  apply ret_Ok in K. destruct K as [K ->]. injection K as -> ->.
  destruct id as [id|]; [|discriminate Lk].
  apply construct_text in Cn. destruct Cn as [C [V [_ S]]].
  assert (P := exec_prefix _ _ _ _ E).
  exists id, term. rewrite C. repeat split; try assumption.
  - symmetry. apply prefix_drop, P.
  - pose proof (length_drop _ _ P). pose proof (skipSpaces_length input).
    destruct term; [congruence | simpl in *; lia].
Qed.

Lemma nextToken_consumes_witness :
  match Parser.nextToken (Lexer.getPattern Parser.mainTokens) Parser.mainTokens "  sinh x"
          Parser.initial with
  | Ok (Some (t, rest), s') =>
      exists id term,
        Lexer.exec (Lexer.getPattern Parser.mainTokens) (Lexer.skipSpaces "  sinh x")
        = Ok (Some (Some id, term))
        /\ term <> ""
        /\ Lexer.skipSpaces "  sinh x" = (term ++ rest)%string
        /\ String.length rest < String.length "  sinh x"
        /\ Lexer.lookup String.eqb id Parser.mainTokens = Some (Parser.cls t)
        /\ Parser.value t = Parser.normalizeValue (Parser.cls t) (Some term)
        /\ Parser.stack s' = Parser.stack Parser.initial
  | _ => False
  end.
Proof.
  destruct (Parser.nextToken (Lexer.getPattern Parser.mainTokens) Parser.mainTokens "  sinh x"
              Parser.initial) as [[[[t rest]|] s']| | |] eqn:E;
    try (vm_compute in E; discriminate E).
  apply (nextToken_consumes _ _ _ _ _ _ _ E).
Defined.

(** ** The registry of the token classes *)

(** [Parser.removeParseToken]: [Map.prototype.delete]. *)
Definition removeParseToken (id : string) (parseTokens : list (string * Class.t))
  : list (string * Class.t) :=
filter (fun idc => negb (String.eqb (fst idc) id)) parseTokens.

Lemma lookup_set {B} (k k' : string) (v : B) (m : list (string * B)) :
  Lexer.lookup String.eqb k (Lexer.set String.eqb k' v m)
  = if String.eqb k' k then Some v else Lexer.lookup String.eqb k m.
Proof.
  induction m as [|[k0 v0] m IH]; simpl.
  - reflexivity.
  - destruct (String.eqb_spec k0 k') as [->|N]; simpl.
    + destruct (String.eqb k' k); reflexivity.
    + rewrite IH. destruct (String.eqb_spec k0 k) as [->|]; [|reflexivity].
      destruct (String.eqb_spec k' k) as [->|]; [congruence | reflexivity].
Qed.

Lemma lookup_app {B} (k : string) (m1 m2 : list (string * B)) :
  Lexer.lookup String.eqb k (m1 ++ m2)
  = match Lexer.lookup String.eqb k m1 with
    | Some v => Some v
    | None => Lexer.lookup String.eqb k m2
    end.
Proof.
  induction m1 as [|[k0 v0] m1 IH]; simpl; [reflexivity|].
  destruct (String.eqb k0 k); [reflexivity | exact IH].
Qed.

Lemma keys_set {B} (k : string) (v : B) (m : list (string * B)) :
  exists extra, map fst (Lexer.set String.eqb k v m) = map fst m ++ extra.
Proof.
  induction m as [|[k0 v0] m [extra IH]]; simpl.
  - exists [k]. reflexivity.
  - destruct (String.eqb k0 k); simpl.
    + exists []. rewrite app_nil_r. reflexivity.
    + exists extra. rewrite IH. reflexivity.
Qed.

(** X5: [addParseTokens] registers the classes in the order given, a later
    class replacing an earlier one of the same id, here and in the registry
    as it was; the ids that the registry had keep their places.
    [removeParseToken] makes its id unknown and leaves the other ids as they
    are, and it undoes the registration of an id that was not known. *)
Theorem addParseTokens_lookup (tokens parseTokens : list (string * Class.t)) (id : string) :
  Lexer.lookup String.eqb id (Lexer.addParseTokens tokens parseTokens)
  = match Lexer.lookup String.eqb id (rev tokens) with
    | Some c => Some c
    | None => Lexer.lookup String.eqb id parseTokens
    end
  /\ (exists extra, map fst (Lexer.addParseTokens tokens parseTokens)
                    = map fst parseTokens ++ extra)
  /\ Lexer.lookup String.eqb id (removeParseToken id parseTokens) = None
  /\ (forall id', id' <> id ->
                  Lexer.lookup String.eqb id' (removeParseToken id parseTokens)
                  = Lexer.lookup String.eqb id' parseTokens)
  /\ (forall c, Lexer.lookup String.eqb id parseTokens = None ->
                removeParseToken id (Lexer.addParseTokens [(id, c)] parseTokens) = parseTokens).
Proof.
  unfold Lexer.addParseTokens. repeat split.
  - revert parseTokens. induction tokens as [|[k v] tokens IH]; intro m; simpl; [reflexivity|].
    rewrite IH, lookup_app, lookup_set. simpl.
    destruct (Lexer.lookup String.eqb id (rev tokens)); [reflexivity|].
    destruct (String.eqb k id); reflexivity.
  - revert parseTokens. induction tokens as [|[k v] tokens IH]; intro m; simpl.
    + exists []. rewrite app_nil_r. reflexivity.
    + destruct (IH (Lexer.set String.eqb k v m)) as [e1 E1].
      destruct (keys_set k v m) as [e2 E2].
      exists (e2 ++ e1). rewrite E1, E2, app_assoc. reflexivity.
  - induction parseTokens as [|[k v] m IH]; simpl; [reflexivity|].
    destruct (String.eqb k id) eqn:E; simpl; [exact IH|]. rewrite E. exact IH.
  - intros id' N. induction parseTokens as [|[k v] m IH]; simpl; [reflexivity|].
    destruct (String.eqb_spec k id) as [->|]; simpl.
    + destruct (String.eqb_spec id id'); [congruence | exact IH].
    + rewrite IH. reflexivity.
  - intros c. simpl. induction parseTokens as [|[k v] m IH]; simpl.
    + intros _. rewrite String.eqb_refl. reflexivity.
    + destruct (String.eqb k id) eqn:E; [discriminate|].
      intro H. simpl. rewrite E. simpl. rewrite (IH H). reflexivity.
Qed.

Lemma In_set {A B} (eqb : A -> A -> bool) (k : A) (v : B) (m : list (A * B)) (x : A * B) :
  In x (Lexer.set eqb k v m) -> In x m \/ snd x = v.
Proof.
  induction m as [|[k0 v0] m IH]; simpl.
  - intros [<- | []]. right. reflexivity.
  - destruct (eqb k0 k); simpl.
    + intros [<- | H]; [right; reflexivity | left; right; exact H].
    + intros [<- | H]; [left; left; reflexivity|]. destruct (IH H); tauto.
Qed.

Lemma lookup_In {A B} (eqb : A -> A -> bool) (k : A) (v : B) (m : list (A * B)) :
  Lexer.lookup eqb k m = Some v -> exists k', In (k', v) m.
Proof.
  induction m as [|[k0 v0] m IH]; simpl; [discriminate|].
  destruct (eqb k0 k).
  - intro H. injection H as <-. exists k0. left. reflexivity.
  - intro H. destruct (IH H) as [k' I]. exists k'. right. exact I.
Qed.

Lemma In_lookup {B} (k : string) (m : list (string * B)) :
  In k (map fst m) -> exists v, Lexer.lookup String.eqb k m = Some v.
Proof.
  induction m as [|[k0 v0] m IH]; simpl; [intros []|].
  destruct (String.eqb_spec k0 k) as [->|N]; [intros _; eexists; reflexivity|].
  intros [E | H]; [congruence | exact (IH H)].
Qed.

Section Registered.
Variable K : list string.

Definition names_registered (NMAP : Lexer.NameMapMap) : Prop :=
forall p m name id, In (p, m) NMAP -> In (name, id) m -> In id K.

Definition patterns_registered (P : Lexer.PatternMap) : Prop :=
forall p ps id pattern, In (p, ps) P -> In (id, pattern) ps -> In id K.

Definition part_registered (p : Lexer.Part) : Prop :=
match p with
| Lexer.NamePart _ _ nmap => forall name id, In (name, id) nmap -> In id K
| Lexer.PatternPart _ id _ => In id K
end.

Lemma getNameData_registered id p token N :
  In id K -> names_registered (snd N) ->
  names_registered (snd (Lexer.getNameData id p token N)).
Proof.
  intros I H. unfold Lexer.getNameData.
  assert (G : names_registered
                (Lexer.set Qeq_bool p
                   (fold_left (fun m name => Lexer.set String.eqb name id m)
                      (Class.strings_ "token" token)
                      (match Lexer.lookup Qeq_bool p (snd N) with Some m => m | None => [] end))
                   (snd N))).
  { intros q m name i Q M. apply In_set in Q. destruct Q as [Q | Q].
    - apply (H q m name i Q M).
    - simpl in Q. subst m. revert M.
      assert (B : forall name i, In (name, i)
                    (match Lexer.lookup Qeq_bool p (snd N) with Some m => m | None => [] end) ->
                    In i K).
      { intros n0 i0. destruct (Lexer.lookup Qeq_bool p (snd N)) as [m|] eqn:L; [|intros []].
        apply lookup_In in L. destruct L as [q' L]. apply (H q' m n0 i0 L). }
      revert B. generalize (match Lexer.lookup Qeq_bool p (snd N) with Some m => m | None => [] end).
      induction (Class.strings_ "token" token) as [|x l IH]; intros m B M; simpl in M.
      + apply (B name i M).
      + apply (IH _ (fun n0 i0 X => match In_set _ _ _ _ _ X with
                                    | or_introl Y => B n0 i0 Y
                                    | or_intror Y => eq_ind_r (fun z => In z K) I Y
                                    end) M). }
  destruct (Class.get "token" token) as [[]|]; try exact H; exact G.
Qed.

Lemma getPatternData_registered id p token P :
  In id K -> patterns_registered P ->
  patterns_registered (Lexer.getPatternData id p token P).
Proof.
  intros I H. unfold Lexer.getPatternData.
  destruct (Class.string_ "pattern" token) as [pattern|]; [|exact H].
  destruct (String.eqb pattern ""); [exact H|].
  intros q ps i pat Q M. apply In_set in Q. destruct Q as [Q | Q].
  - apply (H q ps i pat Q M).
  - simpl in Q. subst ps. apply in_app_or in M. destruct M as [M | [M | []]].
    + destruct (Lexer.lookup Qeq_bool p P) as [l|] eqn:L; [|destruct M].
      apply lookup_In in L. destruct L as [q' L]. apply (H q' l i pat L M).
    + injection M as <- _. exact I.
Qed.

Lemma getNamesAndPatterns_registered (parseTokens : list (string * Class.t)) :
  (forall idc, In idc parseTokens -> In (fst idc) K) ->
  names_registered (snd (fst (Lexer.getNamesAndPatterns parseTokens)))
  /\ patterns_registered (snd (Lexer.getNamesAndPatterns parseTokens)).
Proof.
  unfold Lexer.getNamesAndPatterns.
  assert (G : forall acc : Lexer.NameMap * Lexer.NameMapMap * Lexer.PatternMap,
             (forall idc, In idc parseTokens -> In (fst idc) K) ->
             names_registered (snd (fst acc)) -> patterns_registered (snd acc) ->
             let r := fold_left
                        (fun acc idc =>
                           let '(N, P) := acc in
                           let p := Lexer.priority (snd idc) in
                           (Lexer.getNameData (fst idc) p (snd idc) N,
                            Lexer.getPatternData (fst idc) p (snd idc) P))
                        parseTokens acc in
             names_registered (snd (fst r)) /\ patterns_registered (snd r)).
  { induction parseTokens as [|idc l IH]; intros acc I HN HP; simpl; [split; assumption|].
    destruct acc as [N P]. apply IH.
    - intros x X. apply I. right. exact X.
    - simpl. apply getNameData_registered; [apply I; left; reflexivity | exact HN].
    - simpl. apply getPatternData_registered; [apply I; left; reflexivity | exact HP]. }
  intro I. apply G; [exact I | intros p m name id [] | intros p ps id pat []].
Qed.

Lemma getPatternParts_registered NAMES NMAP PATTERNS :
  names_registered NMAP -> patterns_registered PATTERNS ->
  Forall part_registered (Lexer.getPatternParts NAMES NMAP PATTERNS).
Proof.
  intros HN HP. unfold Lexer.getPatternParts. rewrite Forall_forall. intros p I.
  apply in_flat_map in I. destruct I as [i [_ I]]. apply in_app_or in I. destruct I as [I | I].
  - destruct (Lexer.lookup Qeq_bool i NAMES); [|destruct I]. destruct I as [<- | []].
    simpl. intros name id M.
    destruct (Lexer.lookup Qeq_bool i NMAP) as [m|] eqn:L; [|destruct M].
    apply lookup_In in L. destruct L as [q L]. apply (HN q m name id L M).
  - destruct (Lexer.lookup Qeq_bool i PATTERNS) as [ps|] eqn:L; [|destruct I].
    apply in_map_iff in I. destruct I as [[id pat] [<- M]]. simpl.
    apply lookup_In in L. destruct L as [q L]. apply (HP q ps id pat L M).
Qed.

Lemma exec_registered parts input id term :
  Forall part_registered parts ->
  Lexer.exec parts input = Ok (Some (Some id, term)) -> In id K.
Proof.
  induction 1 as [|p parts Hp _ IH]; simpl; [discriminate|].
  destruct p as [q np nmap | q i pattern].
  - destruct (Lexer.matchNamePattern np input) as [m|]; [|exact IH].
    intro H. injection H as L _. apply lookup_In in L. destruct L as [name L].
    apply (Hp name id L).
  - destruct (Lexer.matchPattern pattern input) as [[m|]| | |]; simpl; try discriminate.
    + intro H. injection H as <- _. exact Hp.
    + exact IH.
Qed.
End Registered.

(** X6: a match maps to no id but those of the registry: the id that the
    compiled pattern gives for a match names a registered class, and after
    [removeParseToken] no input gives the id removed. *)
Theorem exec_names_registered_class (parseTokens : list (string * Class.t))
  (input id term : string) :
  (Lexer.exec (Lexer.getPattern parseTokens) input = Ok (Some (Some id, term)) ->
   exists c, Lexer.lookup String.eqb id parseTokens = Some c)
  /\ Lexer.exec (Lexer.getPattern (removeParseToken id parseTokens)) input
     <> Ok (Some (Some id, term)).
Proof.
  assert (G : forall pt, Lexer.exec (Lexer.getPattern pt) input = Ok (Some (Some id, term)) ->
                         In id (map fst pt)).
  { intros pt H. unfold Lexer.getPattern in H.
    destruct (getNamesAndPatterns_registered (map fst pt) pt) as [HN HP].
    { intros idc I. apply in_map. exact I. }
    destruct (Lexer.getNamesAndPatterns pt) as [[NAMES NMAP] PATTERNS]. simpl in HN, HP.
    apply (exec_registered (map fst pt) _ input id term
             (getPatternParts_registered _ NAMES NMAP PATTERNS HN HP) H). }
  split.
  - intro H. apply In_lookup, G, H.
  - intro H. apply G in H. apply in_map_iff in H. destruct H as [[k c] [E I]].
    simpl in E. subst k. apply filter_In in I. destruct I as [_ I].
    simpl in I. rewrite String.eqb_refl in I. discriminate.
Qed.

Lemma exec_names_registered_class_witness :
  exists c, Lexer.lookup String.eqb "Trig" Parser.mainTokens = Some c.
Proof.
  apply (proj1 (exec_names_registered_class Parser.mainTokens "sin x" "Trig" "sin")).
  vm_compute. reflexivity.
Defined.

(** ** The AST: JSON, both ways *)

Lemma Class_eqb_refl (c : Ast.Class) : Ast.Class_eqb c c = true.
Proof. destruct c; reflexivity. Qed.

Lemma rmap_Ok_inv {A B} (f : A -> Result B) (l : list A) (ys : list B) :
  rmap f l = Ok ys -> Forall2 (fun x y => f x = Ok y) l ys.
Proof.
  revert ys. induction l as [|x l IH]; simpl; intros ys H.
  - injection H as <-. constructor.
  - destruct (f x) as [y| | |] eqn:E; try discriminate. simpl in H.
    destruct (rmap f l) as [ys'| | |]; try discriminate. simpl in H.
    injection H as <-. constructor; [exact E | apply IH; reflexivity].
Qed.

Lemma roundtrips_serializable (n : Ast.node) : roundtrips n -> serializable n = true.
Proof.
  induction n as [c o ch e IHch IHe] using node_induction.
  intros [j [T F]]. rewrite serializable_unfold.
  simpl Ast.toJSON in T. rewrite toJSON_children in T.
  destruct (Ast.isLeaf c) eqn:L.
  - destruct e; [discriminate|]. injection T as <-.
    simpl in F. unfold Ast.getAstClass in F.
    destruct (Ast.assoc (Ast.kind c) Ast.baseAst) as [c'|]; [|discriminate]. simpl in F.
    destruct (Ast.isLeaf c') eqn:L'.
    + injection F as <- <-. rewrite Class_eqb_refl. reflexivity.
    + destruct (Ast.subclass c' Ast.FuncExp); discriminate.
  - destruct (rmap Ast.toJSON ch) as [js| | |] eqn:Tch; try discriminate. simpl in T.
    assert (K : forall c' e',
                  rbind (rmap (Ast.fromJSON Ast.baseAst) js)
                    (fun children => Ok (Ast.Node c' o children e')) = Ok (Ast.Node c o ch e) ->
                  c' = c /\ e' = e /\ forallb serializable ch = true).
    { intros c' e' R.
      destruct (rmap (Ast.fromJSON Ast.baseAst) js) as [ch'| | |] eqn:Fch; try discriminate.
      simpl in R. injection R as -> -> ->. repeat split.
      apply rmap_Ok_inv in Tch. apply rmap_Ok_inv in Fch.
      clear - IHch Tch Fch. revert js Tch Fch.
      induction IHch as [|x l Hx _ IH]; intros js Tch Fch; [reflexivity|].
      inversion Tch as [|? jx ? js' Tx Tl]; subst.
      inversion Fch as [|? ? ? ? Fx Fl]; subst. simpl.
      rewrite (Hx (ex_intro _ jx (conj Tx Fx))). apply (IH js' Tl Fl). }
    destruct (Ast.subclass c Ast.FuncExp) eqn:Fe.
    + destruct e as [x|]; [|discriminate].
      destruct (Ast.toJSON x) as [jx| | |] eqn:Tx; try discriminate. simpl in T.
      injection T as <-. simpl in F. unfold Ast.getAstClass in F.
      destruct (Ast.assoc (Ast.kind c) Ast.baseAst) as [c'|] eqn:A; [|discriminate].
      simpl in F. destruct (Ast.isLeaf c') eqn:L'; [discriminate|].
      destruct (Ast.subclass c' Ast.FuncExp); [|discriminate].
      destruct (Ast.fromJSON Ast.baseAst jx) as [x'| | |] eqn:Fx; try discriminate.
      simpl in F. rewrite fromJSON_children in F.
      destruct (K c' (Some x') F) as [-> [E S]].
      injection E as ->. rewrite Class_eqb_refl, S. simpl.
      apply (IHe (ex_intro _ jx (conj Tx Fx))).
    + destruct e as [x|]; [discriminate|]. injection T as <-.
      simpl in F. unfold Ast.getAstClass in F.
      destruct (Ast.assoc (Ast.kind c) Ast.baseAst) as [c'|] eqn:A; [|discriminate].
      simpl in F. destruct (Ast.isLeaf c') eqn:L'; [discriminate|].
      assert (F' : rbind (rmap (Ast.fromJSON Ast.baseAst) js)
                     (fun children => Ok (Ast.Node c' o children None))
                   = Ok (Ast.Node c o ch None)).
      { destruct (Ast.subclass c' Ast.FuncExp); simpl in F;
          rewrite fromJSON_children in F; exact F. }
      destruct (K c' None F') as [-> [_ S]].
      rewrite Class_eqb_refl, S. reflexivity.
Qed.

(** X7: [fromJSON] of the [toJSON] of an AST is that AST again, node by node
    (class, own properties, children and the head of a function expression),
    for exactly the ASTs made of nodes of the registered kinds in the shape
    their constructors give them.  A node of the base class [AstNode] is not
    one of them: its kind is "AstNode", the registry has the class as "base",
    and [fromJSON] throws on what [toJSON] makes of it. *)
Theorem fromJSON_toJSON_identity (n : Ast.node) :
  (serializable n = true <->
   exists j, Ast.toJSON n = Ok j /\ Ast.fromJSON Ast.baseAst j = Ok n)
  /\ (forall v children j,
        Ast.toJSON (Ast.new_AstNode Ast.AstNode v children) = Ok j ->
        Ast.fromJSON Ast.baseAst j = Throw "No definition for AST class: AstNode").
Proof.
  split.
  - split; [apply serializable_roundtrips | apply roundtrips_serializable].
  - intros v children j T. unfold Ast.new_AstNode in T. simpl in T.
    destruct ((fix go (l : list Ast.node) : Result (list Ast.json) :=
                 match l with
                 | [] => Ok []
                 | x :: l' => rbind (Ast.toJSON x) (fun j => rbind (go l') (fun js => Ok (j :: js)))
                 end) children); try discriminate.
    simpl in T. injection T as <-. reflexivity.
Qed.

(** An induction principle for the JSON objects. *)
Section JsonInd.
Variable P : Ast.json -> Prop.
Hypothesis step : forall k o ch e,
  match ch with Some l => Forall P l | None => True end ->
  match e with Some x => P x | None => True end -> P (Ast.JObject k o ch e).

Fixpoint json_induction (j : Ast.json) : P j :=
match j with
| Ast.JObject k o ch e =>
    step k o ch e
      (match ch return match ch with Some l => Forall P l | None => True end with
       | Some l =>
           (fix go (l : list Ast.json) : Forall P l :=
              match l with
              | [] => Forall_nil P
              | x :: l' => Forall_cons x (json_induction x) (go l')
              end) l
       | None => I
       end)
      (match e return match e with Some x => P x | None => True end with
       | Some x => json_induction x
       | None => I
       end)
end.
End JsonInd.

(** The kinds that a JSON object names, its own first. *)
Fixpoint kinds (j : Ast.json) : list string :=
let 'Ast.JObject k _ ch e := j in
k :: match ch with
     | Some l => (fix go (l : list Ast.json) : list string :=
                    match l with
                    | [] => []
                    | x :: l' => kinds x ++ go l'
                    end) l
     | None => []
     end
  ++ match e with Some x => kinds x | None => [] end.

Lemma kinds_children (l : list Ast.json) :
  (fix go (l : list Ast.json) : list string :=
     match l with
     | [] => []
     | x :: l' => kinds x ++ go l'
     end) l = flat_map kinds l.
Proof. induction l as [|x l IH]; simpl; [reflexivity | now rewrite IH]. Qed.

(** X8: [fromJSON] makes a node of the class registered under the kind of
    the object, with the properties of the object as its own properties; it
    succeeds only when every kind named in the object, at any depth, is
    registered, and an object of an unregistered kind is the error "No
    definition for AST class". *)
Theorem fromJSON_registered_kinds (astMap : list (string * Ast.Class)) (j : Ast.json) :
  (forall n, Ast.fromJSON astMap j = Ok n ->
             (let 'Ast.JObject k o _ _ := j in
              Ast.assoc k astMap = Some (Ast.class_of n) /\ Ast.own_of n = o)
             /\ Forall (fun k => Ast.assoc k astMap <> None) (kinds j))
  /\ (let 'Ast.JObject k _ _ _ := j in
      Ast.assoc k astMap = None ->
      Ast.fromJSON astMap j = Throw ("No definition for AST class: " ++ k)%string).
Proof.
  split.
  - induction j as [k o ch e IHch IHe] using json_induction.
    intros n F. simpl in F. unfold Ast.getAstClass in F.
    destruct (Ast.assoc k astMap) as [c|] eqn:A; [|discriminate]. simpl in F.
    assert (R : forall x : string, x = k -> Ast.assoc x astMap <> None) by (intros x ->; congruence).
    destruct (Ast.isLeaf c).
    + destruct ch; [discriminate|]. destruct e; [discriminate|].
      injection F as <-. simpl. split; [split; reflexivity|].
      constructor; [apply R; reflexivity | constructor].
    + destruct (if Ast.subclass c Ast.FuncExp then _ else _) as [exp| | |] eqn:X;
        try discriminate.
      assert (E : Forall (fun k => Ast.assoc k astMap <> None)
                    (match e with Some x => kinds x | None => [] end)).
      { destruct e as [x|]; [|constructor].
        destruct (Ast.subclass c Ast.FuncExp); [|discriminate].
        destruct (Ast.fromJSON astMap x) as [nx| | |] eqn:Fx; try discriminate.
        apply (IHe nx eq_refl). }
      clear X. simpl in F. destruct ch as [l|]; [|discriminate].
      rewrite fromJSON_children in F.
      destruct (rmap (Ast.fromJSON astMap) l) as [children| | |] eqn:Fl; try discriminate.
      simpl in F. injection F as <-. simpl. split; [split; reflexivity|].
      constructor; [apply R; reflexivity|].
      apply Forall_app. split; [|exact E].
      rewrite kinds_children. apply rmap_Ok_inv in Fl. clear - IHch Fl.
      revert children Fl. induction IHch as [|x l Hx _ IH]; intros children Fl; [constructor|].
      inversion Fl as [|? nx ? ns Fx Fr]; subst. simpl.
      apply Forall_app. split; [apply (Hx nx Fx) | apply (IH ns Fr)].
  - destruct j as [k o ch e]. intro A. simpl. unfold Ast.getAstClass. rewrite A. reflexivity.
Qed.

Lemma fromJSON_registered_kinds_witness :
  (let 'Ast.JObject k o _ _ := Ast.JObject "Name" (Ast.plain (Ast.VStr "x")) None None in
   Ast.assoc k Ast.baseAst = Some (Ast.class_of (Ast.new_Leaf Ast.Name "x"))
   /\ Ast.own_of (Ast.new_Leaf Ast.Name "x") = o)
  /\ Forall (fun k => Ast.assoc k Ast.baseAst <> None)
       (kinds (Ast.JObject "Name" (Ast.plain (Ast.VStr "x")) None None)).
Proof.
  apply (proj1 (fromJSON_registered_kinds Ast.baseAst
                  (Ast.JObject "Name" (Ast.plain (Ast.VStr "x")) None None))
           (Ast.new_Leaf Ast.Name "x")).
  reflexivity.
Defined.

(** ** [convert]: empty input and unknown characters *)






(** ** Operators without their operands *)

(** The operators that can stand before their operand as a unary operator. *)
Definition leftUnary (t : Parser.Token) : bool :=
Parser.is_left t && (String.eqb (Parser.type t) "unary" || String.eqb (Parser.type t) "both").

Lemma checkIsLeftUnary_value (this t : Parser.Token) (s : Parser.State) :
  Parser.isa "Operand" t = false ->
  Parser.checkIsLeftUnary this (Some t) s = Ok (leftUnary this, s).
Proof.
  intro O. unfold Parser.checkIsLeftUnary, leftUnary.
  destruct (Parser.is_left this); [|reflexivity].
  destruct (String.eqb (Parser.type this) "unary"); [reflexivity|].
  destruct (String.eqb (Parser.type this) "both"); [|reflexivity].
  unfold Parser.bind, Parser.need, Parser.ret. rewrite O. reflexivity.
Qed.

(** X11: an operator that comes after a token that is not an operand is the
    error "Missing operand before", unless it is left-associative and of the
    type ['unary'] or ['both']: then its unary form is what is pushed, the
    operator itself when it is unary. *)
Theorem Operator_follows_without_operand push appendTop (this t : Parser.Token)
  (s : Parser.State) :
  Parser.isa "Operand" t = false ->
  (leftUnary this = false ->
   Parser.Operator_follows push appendTop this (Some t) s
   = Throw ("Missing operand before " ++ Parser.value this)%string)
  /\ (leftUnary this = true ->
      Parser.Operator_follows push appendTop this (Some t) s
      = Parser.bind (Parser.makeUnary this) (fun u => Parser.ret [u]) s)
  /\ (leftUnary this = true -> Parser.type this = "unary" ->
      Parser.Operator_follows push appendTop this (Some t) s = Ok ([this], s)).
Proof.
  intro O.
  assert (E : Parser.Operator_follows push appendTop this (Some t) s
              = if leftUnary this
                then Parser.bind (Parser.makeUnary this) (fun u => Parser.ret [u]) s
                else Throw ("Missing operand before " ++ Parser.value this)%string).
  { unfold Parser.Operator_follows. unfold Parser.bind at 1.
    rewrite (checkIsLeftUnary_value this t s O).
    destruct (leftUnary this); [reflexivity|].
    unfold Parser.bind at 1. unfold Parser.need, Parser.ret.
    unfold Parser.bind at 1. rewrite O. reflexivity. }
  rewrite E. destruct (leftUnary this).
  - split; [discriminate|]. split; [reflexivity|].
    intros _ U. unfold Parser.bind, Parser.makeUnary.
    apply String.eqb_eq in U. rewrite U. reflexivity.
  - split; [reflexivity | split; discriminate].
Qed.

Lemma Operator_follows_without_operand_witness :
  Parser.Operator_follows
    (Parser.push (Parser.engine 0)) (Parser.appendTop (Parser.engine 0))
    (token_of Class.Multiply "*") (Some (token_of Class.Parens "(")) Parser.initial
  = Throw "Missing operand before *".
Proof.
  apply (proj1 (Operator_follows_without_operand _ _ (token_of Class.Multiply "*")
                  (token_of Class.Parens "(") Parser.initial eq_refl)).
  reflexivity.
Defined.

(** X12: when a group is closed over an operator that lacks an operand, the
    closing loop throws "Missing operand following" with the value of the
    operator's node; over an apply operator with fewer than two children it
    throws "Missing argument for" with the name of the function; over a
    look-ahead token that has saved nothing it throws "Missing operand
    after". *)
Theorem closing_without_operand n (item this : Parser.Token) rest i c :
  let e := Parser.engine (S n) in
  let s := Parser.mkState (rest ++ [this]) i c in
  (plainOperator this = true -> Parser.checkOperands this = false ->
   Parser.closeLoop e item s
   = Throw ("Missing operand following "
              ++ Ast.value_to_string (Ast.value_of (Parser.ast this)))%string)
  /\ (forall f name,
        Parser.impl this = Class.IApplyOp \/ Parser.impl this = Class.IApplyArgument ->
        Parser.children this = [f] -> Ast.toString f = Some name ->
        Parser.closeLoop e item s = Throw ("Missing argument for " ++ name ++ "()")%string)
  /\ (Parser.impl this = Class.ILookAhead \/ Parser.impl this = Class.IAngle ->
      Parser.saved this = [] ->
      Parser.closeLoop e item s = Throw ("Missing operand after " ++ Parser.value this)%string).
Proof.
  intros e s. subst e s.
  assert (E : forall r,
             Parser.group (Parser.push (Parser.engine n)) (Parser.appendTop (Parser.engine n))
               this item (Parser.mkState (rest ++ [this]) i c) = Throw r ->
             Parser.closeLoop (Parser.engine (S n)) item (Parser.mkState (rest ++ [this]) i c)
             = Throw r).
  { intros r G. simpl Parser.closeLoop. unfold Parser.closeLoop_step.
    unfold Parser.bind at 1. rewrite top_snoc. unfold Parser.bind at 1. rewrite G.
    reflexivity. }
  split; [|split].
  - intros P O. apply E. unfold plainOperator in P. unfold Parser.group.
    destruct (Parser.impl this); try discriminate P;
      unfold Parser.Operator_group; unfold Parser.bind at 1; rewrite O; reflexivity.
  - intros f name I C T. apply E. unfold Parser.group.
    assert (G : Parser.ApplyOp_group (Parser.appendTop (Parser.engine n)) this
                  (Parser.mkState (rest ++ [this]) i c)
                = Throw ("Missing argument for " ++ name ++ "()")%string).
    { unfold Parser.ApplyOp_group. unfold Parser.bind at 1. rewrite C. simpl.
      unfold Parser.bind at 1. unfold Parser.ApplyOp_name, Parser.child. rewrite C. simpl.
      rewrite T. reflexivity. }
    destruct I as [I | I]; rewrite I; exact G.
  - intros I S. apply E. unfold Parser.group.
    destruct I as [I | I]; rewrite I; unfold Parser.LookAhead_group; rewrite S; reflexivity.
Qed.

Lemma closing_without_operand_witness :
  Parser.closeLoop (Parser.engine 1) (token_of Class.Parens ")")
    (Parser.mkState ([token_of Class.Parens "("] ++ [token_of Class.Multiply "*"]) 0 [])
  = Throw "Missing operand following *".
Proof.
  apply (proj1 (closing_without_operand 0 (token_of Class.Parens ")")
                  (token_of Class.Multiply "*") [token_of Class.Parens "("] 0 []));
    reflexivity.
Defined.

(** ** Function data *)

Definition cell (s : Parser.State) (d : Parser.ApplyData) : option Parser.ArgCount :=
nth_error (Parser.cells s) (Parser.args d).

(** X13: [checkFunction] never throws and never touches the stack.  It
    answers [false] when the two data differ in [autoApply] or in
    [requireArgument]; otherwise it answers whether the two argument counts
    agree, [Infinity] agreeing with every count, and the one change it makes
    is to put the count of the token in the place of an [Infinity] of the
    receiver. *)
Theorem checkFunction_result (thisData tokenData : Parser.ApplyData) (s : Parser.State)
  (v1 v2 : Parser.ArgCount) :
  cell s thisData = Some v1 -> cell s tokenData = Some v2 ->
  Parser.checkFunction thisData tokenData s
  = if Bool.eqb (Parser.autoApply thisData) (Parser.autoApply tokenData)
       && Bool.eqb (Parser.requireArgument thisData) (Parser.requireArgument tokenData)
    then match v1, v2 with
         | Parser.Count a, Parser.Count b => Ok (Qeq_bool a b, s)
         | Parser.Infinity, Parser.Count b =>
             Ok (true, Parser.mkState (Parser.stack s) (Parser.nextId s)
                         (Parser.update (Parser.args thisData) v2 (Parser.cells s)))
         | _, Parser.Infinity => Ok (true, s)
         end
    else Ok (false, s).
Proof.
  unfold cell, Parser.checkFunction. intros C1 C2.
  destruct (Bool.eqb (Parser.autoApply thisData) (Parser.autoApply tokenData)); [|reflexivity].
  destruct (Bool.eqb (Parser.requireArgument thisData) (Parser.requireArgument tokenData));
    [|reflexivity].
  simpl. destruct (Nat.eqb_spec (Parser.args thisData) (Parser.args tokenData)) as [E|N].
  - rewrite E in C1. rewrite C1 in C2. injection C2 as <-.
    destruct v1 as [a|]; [|reflexivity].
    assert (Q : Qeq_bool a a = true) by (apply Qeq_bool_iff; reflexivity).
    rewrite Q. reflexivity.
  - unfold Parser.bind, Parser.readCell. rewrite C1, C2.
    destruct v1 as [a|], v2 as [b|]; simpl; try reflexivity.
    destruct (Qeq_bool a b); reflexivity.
Qed.

Lemma checkFunction_result_witness :
  Parser.checkFunction (Parser.mkApplyData false false 0) (Parser.mkApplyData false false 1)
    (Parser.mkState [] 0 [Parser.Infinity; Parser.Count 2])
  = Ok (true, Parser.mkState [] 0 [Parser.Count 2; Parser.Count 2]).
Proof.
  apply (checkFunction_result (Parser.mkApplyData false false 0) (Parser.mkApplyData false false 1)
           (Parser.mkState [] 0 [Parser.Infinity; Parser.Count 2])
           Parser.Infinity (Parser.Count 2)); reflexivity.
Defined.

(** The number of arguments that a function with the count [n] takes. *)
Definition accepts (n : Parser.ArgCount) (k : nat) : bool :=
match n with
| Parser.Infinity => true
| Parser.Count q => Qeq_bool q (inject_Z (Z.of_nat k))
end.

(** X14: an apply operator that has its function takes the arguments of an
    argument group one by one, in order, when its function accepts their
    number, and any number when the count is [Infinity]; otherwise it throws
    "Wrong number of arguments for" with the name of the function. *)
Theorem ApplyOp_append_arguments (this token : Parser.Token) (s : Parser.State)
  (a : Ast.node) (d : Parser.ApplyData) (n : Parser.ArgCount) (f : Ast.node) (name : string) :
  Parser.impl this = Class.IApplyOp \/ Parser.impl this = Class.IApplyArgument ->
  Parser.child 0 this = Some f -> Ast.toString f = Some name ->
  Parser.isa "Group" token = true -> Parser.isApply token = true ->
  Parser.tree token = Ok a ->
  Parser.applyData this = Some d -> cell s d = Some n ->
  Parser.localAppend this token s
  = if accepts n (List.length (Ast.childNodes a))
    then Ok (Parser.set_ast (fold_left Ast.append (Ast.childNodes a) (Parser.ast this)) this, s)
    else Throw ("Wrong number of arguments for " ++ name ++ "()")%string.
Proof.
  intros I F N G A T D C.
  assert (E : Parser.localAppend this token = Parser.ApplyOp_append this token)
    by (unfold Parser.localAppend; destruct I as [I | I]; rewrite I; reflexivity).
  rewrite E. unfold Parser.ApplyOp_append. rewrite G, A.
  assert (L : negb (Nat.eqb (List.length (Parser.children this)) 0) = true).
  { unfold Parser.child in F. destruct (Parser.children this); [discriminate | reflexivity]. }
  rewrite L. cbn [andb].
  unfold Parser.bind at 1. unfold Parser.lift. rewrite T.
  unfold Parser.bind at 1. rewrite D. unfold Parser.need, Parser.ret.
  unfold Parser.bind at 1. unfold Parser.readCell. unfold cell in C. rewrite C.
  unfold accepts. destruct n as [q|]; cbn [Parser.ArgCount_eqb negb andb].
  - destruct (Qeq_bool q (inject_Z (Z.of_nat (List.length (Ast.childNodes a)))));
      cbn [negb andb].
    + reflexivity.
    + unfold Parser.bind, Parser.ApplyOp_name. rewrite F, N. reflexivity.
  - reflexivity.
Qed.

Definition h_apply : Parser.Token :=
Parser.mkToken 0 Class.ApplyOp "apply"
  (Ast.new_AstNode Ast.FuncApply "apply" [Ast.new_Leaf Ast.FuncName "h"])
  true (Some (Parser.mkApplyData false true 0)) (7 # 2) "binary" false false false
  [] [] false false false false.

Definition xy_group : Parser.Token :=
Parser.mkToken 1 Class.Group "group"
  (Ast.new_StackGroup Ast.Group "(" (Some ")")
     [Ast.new_Leaf Ast.Name "x"; Ast.new_Leaf Ast.Name "y"])
  true None 0 "" false false true [] [] false false false false.

Lemma ApplyOp_append_arguments_witness :
  Parser.localAppend h_apply xy_group (Parser.mkState [] 2 [Parser.Count 2])
  = Ok (Parser.set_ast
          (Ast.new_AstNode Ast.FuncApply "apply"
             [Ast.new_Leaf Ast.FuncName "h"; Ast.new_Leaf Ast.Name "x"; Ast.new_Leaf Ast.Name "y"])
          h_apply,
        Parser.mkState [] 2 [Parser.Count 2])
  /\ Parser.localAppend h_apply xy_group (Parser.mkState [] 2 [Parser.Count 1])
     = Throw "Wrong number of arguments for h()".
Proof.
  split.
  - apply (ApplyOp_append_arguments h_apply xy_group (Parser.mkState [] 2 [Parser.Count 2])
             (Parser.ast xy_group) (Parser.mkApplyData false true 0) (Parser.Count 2)
             (Ast.new_Leaf Ast.FuncName "h") "h"); try reflexivity.
    left. reflexivity.
  - apply (ApplyOp_append_arguments h_apply xy_group (Parser.mkState [] 2 [Parser.Count 1])
             (Parser.ast xy_group) (Parser.mkApplyData false true 0) (Parser.Count 1)
             (Ast.new_Leaf Ast.FuncName "h") "h"); try reflexivity.
    left. reflexivity.
Defined.

(** X15: the token of a function class has function data of its own: a new
    cell with the argument count of the class, [autoApply] as the class has
    it and [requireArgument] set when the class sets it or sets [autoApply],
    so that a function that applies without parentheses always requires its
    argument.  The token can be applied, and the node of an invertible
    function has the value with an "a" before it as its inverse. *)
Theorem Apply_new_data (c : Class.t) (a0 : Parser.Arg) (s s' : Parser.State) (t : Parser.Token) :
  Parser.Apply_new c a0 s = Ok (t, s') ->
  exists d count,
    Parser.applyData t = Some d
    /\ Parser.autoApply d = Class.bool_ "autoApply" c
    /\ Parser.requireArgument d = (Class.bool_ "requireArgument" c || Class.bool_ "autoApply" c)
    /\ (Parser.autoApply d = true -> Parser.requireArgument d = true)
    /\ Parser.args d = List.length (Parser.cells s)
    /\ Parser.cells s' = Parser.cells s ++ [count]
    /\ cell s' d = Some count
    /\ (Class.get "args" c = Some Class.VInfinity /\ count = Parser.Infinity
        \/ exists q, Class.get "args" c = Some (Class.VNumber q) /\ count = Parser.Count q)
    /\ Parser.canApply t = true
    /\ Parser.pushed t = false
    /\ (Class.bool_ "isInvertible" c = true ->
        Ast.inverse_of (Parser.ast t) = Some ("a" ++ Parser.value t)%string).
Proof.
  unfold Parser.Apply_new. intro H.
  apply bind_Ok in H. destruct H as [t0 [s0 [T H]]].
  apply bind_Ok in H. destruct H as [count [s1 [A H]]].
  apply bind_Ok in H. destruct H as [r [s2 [N H]]].
  apply ret_Ok in H. destruct H as [-> ->].
  unfold Parser.newCell in N. injection N as <- <-.
  assert (S0 : Parser.cells s0 = Parser.cells s).
  { unfold Parser.Token_new in T. apply bind_Ok in T. destruct T as [v [x1 [T1 T]]].
    apply bind_Ok in T. destruct T as [nd [x2 [T2 T]]].
    apply bind_Ok in T. destruct T as [id [x3 [T3 T]]].
    apply ret_Ok in T. destruct T as [_ ->].
    apply lift_Ok in T2. destruct T2 as [_ ->].
    apply fresh_Ok in T3. destruct T3 as [_ ->]. simpl.
    unfold Parser.string_arg in T1.
    destruct a0; unfold Parser.ret, Parser.unmodelled in T1; try discriminate T1;
      injection T1 as _ <-; reflexivity. }
  assert (S1 : s1 = s0 /\ (Class.get "args" c = Some Class.VInfinity /\ count = Parser.Infinity
                           \/ exists q, Class.get "args" c = Some (Class.VNumber q)
                                        /\ count = Parser.Count q)).
  { destruct (Class.get "args" c) as [[]|]; unfold Parser.ret, Parser.unmodelled in A;
      try discriminate A; injection A as <- <-; split; try reflexivity.
    - right. eexists. split; reflexivity.
    - left. split; reflexivity. }
  destruct S1 as [-> S1]. rewrite S0.
  set (d := Parser.mkApplyData (Class.bool_ "autoApply" c)
              (Class.bool_ "requireArgument" c || Class.bool_ "autoApply" c)
              (List.length (Parser.cells s))).
  exists d, count.
  assert (R : forall x,
             Parser.applyData
               (if Class.bool_ "isInvertible" c
                then Parser.set_ast x
                       (Parser.set_pushed false
                          (Parser.set_canApply true (Parser.set_applyData (Some d) t0)))
                else Parser.set_pushed false
                       (Parser.set_canApply true (Parser.set_applyData (Some d) t0)))
             = Some d) by (intro x; destruct (Class.bool_ "isInvertible" c); reflexivity).
  split; [apply R|]. split; [reflexivity|]. split; [reflexivity|].
  split; [simpl; intros ->; apply orb_true_r|].
  split; [reflexivity|]. split; [reflexivity|].
  split; [unfold cell; simpl; rewrite nth_error_app2, Nat.sub_diag by lia; reflexivity|].
  split; [exact S1|].
  destruct (Class.bool_ "isInvertible" c); repeat split; try discriminate.
  intros _. simpl. destruct (Parser.ast t0) as [k o ch e]. reflexivity.
Qed.

Lemma Apply_new_data_witness :
  exists t s' d count,
    Parser.Apply_new Class.Trig (Parser.AStr "sin") Parser.initial = Ok (t, s')
    /\ Parser.applyData t = Some d
    /\ Parser.autoApply d = true /\ Parser.requireArgument d = true
    /\ cell s' d = Some count /\ count = Parser.Count 1
    /\ Ast.inverse_of (Parser.ast t) = Some "asin".
Proof.
  destruct (Parser.Apply_new Class.Trig (Parser.AStr "sin") Parser.initial)
    as [[t s']| | |] eqn:E; try (vm_compute in E; discriminate E).
  destruct (Apply_new_data Class.Trig (Parser.AStr "sin") Parser.initial s' t E)
    as [d [count [D [A [R [_ [_ [_ [C [K [_ [_ I]]]]]]]]]]]].
  exists t, s', d, count. split; [reflexivity|]. split; [exact D|].
  split; [rewrite A; reflexivity|]. split; [rewrite R; reflexivity|]. split; [exact C|].
  split.
  - destruct K as [[K _] | [q [K ->]]]; [vm_compute in K; discriminate K|].
    vm_compute in K. injection K as <-. reflexivity.
  - rewrite (I eq_refl). vm_compute in E. injection E as <- _. reflexivity.
Defined.

(** ** The node of an operator token *)

Ltac own_fields n :=
  let k := fresh "k" in
  let o := fresh "o" in
  let ch := fresh "ch" in
  let e := fresh "e" in
  destruct n as [k o ch e]; destruct o; reflexivity.

Lemma associativity_of_set n a :
  Ast.associativity_of (Ast.with_own (Ast.set_associativity a) n) = Some a.
Proof. own_fields n. Qed.
Lemma precedence_of_set n p :
  Ast.precedence_of (Ast.with_own (Ast.set_precedence p) n) = Some p.
Proof. own_fields n. Qed.
Lemma isComma_of_set n b :
  Ast.isComma_of (Ast.with_own (Ast.set_isComma b) n) = Some b.
Proof. own_fields n. Qed.
Lemma equalParens_of_set n b :
  Ast.equalParens_of (Ast.with_own (Ast.set_equalParens b) n) = Some b.
Proof. own_fields n. Qed.
Lemma opString_of_set n x :
  Ast.opString_of (Ast.with_own (Ast.set_opString x) n) = Some x.
Proof. own_fields n. Qed.

Lemma associativity_of_others n :
  (forall p, Ast.associativity_of (Ast.with_own (Ast.set_precedence p) n) = Ast.associativity_of n)
  /\ (forall b, Ast.associativity_of (Ast.with_own (Ast.set_isComma b) n) = Ast.associativity_of n)
  /\ (forall b, Ast.associativity_of (Ast.with_own (Ast.set_equalParens b) n)
                = Ast.associativity_of n)
  /\ (forall x, Ast.associativity_of (Ast.with_own (Ast.set_opString x) n)
                = Ast.associativity_of n).
Proof. repeat split; intro; own_fields n. Qed.

Lemma precedence_of_others n :
  (forall b, Ast.precedence_of (Ast.with_own (Ast.set_isComma b) n) = Ast.precedence_of n)
  /\ (forall b, Ast.precedence_of (Ast.with_own (Ast.set_equalParens b) n) = Ast.precedence_of n)
  /\ (forall x, Ast.precedence_of (Ast.with_own (Ast.set_opString x) n) = Ast.precedence_of n).
Proof. repeat split; intro; own_fields n. Qed.

Lemma isComma_of_others n :
  (forall b, Ast.isComma_of (Ast.with_own (Ast.set_equalParens b) n) = Ast.isComma_of n)
  /\ (forall x, Ast.isComma_of (Ast.with_own (Ast.set_opString x) n) = Ast.isComma_of n).
Proof. repeat split; intro; own_fields n. Qed.

Lemma equalParens_of_others n x :
  Ast.equalParens_of (Ast.with_own (Ast.set_opString x) n) = Ast.equalParens_of n.
Proof. own_fields n. Qed.

Definition transfer_associativity (t : Parser.Token) (n : Ast.node) : Ast.node :=
match Parser.associativity t with
| Some a => match Ast.associativity_of n with
            | Some a' => if String.eqb a a' then n else Ast.with_own (Ast.set_associativity a) n
            | None => Ast.with_own (Ast.set_associativity a) n
            end
| None => n
end.

Definition transfer_precedence (t : Parser.Token) (n : Ast.node) : Ast.node :=
match Ast.precedence_of n with
| Some p => if Qeq_bool p (Parser.precedence t) then n
            else Ast.with_own (Ast.set_precedence (Parser.precedence t)) n
| None => Ast.with_own (Ast.set_precedence (Parser.precedence t)) n
end.

Definition transfer_isComma (t : Parser.Token) (n : Ast.node) : Ast.node :=
match Ast.isComma_of n with
| Some b => if Bool.eqb b (Parser.isComma t) then n
            else Ast.with_own (Ast.set_isComma (Parser.isComma t)) n
| None => Ast.with_own (Ast.set_isComma (Parser.isComma t)) n
end.

Definition transfer_equalParens (t : Parser.Token) (n : Ast.node) : Ast.node :=
match Ast.equalParens_of n with
| Some b => if Bool.eqb b (Parser.equalParens t) then n
            else Ast.with_own (Ast.set_equalParens (Parser.equalParens t)) n
| None => Ast.with_own (Ast.set_equalParens (Parser.equalParens t)) n
end.

Definition transfer_opString (t : Parser.Token) (n : Ast.node) : Ast.node :=
match Ast.opString_of n, Parser.opString t with
| Some None, None => n
| Some (Some s), Some s' => if String.eqb s s' then n else Ast.with_own (Ast.set_opString (Some s')) n
| _, x => Ast.with_own (Ast.set_opString x) n
end.

Lemma transfer_steps (t : Parser.Token) (n : Ast.node) :
  Parser.transfer t n
  = transfer_opString t
      (transfer_equalParens t
         (transfer_isComma t (transfer_precedence t (transfer_associativity t n)))).
Proof. reflexivity. Qed.

(** What the node reads after the transfer is what the token has. *)
Definition reads (t : Parser.Token) (a : string) (n : Ast.node) : Prop :=
Ast.associativity_of n = Some a
/\ (exists p, Ast.precedence_of n = Some p /\ (p == Parser.precedence t)%Q)
/\ Ast.isComma_of n = Some (Parser.isComma t)
/\ Ast.equalParens_of n = Some (Parser.equalParens t).

Lemma transfer_reads (t : Parser.Token) (n : Ast.node) (a : string) :
  Parser.associativity t = Some a ->
  reads t a (Parser.transfer t n)
  /\ Ast.opString_of (Parser.transfer t n) = Some (Parser.opString t).
Proof.
  intro A. rewrite transfer_steps.
  set (n1 := transfer_associativity t n).
  assert (A1 : Ast.associativity_of n1 = Some a).
  { subst n1. unfold transfer_associativity. rewrite A.
    destruct (Ast.associativity_of n) as [a'|] eqn:E; [|apply associativity_of_set].
    destruct (String.eqb_spec a a') as [->|]; [exact E | apply associativity_of_set]. }
  set (n2 := transfer_precedence t n1).
  assert (A2 : Ast.associativity_of n2 = Some a).
  { subst n2. unfold transfer_precedence.
    destruct (Ast.precedence_of n1) as [p|]; [destruct (Qeq_bool p (Parser.precedence t))|];
      rewrite ?(proj1 (associativity_of_others n1)); exact A1. }
  assert (P2 : exists p, Ast.precedence_of n2 = Some p /\ (p == Parser.precedence t)%Q).
  { subst n2. unfold transfer_precedence.
    destruct (Ast.precedence_of n1) as [p|] eqn:E.
    - destruct (Qeq_bool p (Parser.precedence t)) eqn:Q.
      + exists p. split; [exact E | apply Qeq_bool_iff; exact Q].
      + exists (Parser.precedence t). split; [apply precedence_of_set | reflexivity].
    - exists (Parser.precedence t). split; [apply precedence_of_set | reflexivity]. }
  set (n3 := transfer_isComma t n2).
  assert (A3 : Ast.associativity_of n3 = Some a /\ Ast.precedence_of n3 = Ast.precedence_of n2).
  { subst n3. unfold transfer_isComma.
    destruct (Ast.isComma_of n2) as [b|]; [destruct (Bool.eqb b (Parser.isComma t))|];
      rewrite ?(proj1 (proj2 (associativity_of_others n2))), ?(proj1 (precedence_of_others n2));
      split; try reflexivity; exact A2. }
  assert (C3 : Ast.isComma_of n3 = Some (Parser.isComma t)).
  { subst n3. unfold transfer_isComma.
    destruct (Ast.isComma_of n2) as [b|] eqn:E; [|apply isComma_of_set].
    destruct (Bool.eqb b (Parser.isComma t)) eqn:Q; [|apply isComma_of_set].
    apply Bool.eqb_prop in Q. subst b. exact E. }
  set (n4 := transfer_equalParens t n3).
  assert (A4 : Ast.associativity_of n4 = Some a
               /\ Ast.precedence_of n4 = Ast.precedence_of n2
               /\ Ast.isComma_of n4 = Some (Parser.isComma t)).
  { subst n4. unfold transfer_equalParens. destruct A3 as [A3 P3].
    destruct (Ast.equalParens_of n3) as [b|]; [destruct (Bool.eqb b (Parser.equalParens t))|];
      rewrite ?(proj1 (proj2 (proj2 (associativity_of_others n3)))),
        ?(proj1 (proj2 (precedence_of_others n3))), ?(proj1 (isComma_of_others n3));
      repeat split; assumption. }
  assert (E4 : Ast.equalParens_of n4 = Some (Parser.equalParens t)).
  { subst n4. unfold transfer_equalParens.
    destruct (Ast.equalParens_of n3) as [b|] eqn:E; [|apply equalParens_of_set].
    destruct (Bool.eqb b (Parser.equalParens t)) eqn:Q; [|apply equalParens_of_set].
    apply Bool.eqb_prop in Q. subst b. exact E. }
  destruct A4 as [A4 [P4 C4]]. destruct P2 as [p [P2 Q2]].
  assert (K : forall x, reads t a (Ast.with_own (Ast.set_opString x) n4)).
  { intro x. unfold reads.
    rewrite (proj2 (proj2 (proj2 (associativity_of_others n4)))),
      (proj2 (proj2 (precedence_of_others n4))), (proj2 (isComma_of_others n4)),
      equalParens_of_others, P4.
    repeat split; try assumption. exists p. split; assumption. }
  assert (K0 : reads t a n4).
  { unfold reads. rewrite P4. repeat split; try assumption. exists p. split; assumption. }
  unfold transfer_opString.
  destruct (Ast.opString_of n4) as [[s0|]|] eqn:O; destruct (Parser.opString t) as [s1|];
    try (split; [apply K | apply opString_of_set]).
  - destruct (String.eqb_spec s0 s1) as [->|]; [split; [exact K0 | exact O]|].
    split; [apply K | apply opString_of_set].
  - split; [exact K0 | exact O].
Qed.

(** X16: the node that the constructor of an operator token makes reads the
    associativity, the precedence, [isComma] and [equalParens] of the token,
    as own properties where the defaults of its class differ; its [opString]
    is the entry of [opStrings] for the value of the token when there is
    one, and the [opString] of the token otherwise. *)
Theorem Operator_new_node (c : Class.t) (a0 : Parser.Arg) (s s' : Parser.State)
  (t : Parser.Token) (a : string) :
  Parser.Operator_new c a0 s = Ok (t, s') ->
  Parser.associativity t = Some a ->
  Ast.associativity_of (Parser.ast t) = Some a
  /\ (exists p, Ast.precedence_of (Parser.ast t) = Some p /\ (p == Parser.precedence t)%Q)
  /\ Ast.isComma_of (Parser.ast t) = Some (Parser.isComma t)
  /\ Ast.equalParens_of (Parser.ast t) = Some (Parser.equalParens t)
  /\ Ast.opString_of (Parser.ast t)
     = Some (match Ast.lookup (Parser.value t) (Parser.opStrings t) with
             | Some x => if String.eqb x "" then Parser.opString t else Some x
             | None => Parser.opString t
             end).
Proof.
  unfold Parser.Operator_new. intros H A.
  apply bind_Ok in H. destruct H as [t0 [s0 [_ H]]].
  apply ret_Ok in H. destruct H as [-> _].
  change (Parser.associativity t0 = Some a) in A.
  destruct (transfer_reads t0 (Parser.ast t0) a A) as [[R1 [R2 [R3 R4]]] O].
  set (n := Parser.transfer t0 (Parser.ast t0)) in *.
  change (Parser.value (Parser.set_ast _ t0)) with (Parser.value t0).
  change (Parser.opStrings (Parser.set_ast _ t0)) with (Parser.opStrings t0).
  change (Parser.opString (Parser.set_ast _ t0)) with (Parser.opString t0).
  change (Parser.isComma (Parser.set_ast _ t0)) with (Parser.isComma t0).
  change (Parser.equalParens (Parser.set_ast _ t0)) with (Parser.equalParens t0).
  change (Parser.precedence (Parser.set_ast _ t0)) with (Parser.precedence t0).
  simpl Parser.ast.
  destruct (Ast.lookup (Parser.value t0) (Parser.opStrings t0)) as [x|];
    [destruct (String.eqb x "")|]; try (repeat split; assumption).
  rewrite (proj2 (proj2 (proj2 (associativity_of_others n)))),
    (proj2 (proj2 (precedence_of_others n))), (proj2 (isComma_of_others n)),
    equalParens_of_others, opString_of_set.
  repeat split; assumption.
Qed.

Lemma Operator_new_node_witness :
  exists t s',
    Parser.Operator_new Class.WeakInequalities (Parser.AStr Class.le_sign) Parser.initial
    = Ok (t, s')
    /\ Parser.value t = "<="
    /\ Ast.associativity_of (Parser.ast t) = Some "left"
    /\ (exists p, Ast.precedence_of (Parser.ast t) = Some p /\ (p == 3 # 4)%Q)
    /\ Ast.opString_of (Parser.ast t) = Some (Some (" " ++ Class.le_sign ++ " ")%string).
Proof.
  destruct (Parser.Operator_new Class.WeakInequalities (Parser.AStr Class.le_sign) Parser.initial)
    as [[t s']| | |] eqn:E; try (vm_compute in E; discriminate E).
  assert (A : Parser.associativity t = Some "left")
    by (vm_compute in E; injection E as <- _; reflexivity).
  destruct (Operator_new_node _ _ _ _ _ "left" E A) as [A' [P [_ [_ O]]]].
  exists t, s'. split; [reflexivity|].
  split; [vm_compute in E; injection E as <- _; reflexivity|].
  split; [exact A'|]. split.
  - destruct P as [p [P Q]]. exists p. split; [exact P|]. rewrite Q.
    vm_compute in E. injection E as <- _. reflexivity.
  - rewrite O. vm_compute in E. injection E as <- _. reflexivity.
Defined.

(** ** Delimiters: the tree of a group *)

(** X17: the tree of a delimiter token.  Without children it is the error
    "Empty delimiters not allowed", unless the class allows an empty group
    or the token is a close delimiter.  With one child, removable delimiters
    give the child itself when it is not an operator node or when its
    precedence is above [removePrecedence]; an operator at or below
    [removePrecedence], delimiters that are not removable and groups of two
    or more children keep the node of the group. *)
Theorem Delimiter_tree_cases (t : Parser.Token) :
  Parser.impl t = Class.IDelimiter ->
  (Parser.children t = [] ->
   Parser.tree t = if negb (Parser.allowEmpty t) && negb (Parser.isClose t)
                   then Throw "Empty delimiters not allowed"
                   else Ok (Parser.ast t))
  /\ (forall x, Parser.children t = [x] -> Parser.removable t = true ->
                Ast.subclass (Ast.class_of x) Ast.Op = false ->
                Parser.tree t = Ok x)
  /\ (forall x p, Parser.children t = [x] -> Parser.removable t = true ->
                  Ast.precedence_of x = Some p ->
                  (Parser.removePrecedence t < p)%Q ->
                  Parser.tree t = Ok x)
  /\ (forall x p, Parser.children t = [x] ->
                  Ast.subclass (Ast.class_of x) Ast.Op = true ->
                  Ast.precedence_of x = Some p ->
                  (p <= Parser.removePrecedence t)%Q ->
                  Parser.tree t = Ok (Parser.ast t))
  /\ (forall x, Parser.children t = [x] -> Parser.removable t = false ->
                Parser.tree t = Ok (Parser.ast t))
  /\ (2 <= List.length (Parser.children t) -> Parser.tree t = Ok (Parser.ast t)).
Proof.
  intro I. unfold Parser.tree. rewrite I.
  unfold Parser.Delimiter_tree, Parser.canBeRemoved, Parser.child, Parser.isast.
  split; [|split; [|split; [|split; [|split]]]].
  - intros ->. simpl. destruct (negb (Parser.allowEmpty t) && negb (Parser.isClose t));
      [reflexivity|]. rewrite andb_false_r. reflexivity.
  - intros x -> R O. rewrite R. simpl. rewrite O. reflexivity.
  - intros x p -> R P L. rewrite R. simpl. rewrite P.
    assert (Q : Qle_bool p (Parser.removePrecedence t) = false).
    { destruct (Qle_bool p (Parser.removePrecedence t)) eqn:E; [|reflexivity].
      apply Qle_bool_iff in E. exfalso. apply (Qlt_not_le _ _ L E). }
    rewrite Q. simpl. rewrite orb_true_r. reflexivity.
  - intros x p -> O P L. simpl. rewrite O, P.
    assert (Q : Qle_bool p (Parser.removePrecedence t) = true) by (apply Qle_bool_iff; exact L).
    rewrite Q. simpl. rewrite andb_false_r. reflexivity.
  - intros x -> R. rewrite R. reflexivity.
  - intro L. destruct (Parser.children t) as [|x [|y l]]; simpl in L; try lia.
    simpl. rewrite andb_false_r. reflexivity.
Qed.

Definition parens_around (x : Ast.node) : Parser.Token :=
Parser.set_ast (Ast.append (Parser.ast (token_of Class.Parens "(")) x) (token_of Class.Parens "(").

Lemma Delimiter_tree_cases_witness :
  Parser.tree (parens_around (Ast.new_Leaf Ast.Name "x")) = Ok (Ast.new_Leaf Ast.Name "x")
  /\ Parser.tree (token_of Class.Parens "(") = Throw "Empty delimiters not allowed".
Proof.
  split.
  - apply (proj1 (proj2 (Delimiter_tree_cases (parens_around (Ast.new_Leaf Ast.Name "x"))
                           eq_refl)) (Ast.new_Leaf Ast.Name "x")); reflexivity.
  - apply (proj1 (Delimiter_tree_cases (token_of Class.Parens "(") eq_refl)). reflexivity.
Defined.

(** ** Look-ahead tokens: what is saved *)

(** X18: a look-ahead token on top of the stack that is followed by a token
    that is neither a delimiter nor of its own class saves the token after
    those it has saved, and nothing is pushed: the stack is as it was but for
    the saved list.  An open angle that is not closed does the same, and
    records a comma that it meets. *)
Theorem LookAhead_saves n (this token : Parser.Token) rest i c :
  Parser.isa "Delimiter" token = false ->
  Class.derives (Parser.cls token) (Class.name (Parser.cls this)) = false ->
  let s := Parser.mkState (rest ++ [this]) i c in
  (Parser.impl this = Class.ILookAhead ->
   Parser.push (Parser.engine (S n)) token s
   = Ok (tt, Parser.mkState
               (rest ++ [Parser.set_saved (Parser.saved this ++ [token]) this]) i c))
  /\ (Parser.impl this = Class.IAngle -> Parser.isClosed this = false ->
      Parser.push (Parser.engine (S n)) token s
      = Ok (tt, Parser.mkState
                  (rest ++ [Parser.set_saved (Parser.saved this ++ [token])
                              (if Parser.isa "Operator" token && String.eqb (Parser.value token) ","
                               then Parser.set_hasComma true this else this)]) i c)).
Proof.
  intros D K s. subst s. simpl Parser.push. rewrite Stack_push_pushed.
  unfold top_of. simpl Parser.stack. rewrite last_snoc.
  unfold Parser.followedBy, Parser.LookAhead_followedBy. split.
  - intro I. rewrite I. unfold Parser.bind at 1. unfold Parser.ret at 1.
    unfold Parser.LookAhead_followedByCheck. rewrite D. cbn [fst snd].
    rewrite K. unfold Parser.bind at 1. rewrite replaceTop_snoc.
    unfold Parser.ret, pushed, with_stack. simpl. rewrite app_nil_r. reflexivity.
  - intros I C. rewrite I. unfold Parser.bind at 1.
    unfold Parser.Angle_followedByCheck, Parser.Angle_checkIsClosed. rewrite C. simpl negb.
    cbv iota. unfold Parser.bind at 1. unfold Parser.ret at 1. cbv iota. rewrite D.
    destruct (Parser.isa "Operator" token && String.eqb (Parser.value token) ",");
      unfold Parser.ret at 1; cbn [fst snd];
      change (Parser.cls (Parser.set_hasComma true this)) with (Parser.cls this);
      rewrite K; unfold Parser.bind at 1; rewrite replaceTop_snoc;
      unfold Parser.ret, pushed, with_stack; simpl; rewrite app_nil_r; reflexivity.
Qed.

Lemma LookAhead_saves_witness :
  Parser.push (Parser.engine 1) (token_of Class.Identifier "x")
    (Parser.mkState ([] ++ [token_of Class.Bar "|"]) 0 [])
  = Ok (tt, Parser.mkState
              ([] ++ [Parser.set_saved (Parser.saved (token_of Class.Bar "|")
                                          ++ [token_of Class.Identifier "x"])
                        (token_of Class.Bar "|")]) 0 []).
Proof.
  apply (proj1 (LookAhead_saves 0 (token_of Class.Bar "|") (token_of Class.Identifier "x")
                  [] 0 [] eq_refl eq_refl)).
  reflexivity.
Defined.

(** ** Implicit multiplication *)

(** The token that [createToken('Juxtapose')] makes when the identity [i] is
    the next one. *)
Definition juxtapose (i : nat) : Parser.Token :=
match Parser.construct Class.Juxtapose Parser.AUndef Parser.AUndef Parser.AUndef
        (Parser.mkState [] i []) with
| Ok (t, _) => t
| _ => token_of Class.Juxtapose "*"
end.

Lemma construct_Juxtapose (s : Parser.State) :
  Parser.construct Class.Juxtapose Parser.AUndef Parser.AUndef Parser.AUndef s
  = Ok (juxtapose (Parser.nextId s),
        Parser.mkState (Parser.stack s) (S (Parser.nextId s)) (Parser.cells s)).
Proof. destruct s as [l i c]. reflexivity. Qed.

Lemma juxtapose_node (i : nat) :
  Parser.ast (juxtapose i)
  = Ast.Node Ast.Bop
      (Ast.set_opString (Some " ") (Ast.set_precedence 2 (Ast.plain (Ast.VStr "*")))) [] None
  /\ Parser.value (juxtapose i) = "*"
  /\ Parser.tid (juxtapose i) = i
  /\ Parser.precedence (juxtapose i) = 2%Q
  /\ Parser.cls (juxtapose i) = Class.Juxtapose.
Proof. repeat split; reflexivity. Qed.

Lemma default_followedBy_null push (t token : Parser.Token) (s : Parser.State) :
  default_followedBy t = true ->
  Parser.followedBy push t token s = Ok ((None, token), s).
Proof.
  unfold default_followedBy, Parser.followedBy.
  destruct (Parser.impl t); intro H; try discriminate H; reflexivity.
Qed.

Lemma checkOperator_lower push appendTop this t prev rest i c :
  Parser.isa "Operator" prev && Parser.checkIsHigherPrecedence this prev t = false ->
  Parser.checkOperator push appendTop this t (Parser.mkState (rest ++ [prev; t]) i c)
  = Ok (None, Parser.mkState (rest ++ [prev]) i c).
Proof.
  intro H. change (rest ++ [prev; t]) with (rest ++ ([prev] ++ [t])). rewrite app_assoc.
  unfold Parser.checkOperator.
  unfold Parser.bind at 1. rewrite pop_snoc.
  unfold Parser.bind at 1. rewrite top_snoc.
  unfold Parser.bind at 1. unfold Parser.need at 1. unfold Parser.ret at 1.
  rewrite H. reflexivity.
Qed.

(** X19: an operand pushed over an operand makes a product.  Over the
    operand [t], which stands on a token [prev] that is not an operator, or
    is an operator of a precedence below 2, the push of the operand [this]
    first pushes a new operator "*" of precedence 2 (rendered as a space),
    which takes the tree of [t] as its first child and stays open in the
    place of [t], and then [this] above it. *)
Theorem implicit_multiplication n (this t prev : Parser.Token) rest i c (a : Ast.node) :
  Parser.impl this = Class.IOperand ->
  Class.get "JuxtaposeClass" (Parser.cls this) = None ->
  Parser.isa "Operand" t = true -> default_followedBy t = true ->
  Parser.tree t = Ok a -> Parser.applyData t = None ->
  Parser.isa "Operator" prev = false \/ (Parser.precedence prev < 2)%Q ->
  Parser.push (Parser.engine (2 + n)) this (Parser.mkState (rest ++ [prev; t]) i c)
  = Ok (tt, Parser.mkState (rest ++ [prev; opened (juxtapose i) t a; this]) (S i) c)
  /\ Parser.ast (opened (juxtapose i) t a)
     = Ast.Node Ast.Bop
         (Ast.set_opString (Some " ") (Ast.set_precedence 2 (Ast.plain (Ast.VStr "*")))) [a] None.
Proof.
  intros I J O F T D P. split; [|rewrite opened_ast; reflexivity].
  assert (L : Parser.isa "Operator" prev
              && Parser.checkIsHigherPrecedence (juxtapose i) prev t = false).
  { destruct P as [P | P]; [rewrite P; reflexivity|].
    apply andb_false_intro2.
    change (Parser.Operator_checkIsHigherPrecedence (juxtapose i) prev = false).
    destruct (Parser.Operator_checkIsHigherPrecedence (juxtapose i) prev) eqn:E; [|reflexivity].
    apply higher_iff in E. destruct E as [E | [E _]]; exfalso.
    - change (Parser.precedence (juxtapose i)) with 2%Q in E.
      apply (Qlt_irrefl 2). apply Qlt_trans with (Parser.precedence prev); assumption.
    - change (Parser.precedence (juxtapose i)) with 2%Q in E.
      rewrite E in P. apply (Qlt_irrefl 2 P). }
  change (2 + n) with (S (S n)). simpl Parser.push. rewrite Stack_push_pushed.
  unfold top_of. simpl Parser.stack.
  change (rest ++ [prev; t]) with (rest ++ ([prev] ++ [t])). rewrite app_assoc, last_snoc.
  rewrite (default_followedBy_null _ t this _ F).
  simpl Parser.stack. rewrite last_snoc.
  unfold Parser.follows at 1. rewrite I. unfold Parser.Operand_follows.
  unfold Parser.bind at 1. unfold Parser.need at 1. unfold Parser.ret at 1.
  rewrite O. cbn [negb].
  unfold Parser.bind at 1. unfold Parser.createToken.
  unfold Parser.bind at 1. unfold Parser.classFor.
  change ("Juxtapose" ++ "Class")%string with "JuxtaposeClass". rewrite J.
  change (Parser.lift (Parser.getBaseClass "Juxtapose")) with
    (Parser.lift (Ok Class.Juxtapose)).
  unfold Parser.lift at 1. rewrite construct_Juxtapose. simpl Parser.nextId.
  simpl Parser.stack. simpl Parser.cells.
  (* the push of the operator *)
  unfold Parser.bind at 1. rewrite Stack_push_pushed.
  unfold top_of. simpl Parser.stack. rewrite last_snoc.
  rewrite (default_followedBy_null _ t (juxtapose i) _ F).
  simpl Parser.stack. rewrite last_snoc.
  unfold Parser.follows at 1.
  change (Parser.impl (juxtapose i)) with Class.IOperator. cbv iota.
  rewrite (Operator_follows_operand _ _ (juxtapose i) t a _ eq_refl
             ltac:(discriminate) ltac:(discriminate) O T D).
  rewrite <- app_assoc. simpl app.
  rewrite (checkOperator_lower _ _ (juxtapose i) t prev rest (S i) c L).
  unfold pushed, with_stack. cbn [Parser.stack Parser.nextId Parser.cells].
  rewrite <- app_assoc. cbn [app].
  (* the push of the operand *)
  unfold Parser.bind at 1. rewrite Stack_push_pushed.
  unfold top_of. cbn [Parser.stack].
  change (rest ++ [prev; opened (juxtapose i) t a])
    with (rest ++ ([prev] ++ [opened (juxtapose i) t a])).
  rewrite app_assoc, last_snoc.
  assert (C : Parser.cls (opened (juxtapose i) t a) = Class.Juxtapose).
  { unfold opened. destruct (Parser.isa "Apply" t); simpl; rewrite attach_cls; reflexivity. }
  assert (F' : default_followedBy (opened (juxtapose i) t a) = true)
    by (unfold default_followedBy, Parser.impl; rewrite C; reflexivity).
  rewrite (default_followedBy_null _ _ this _ F').
  cbn [Parser.stack]. rewrite last_snoc.
  unfold Parser.follows at 1. rewrite I. unfold Parser.Operand_follows.
  unfold Parser.bind at 1. unfold Parser.need at 1. unfold Parser.ret at 1.
  assert (O' : Parser.isa "Operand" (opened (juxtapose i) t a) = false)
    by (unfold Parser.isa; rewrite C; reflexivity).
  rewrite O'. cbn [negb].
  unfold Parser.ret at 1. unfold pushed, with_stack.
  cbn [Parser.stack Parser.nextId Parser.cells].
  unfold Parser.bind, Parser.ret. cbn [Parser.stack Parser.nextId Parser.cells].
  rewrite <- !app_assoc. cbn [app]. rewrite ?app_nil_r. reflexivity.
Qed.

Lemma implicit_multiplication_witness :
  Parser.push (Parser.engine 2) (token_of Class.Identifier "y")
    (Parser.mkState ([] ++ [token_of Class.Parens "("; token_of Class.Identifier "x"]) 5 [])
  = Ok (tt, Parser.mkState
              ([] ++ [token_of Class.Parens "(";
                      opened (juxtapose 5) (token_of Class.Identifier "x")
                        (Ast.new_Leaf Ast.Name "x");
                      token_of Class.Identifier "y"]) 6 [])
  /\ Parser.ast (opened (juxtapose 5) (token_of Class.Identifier "x") (Ast.new_Leaf Ast.Name "x"))
     = Ast.Node Ast.Bop
         (Ast.set_opString (Some " ") (Ast.set_precedence 2 (Ast.plain (Ast.VStr "*"))))
         [Ast.new_Leaf Ast.Name "x"] None.
Proof.
  apply (implicit_multiplication 0 (token_of Class.Identifier "y") (token_of Class.Identifier "x")
           (token_of Class.Parens "(") [] 5 [] (Ast.new_Leaf Ast.Name "x"));
    try reflexivity.
  left. reflexivity.
Defined.

(** ** Closing a group *)

(** The tree token that takes the place of removable delimiters: the token
    that [createToken('Tree', ...)] makes when the identity [i] is the next
    one, with the tree [a]; it can be applied when what it replaces could. *)
Definition tree_token (i : nat) (a : Ast.node) (canApply : bool) : Parser.Token :=
match Parser.Token_new Class.Tree Parser.AUndef (Parser.mkState [] i []) with
| Ok (t, _) =>
    if canApply then Parser.set_ast a t
    else Parser.set_applyData None (Parser.set_canApply false (Parser.set_ast a t))
| _ => token_of Class.Identifier "x"
end.

Lemma construct_Tree (tk : Parser.Token) (a : Ast.node) (s : Parser.State) :
  Parser.tree tk = Ok a -> Parser.applyData tk = None ->
  Parser.construct Class.Tree (Parser.ATok tk) Parser.AUndef Parser.AUndef s
  = Ok (tree_token (Parser.nextId s) a (Parser.canApply tk),
        Parser.mkState (Parser.stack s) (S (Parser.nextId s)) (Parser.cells s)).
Proof.
  intros T D. destruct s as [l i c].
  change (Parser.construct Class.Tree (Parser.ATok tk) Parser.AUndef Parser.AUndef
            (Parser.mkState l i c))
    with (Parser.Tree_new Class.Tree (Parser.ATok tk) (Parser.mkState l i c)).
  unfold Parser.Tree_new, Parser.token_arg.
  unfold Parser.bind at 1. unfold Parser.ret at 1.
  unfold Parser.bind at 1.
  change (Parser.Token_new Class.Tree Parser.AUndef (Parser.mkState l i c))
    with (Ok (Parser.set_ast (Ast.new_Leaf Ast.Name "tree") (tree_token i a true),
              Parser.mkState l (S i) c)).
  unfold Parser.bind at 1. unfold Parser.lift. rewrite T.
  unfold Parser.saveFunction. rewrite D. unfold tree_token. simpl.
  destruct (Parser.canApply tk); reflexivity.
Qed.

Lemma appendTop_attach_delimiter n receiver t a rest i c :
  isDelimiter receiver = true ->
  Parser.tree t = Ok a ->
  Parser.applyData t = None ->
  Parser.appendTop (Parser.engine (S n)) t (Parser.mkState (rest ++ [receiver]) i c)
  = Ok (attach receiver t a, Parser.mkState (rest ++ [attach receiver t a]) i c).
Proof.
  intros P T D. simpl. unfold Parser.appendTop_step, Parser.bind.
  rewrite top_snoc. simpl. unfold isDelimiter in P. unfold Parser.localAppend.
  destruct (Parser.impl receiver); try discriminate;
    rewrite (Token_append_attach receiver t a _ T D); simpl;
    rewrite removelast_last; reflexivity.
Qed.

Lemma closeLoop_S n :
  Parser.closeLoop (Parser.engine (S n))
  = Parser.closeLoop_step (Parser.push (Parser.engine n)) (Parser.appendTop (Parser.engine n))
      (Parser.closeLoop (Parser.engine n)).
Proof. reflexivity. Qed.

Lemma push_S n :
  Parser.push (Parser.engine (S n))
  = Parser.Stack_push (Parser.followedBy (Parser.push (Parser.engine n)))
      (Parser.follows (Parser.push (Parser.engine n)) (Parser.appendTop (Parser.engine n))
         (Parser.closeLoop (Parser.engine n))).
Proof. reflexivity. Qed.

(** X20: a close delimiter over one operand between removable delimiters.
    The open delimiter [open], which [item] closes, has no child yet and
    stands on the token [below]; the operand [x] above it has the tree [a],
    which is not an operator node.  The closing loop pops the operand into
    the delimiter and the delimiter off the stack, and pushes in their place
    one tree token whose tree is [a]: the delimiters leave no node.  The
    close delimiter itself is not pushed. *)
Theorem removable_delimiters_close n (item open x below : Parser.Token) rest i c (a : Ast.node) :
  Parser.impl open = Class.IDelimiter ->
  Parser.isClosedBy open item = true -> Parser.isa "Start" open = false ->
  Parser.removable open = true -> Class.get "TreeClass" (Parser.cls open) = None ->
  Parser.applyData open = None ->
  Ast.isLeaf (Ast.class_of (Parser.ast open)) = false -> Parser.children open = [] ->
  Parser.impl x = Class.IOperand -> Parser.ast x = a -> Parser.applyData x = None ->
  Ast.subclass (Ast.class_of a) Ast.Op = false ->
  default_followedBy below = true -> Parser.isa "Operand" below = false ->
  let g := tree_token i a (Parser.canApply x && Parser.canApply open) in
  Parser.closeLoop (Parser.engine (3 + n)) item (Parser.mkState (rest ++ [below; open; x]) i c)
  = Ok ([], Parser.mkState (rest ++ [below; g]) (S i) c)
  /\ Parser.ast g = a /\ Parser.impl g = Class.ITree.
Proof.
  intros Io Cl St Rm Tc Do Lf Ch Ix Ax Dx Op Fb Ob g.
  assert (Tx : Parser.tree x = Ok a) by (unfold Parser.tree; rewrite Ix, <- Ax; reflexivity).
  assert (Dl : isDelimiter open = true) by (unfold isDelimiter; rewrite Io; reflexivity).
  set (open' := attach open x a).
  assert (Co : Parser.cls open' = Parser.cls open) by apply attach_cls.
  assert (Ao : Parser.children open' = [a]).
  { unfold Parser.children, open'. rewrite attach_ast.
    unfold Parser.children in Ch. unfold Ast.append, Ast.Group_append, Ast.AstObject_append.
    rewrite Op, Lf. simpl.
    destruct (Parser.ast open) as [k o ch e]. simpl in *. rewrite Lf in *. subst ch.
    destruct (Ast.subclass k Ast.Group); simpl; rewrite Lf; reflexivity. }
  assert (Ra : Parser.removable open' = true).
  { unfold open', attach. destruct (negb (Parser.canApply x)); exact Rm. }
  assert (Rb : Parser.canBeRemoved open' = true).
  { unfold Parser.canBeRemoved, Parser.child, Parser.isast. rewrite Ra, Ao. simpl.
    rewrite Op. reflexivity. }
  assert (To : Parser.tree open' = Ok a).
  { unfold Parser.tree, Parser.impl. rewrite Co. fold (Parser.impl open). rewrite Io.
    unfold Parser.Delimiter_tree. rewrite Rb. unfold Parser.child. rewrite Ao. reflexivity. }
  assert (Da : Parser.applyData open' = None).
  { unfold open', attach. destruct (negb (Parser.canApply x)); [reflexivity | exact Do]. }
  assert (Ca : Parser.canApply open' = Parser.canApply x && Parser.canApply open).
  { unfold open', attach. destruct (Parser.canApply x); reflexivity. }
  split; [|split; [unfold g, tree_token; simpl;
                   destruct (Parser.canApply x && Parser.canApply open); reflexivity
                  | unfold g, tree_token; simpl;
                    destruct (Parser.canApply x && Parser.canApply open); reflexivity]].
  change (3 + n) with (S (S (S n))).
  (* the operand goes into the delimiter *)
  rewrite closeLoop_S. unfold Parser.closeLoop_step at 1.
  change (rest ++ [below; open; x]) with (rest ++ ([below; open] ++ [x])). rewrite app_assoc.
  unfold Parser.bind at 1. rewrite top_snoc.
  unfold Parser.bind at 1. unfold Parser.group at 1. rewrite Ix. unfold Parser.Token_group.
  unfold Parser.bind at 1. rewrite pop_snoc.
  change (rest ++ [below; open]) with (rest ++ ([below] ++ [open])). rewrite app_assoc.
  unfold Parser.bind at 1.
  rewrite (appendTop_attach_delimiter _ open x a (rest ++ [below]) i c Dl Tx Dx).
  fold open'. unfold Parser.ret at 1. cbv iota.
  (* the delimiter is closed *)
  rewrite closeLoop_S. unfold Parser.closeLoop_step at 1.
  unfold Parser.bind at 1. rewrite top_snoc.
  unfold Parser.bind at 1. unfold Parser.group at 1.
  unfold Parser.impl at 1. rewrite Co. fold (Parser.impl open). rewrite Io.
  unfold Parser.Delimiter_group.
  assert (Cl' : Parser.isClosedBy open' item = true).
  { unfold Parser.isClosedBy, Parser.close in *. rewrite Co. exact Cl. }
  assert (St' : Parser.isa "Start" open' = false).
  { unfold Parser.isa in *. rewrite Co. exact St. }
  rewrite Cl', St', Rb. cbn [negb].
  unfold Parser.bind at 1. unfold Parser.bind at 1. unfold Parser.bind at 1.
  rewrite pop_snoc.
  unfold Parser.bind at 1. unfold Parser.createToken.
  unfold Parser.bind at 1. unfold Parser.classFor.
  change ("Tree" ++ "Class")%string with "TreeClass". rewrite Co, Tc.
  change (Parser.lift (Parser.getBaseClass "Tree")) with (Parser.lift (Ok Class.Tree)).
  unfold Parser.lift at 1. rewrite (construct_Tree open' a _ To Da).
  cbn [Parser.stack Parser.nextId Parser.cells]. rewrite Ca. fold g.
  (* the tree token is pushed *)
  unfold Parser.bind at 1. rewrite push_S, Stack_push_pushed.
  unfold top_of. cbn [Parser.stack]. rewrite last_snoc.
  rewrite (default_followedBy_null _ below g _ Fb).
  cbn [Parser.stack]. rewrite last_snoc.
  unfold Parser.follows at 1.
  assert (Ig : Parser.impl g = Class.ITree).
  { unfold g, tree_token. simpl.
    destruct (Parser.canApply x && Parser.canApply open); reflexivity. }
  rewrite Ig. unfold Parser.Operand_follows.
  unfold Parser.bind at 1. unfold Parser.need at 1. unfold Parser.ret at 1.
  rewrite Ob. cbn [negb]. unfold Parser.ret at 1. unfold pushed, with_stack.
  cbn [Parser.stack Parser.nextId Parser.cells].
  rewrite Da. unfold Parser.bind, Parser.ret.
  rewrite <- !app_assoc. reflexivity.
Qed.

Lemma removable_delimiters_close_witness :
  Parser.closeLoop (Parser.engine 3) (token_of Class.Parens ")")
    (Parser.mkState ([] ++ [token_of Class.Plus "+"; token_of Class.Parens "(";
                            token_of Class.Identifier "x"]) 7 [])
  = Ok ([], Parser.mkState
              ([] ++ [token_of Class.Plus "+"; tree_token 7 (Ast.new_Leaf Ast.Name "x") false]) 8 [])
  /\ Parser.ast (tree_token 7 (Ast.new_Leaf Ast.Name "x") false) = Ast.new_Leaf Ast.Name "x"
  /\ Parser.impl (tree_token 7 (Ast.new_Leaf Ast.Name "x") false) = Class.ITree.
Proof.
  apply (removable_delimiters_close 0 (token_of Class.Parens ")") (token_of Class.Parens "(")
           (token_of Class.Identifier "x") (token_of Class.Plus "+") [] 7 []
           (Ast.new_Leaf Ast.Name "x")); reflexivity.
Defined.

(** ** Function application *)

Lemma autoApply_of_set n b :
  Ast.autoApply_of (Ast.with_own (Ast.set_autoApply b) n) = Some b.
Proof. own_fields n. Qed.

(** The precedence of the class [ApplyOp], which [ApplyOp.tree] compares the
    precedence of the token with. *)
Definition apply_precedence : Q :=
match Class.number_ "precedence" Class.ApplyOp with Some q => q | None => 0%Q end.

(** X21: the tree of an apply operator.  When the first child is a name, the
    tree is the node of the operator with the value of the name as its value
    and the other children as the arguments, and it reads [autoApply] as
    whether the operator has the precedence of the implicit application.
    When the first child is another node, the tree is a function expression
    with that node as its head and the other children as the arguments. *)
Theorem ApplyOp_tree_cases (t : Parser.Token) (f : Ast.node) (args : list Ast.node) :
  Parser.impl t = Class.IApplyOp \/ Parser.impl t = Class.IApplyArgument ->
  Parser.children t = f :: args ->
  let auto := Qeq_bool apply_precedence (Parser.precedence t) in
  (Ast.subclass (Ast.class_of f) Ast.Name = true ->
   exists n, Parser.tree t = Ok n
             /\ Ast.class_of n = Ast.class_of (Parser.ast t)
             /\ Ast.value_of n = Ast.value_of f
             /\ Ast.childNodes n = args
             /\ Ast.autoApply_of n = Some auto)
  /\ (Ast.subclass (Ast.class_of f) Ast.Name = false ->
      Class.string_ "FuncExpAstClass" (Parser.cls t) = None ->
      Parser.tree t = Ok (Ast.new_FuncExp (Some f) args auto apply_precedence)
      /\ Ast.exp_of (Ast.new_FuncExp (Some f) args auto apply_precedence) = Some f
      /\ Ast.childNodes (Ast.new_FuncExp (Some f) args auto apply_precedence) = args).
Proof.
  intros I C auto.
  assert (E : Parser.tree t = Parser.ApplyOp_tree t)
    by (unfold Parser.tree; destruct I as [I | I]; rewrite I; reflexivity).
  rewrite E. unfold Parser.ApplyOp_tree, Parser.child, Parser.isast. rewrite C.
  fold apply_precedence. fold auto. simpl nth_error. cbv iota. simpl tl.
  unfold Parser.children in C.
  destruct (Parser.ast t) as [k o ch e] eqn:A. simpl Ast.class_of. split.
  - intros N. rewrite N.
    assert (L : Ast.isLeaf k = false).
    { simpl in C. destruct (Ast.isLeaf k); [discriminate | reflexivity]. }
    set (n0 := Ast.Node k (Ast.set_value (Ast.value_of f) o) args e).
    assert (P : forall n, (n = n0 \/ n = Ast.with_own (Ast.set_autoApply auto) n0) ->
                Ast.class_of n = k /\ Ast.value_of n = Ast.value_of f /\ Ast.childNodes n = args).
    { intros n [-> | ->]; unfold n0; simpl; rewrite L; destruct o; repeat split; reflexivity. }
    destruct (Ast.autoApply_of n0) as [b|] eqn:B.
    + destruct (Bool.eqb b auto) eqn:Q.
      * exists n0. split; [reflexivity|]. destruct (P n0 (or_introl eq_refl)) as [P1 [P2 P3]].
        split; [exact P1|]. split; [exact P2|]. split; [exact P3|].
        apply Bool.eqb_prop in Q. subst b. exact B.
      * eexists. split; [reflexivity|].
        destruct (P _ (or_intror eq_refl)) as [P1 [P2 P3]].
        split; [exact P1|]. split; [exact P2|]. split; [exact P3|]. apply autoApply_of_set.
    + eexists. split; [reflexivity|].
      destruct (P _ (or_intror eq_refl)) as [P1 [P2 P3]].
      split; [exact P1|]. split; [exact P2|]. split; [exact P3|]. apply autoApply_of_set.
  - intros N F. rewrite N. unfold Parser.astClassFor.
    change ("FuncExp" ++ "AstClass")%string with "FuncExpAstClass". rewrite F.
    split; [reflexivity|]. split; reflexivity.
Qed.

Definition sin_applied : Parser.Token :=
Parser.set_ast
  (Ast.new_AstNode Ast.FuncApply "apply" [Ast.new_Leaf Ast.FuncName "sin"; Ast.new_Leaf Ast.Name "x"])
  h_apply.

Lemma ApplyOp_tree_cases_witness :
  exists n, Parser.tree sin_applied = Ok n
            /\ Ast.class_of n = Ast.FuncApply
            /\ Ast.value_of n = Ast.VStr "sin"
            /\ Ast.childNodes n = [Ast.new_Leaf Ast.Name "x"]
            /\ Ast.autoApply_of n = Some true.
Proof.
  apply (proj1 (ApplyOp_tree_cases sin_applied (Ast.new_Leaf Ast.FuncName "sin")
                  [Ast.new_Leaf Ast.Name "x"] (or_introl eq_refl) eq_refl)).
  reflexivity.
Defined.

(** The pending application that follows a function on the stack: the token
    that [createToken('ApplyPending', f)] makes when the identity [i] is the
    next one, with the function data of [f]. *)
Definition pending (i : nat) (data : option Parser.ApplyData) : Parser.Token :=
match Parser.Operator_new Class.ApplyPending Parser.AUndef (Parser.mkState [] i []) with
| Ok (t, _) => Parser.set_applyData data t
| _ => token_of Class.Identifier "x"
end.

Lemma construct_ApplyPending (f : Parser.Token) (s : Parser.State) :
  Parser.construct Class.ApplyPending (Parser.ATok f) Parser.AUndef Parser.AUndef s
  = Ok (pending (Parser.nextId s) (Parser.applyData f),
        Parser.mkState (Parser.stack s) (S (Parser.nextId s)) (Parser.cells s)).
Proof. destruct s as [l i c]. reflexivity. Qed.

(** X22: a function token that is pushed for the first time over a token
    that is not an operand comes onto the stack marked as pushed, with a
    pending application above it that has the function data of the function
    itself (the same cell for the argument count) and the precedence and the
    associativity of the implicit application; a function token that was
    pushed before comes alone. *)
Theorem Apply_follows_pending push appendTop closeLoop (this t : Parser.Token)
  (s : Parser.State) :
  Parser.impl this = Class.IApply ->
  (Parser.pushed this = true ->
   Parser.follows push appendTop closeLoop this (Some t) s = Ok ([this], s))
  /\ (Parser.pushed this = false -> Parser.isa "Operand" t = false ->
      Class.get "ApplyPendingClass" (Parser.cls this) = None ->
      let a := pending (Parser.nextId s) (Parser.applyData this) in
      Parser.follows push appendTop closeLoop this (Some t) s
      = Ok ([Parser.set_pushed true this; a],
            Parser.mkState (Parser.stack s) (S (Parser.nextId s)) (Parser.cells s))
      /\ Parser.impl a = Class.IApplyPending
      /\ Parser.applyData a = Parser.applyData this
      /\ Parser.precedence a = apply_precedence
      /\ Parser.associativity a = Some "right").
Proof.
  intro I. unfold Parser.follows. rewrite I. unfold Parser.Apply_follows. split.
  - intros ->. reflexivity.
  - intros P O C. rewrite P.
    split; [|repeat split; reflexivity].
    unfold Parser.bind at 1. unfold Parser.need at 1. unfold Parser.ret at 1.
    unfold Parser.bind at 1. rewrite O. unfold Parser.ret at 1.
    unfold Parser.bind at 1. unfold Parser.createToken.
    unfold Parser.bind at 1. unfold Parser.classFor.
    change ("ApplyPending" ++ "Class")%string with "ApplyPendingClass".
    change (Parser.cls (Parser.set_pushed true this)) with (Parser.cls this). rewrite C.
    change (Parser.lift (Parser.getBaseClass "ApplyPending"))
      with (Parser.lift (Ok Class.ApplyPending)).
    unfold Parser.lift at 1. rewrite construct_ApplyPending. reflexivity.
Qed.

Lemma Apply_follows_pending_witness :
  Parser.follows (Parser.push (Parser.engine 0)) (Parser.appendTop (Parser.engine 0))
    (Parser.closeLoop (Parser.engine 0)) (token_of Class.Trig "sin")
    (Some (token_of Class.Parens "("))
    (Parser.mkState [token_of Class.Parens "("] 3 [Parser.Count 1])
  = Ok ([Parser.set_pushed true (token_of Class.Trig "sin");
         pending 3 (Parser.applyData (token_of Class.Trig "sin"))],
        Parser.mkState [token_of Class.Parens "("] 4 [Parser.Count 1]).
Proof.
  apply (proj2 (Apply_follows_pending (Parser.push (Parser.engine 0))
                  (Parser.appendTop (Parser.engine 0)) (Parser.closeLoop (Parser.engine 0))
                  (token_of Class.Trig "sin")
                  (token_of Class.Parens "(")
                  (Parser.mkState [token_of Class.Parens "("] 3 [Parser.Count 1]) eq_refl));
    reflexivity.
Defined.

(** The implicit application operator: the token that
    [createToken('ApplyOp', pending)] makes when the identity [i] is the next
    one, with the function data of the pending application. *)
Definition apply_op (i : nat) (data : option Parser.ApplyData) : Parser.Token :=
match Parser.Operator_new Class.ApplyOp Parser.AUndef (Parser.mkState [] i []) with
| Ok (t, _) => Parser.set_applyData data t
| _ => token_of Class.Identifier "x"
end.

Lemma construct_ApplyOp (p : Parser.Token) (s : Parser.State) :
  Parser.construct Class.ApplyOp (Parser.ATok p) Parser.AUndef Parser.AUndef s
  = Ok (apply_op (Parser.nextId s) (Parser.applyData p),
        Parser.mkState (Parser.stack s) (S (Parser.nextId s)) (Parser.cells s)).
Proof. destruct s as [l i c]. reflexivity. Qed.

(** The apply operator with the function as its first child. *)
Definition applied (i : nat) (d : Parser.ApplyData) (fa : Ast.node) : Parser.Token :=
Parser.set_ast (Ast.append (Parser.ast (apply_op i (Some d))) fa) (apply_op i (Some d)).

(** X23: a function that applies without parentheses takes the operand that
    follows it.  With the function [f] and its pending application on top of
    the stack, over a token [prev] that is no operator of a precedence above
    that of the application, the push of an operand that is not an argument
    group takes the pending application off the stack, pushes an apply
    operator that has the tree of the function as its first child and the
    function data of the function, and pushes the operand above it. *)
Theorem implicit_application n (x f p prev : Parser.Token) rest i c
  (d : Parser.ApplyData) (fa : Ast.node) :
  Parser.impl x = Class.IOperand -> Parser.isa "Operand" x = true ->
  Parser.isa "Operator" x = false -> Parser.isApply x = false ->
  Parser.cls p = Class.ApplyPending -> Parser.applyData p = Some d ->
  Parser.autoApply d = true ->
  Parser.impl f = Class.IApply -> Parser.isa "Operand" f = true ->
  Parser.isa "Operator" f = false -> Parser.ast f = fa -> Parser.applyData f = Some d ->
  Parser.isa "Operator" prev = false \/ (Parser.precedence prev <= 7 # 2)%Q ->
  Parser.push (Parser.engine (2 + n)) x (Parser.mkState (rest ++ [prev; f; p]) i c)
  = Ok (tt, Parser.mkState (rest ++ [prev; applied i d fa; x]) (S i) c)
  /\ Parser.impl (applied i d fa) = Class.IApplyOp
  /\ Parser.applyData (applied i d fa) = Some d
  /\ Parser.precedence (applied i d fa) = apply_precedence
  /\ Ast.class_of (Parser.ast (applied i d fa)) = Ast.FuncApply
  /\ Ast.childNodes (Parser.ast (applied i d fa)) = [fa].
Proof.
  intros Ix Ox Nx Ax Cp Dp Au If Of Nf Af Df P.
  split; [|repeat split; reflexivity].
  assert (Ip : Parser.impl p = Class.IApplyPending) by (unfold Parser.impl; rewrite Cp; reflexivity).
  change (2 + n) with (S (S n)). rewrite push_S, Stack_push_pushed.
  unfold top_of. cbn [Parser.stack].
  change (rest ++ [prev; f; p]) with (rest ++ ([prev; f] ++ [p])). rewrite app_assoc, last_snoc.
  unfold Parser.followedBy at 1. rewrite Ip. unfold Parser.ApplyPending_followedBy.
  unfold Parser.bind at 1. unfold Parser.ApplyPending_checkOperator. rewrite Nx. cbn [negb].
  unfold Parser.ret at 1.
  unfold Parser.bind at 1. unfold Parser.ApplyPending_checkOperand. rewrite Ox. cbn [negb].
  unfold Parser.bind at 1. rewrite pop_snoc.
  change (rest ++ [prev; f]) with (rest ++ ([prev] ++ [f])). rewrite app_assoc.
  unfold Parser.bind at 1. rewrite top_snoc.
  unfold Parser.bind at 1. unfold Parser.need at 1. unfold Parser.ret at 1.
  rewrite Nf.
  (* the apply operator is made and pushed *)
  unfold Parser.bind at 1. unfold Parser.pushApplyOp.
  unfold Parser.bind at 1. rewrite Ax.
  unfold Parser.bind at 1. rewrite Dp. unfold Parser.need at 1. unfold Parser.ret at 1.
  rewrite Au.
  unfold Parser.bind at 1. unfold Parser.createToken.
  unfold Parser.bind at 1. unfold Parser.classFor.
  change ("ApplyOp" ++ "Class")%string with "ApplyOpClass". rewrite Cp.
  change (Parser.lift
            match Class.get "ApplyOpClass" Class.ApplyPending with
            | Some (Class.VClass c0) => Ok c0
            | Some (Class.VString s) =>
                if String.eqb s "" then Parser.getBaseClass "ApplyOp" else Parser.getBaseClass s
            | _ => Parser.getBaseClass "ApplyOp"
            end) with (Parser.lift (Ok Class.ApplyOp)).
  unfold Parser.lift at 1. rewrite construct_ApplyOp.
  cbn [Parser.stack Parser.nextId Parser.cells]. rewrite Dp.
  unfold Parser.ret at 1.
  unfold Parser.bind at 1. rewrite push_S, Stack_push_pushed.
  unfold top_of. cbn [Parser.stack]. rewrite last_snoc.
  assert (Ff : default_followedBy f = true) by (unfold default_followedBy; rewrite If; reflexivity).
  rewrite (default_followedBy_null _ f _ _ Ff).
  cbn [Parser.stack]. rewrite last_snoc.
  unfold Parser.follows at 1.
  change (Parser.impl (apply_op i (Some d))) with Class.IApplyOp. cbv iota.
  unfold Parser.Operator_follows.
  unfold Parser.bind at 1.
  change (Parser.checkIsLeftUnary (apply_op i (Some d)) (Some f)) with (@Parser.ret bool false).
  unfold Parser.ret at 1.
  unfold Parser.bind at 1. unfold Parser.need at 1. unfold Parser.ret at 1.
  rewrite Of. cbn [negb].
  unfold Parser.bind at 1. unfold Parser.ret at 1.
  unfold Parser.bind at 1.
  assert (L : Parser.isa "Operator" prev
              && Parser.checkIsHigherPrecedence (apply_op i (Some d)) prev f = false).
  { destruct P as [P | P]; [rewrite P; reflexivity|].
    apply andb_false_intro2.
    change (Parser.Operator_checkIsHigherPrecedence (apply_op i (Some d)) prev = false).
    unfold Parser.Operator_checkIsHigherPrecedence.
    change (Parser.is_left (apply_op i (Some d))) with false. rewrite andb_false_r, orb_false_r.
    change (Parser.precedence (apply_op i (Some d))) with (7 # 2)%Q.
    apply negb_false_iff, Qle_bool_iff. exact P. }
  rewrite <- app_assoc. cbn [app].
  rewrite (checkOperator_lower _ _ (apply_op i (Some d)) f prev rest (S i) c L).
  (* the function goes into the operator *)
  unfold Parser.bind at 1. unfold Parser.localAppend.
  change (Parser.impl (apply_op i (Some d))) with Class.IApplyOp. cbv iota.
  unfold Parser.ApplyOp_append.
  change (Parser.children (apply_op i (Some d))) with (@nil Ast.node).
  cbn [List.length Nat.eqb negb andb].
  unfold Parser.Token_append. unfold Parser.bind at 1.
  assert (Tf : Parser.tree f = Ok fa) by (unfold Parser.tree; rewrite If, <- Af; reflexivity).
  unfold Parser.lift at 1. rewrite Tf.
  unfold Parser.saveFunction. rewrite Df.
  change (Parser.canApply (Parser.set_ast _ (apply_op i (Some d)))) with true.
  change (Parser.applyData (Parser.set_ast _ (apply_op i (Some d)))) with (Some d).
  unfold Parser.bind at 1. unfold Parser.checkFunction.
  rewrite !Bool.eqb_reflx, Nat.eqb_refl. cbn [negb]. unfold Parser.ret at 1.
  unfold Parser.ret at 1.
  change (Parser.set_ast (Ast.append (Parser.ast (apply_op i (Some d))) fa)
            (apply_op i (Some d))) with (applied i d fa).
  assert (Sa : (if Parser.isa "Apply" f
                then Parser.set_applyData (Some d) (applied i d fa)
                else applied i d fa) = applied i d fa)
    by (destruct (Parser.isa "Apply" f); reflexivity).
  rewrite Sa.
  unfold Parser.bind at 1. unfold Parser.checkRightUnary.
  change (Parser.checkIsRightUnary (applied i d fa) f) with false. cbv iota.
  unfold Parser.ret at 1. unfold Parser.ret at 1.
  unfold pushed at 1. unfold with_stack. cbn [Parser.stack Parser.nextId Parser.cells].
  rewrite <- app_assoc. cbn [app].
  (* the operand is pushed *)
  unfold Parser.bind at 1. unfold Parser.ret at 1.
  rewrite Stack_push_pushed.
  unfold top_of. cbn [Parser.stack].
  change (rest ++ [prev; applied i d fa]) with (rest ++ ([prev] ++ [applied i d fa])).
  rewrite app_assoc, last_snoc.
  rewrite (default_followedBy_null _ (applied i d fa) x _ eq_refl).
  cbn [Parser.stack]. rewrite last_snoc.
  unfold Parser.follows at 1. rewrite Ix. unfold Parser.Operand_follows.
  unfold Parser.bind at 1. unfold Parser.need at 1. unfold Parser.ret at 1.
  change (Parser.isa "Operand" (applied i d fa)) with false. cbn [negb].
  unfold Parser.ret at 1. unfold pushed at 1. unfold with_stack.
  cbn [Parser.stack Parser.nextId Parser.cells].
  unfold Parser.bind, Parser.ret, pushed, with_stack.
  cbn [Parser.stack Parser.nextId Parser.cells fst snd].
  rewrite <- !app_assoc. cbn [app]. rewrite ?app_nil_r. reflexivity.
Qed.

Definition sin_data : Parser.ApplyData := Parser.mkApplyData true true 0.

Lemma implicit_application_witness :
  Parser.push (Parser.engine 2) (token_of Class.Identifier "x")
    (Parser.mkState ([] ++ [token_of Class.Parens "("; token_of Class.Trig "sin";
                            pending 1 (Some sin_data)]) 2 [Parser.Count 1])
  = Ok (tt, Parser.mkState
              ([] ++ [token_of Class.Parens "(";
                      applied 2 sin_data (Parser.ast (token_of Class.Trig "sin"));
                      token_of Class.Identifier "x"]) 3 [Parser.Count 1])
  /\ Parser.impl (applied 2 sin_data (Parser.ast (token_of Class.Trig "sin"))) = Class.IApplyOp
  /\ Parser.applyData (applied 2 sin_data (Parser.ast (token_of Class.Trig "sin")))
     = Some sin_data
  /\ Parser.precedence (applied 2 sin_data (Parser.ast (token_of Class.Trig "sin")))
     = apply_precedence
  /\ Ast.class_of (Parser.ast (applied 2 sin_data (Parser.ast (token_of Class.Trig "sin"))))
     = Ast.FuncApply
  /\ Ast.childNodes (Parser.ast (applied 2 sin_data (Parser.ast (token_of Class.Trig "sin"))))
     = [Parser.ast (token_of Class.Trig "sin")].
Proof.
  apply (implicit_application 0 (token_of Class.Identifier "x") (token_of Class.Trig "sin")
           (pending 1 (Some sin_data)) (token_of Class.Parens "(") [] 2 [Parser.Count 1]
           sin_data (Parser.ast (token_of Class.Trig "sin"))); try reflexivity.
  left. reflexivity.
Defined.

(** X24: the parentheses after a function are kept.  An open delimiter for
    function application that is pushed over a pending application goes
    onto the stack above it, marked as not removable, so that closing it
    makes an argument group even around one operand; an open delimiter that
    is not for function application goes there as it is. *)
Theorem argument_delimiter_kept n (p token : Parser.Token) rest i c :
  Parser.impl p = Class.IApplyPending ->
  Parser.impl token = Class.IDelimiter -> Parser.isClose token = false ->
  Parser.isa "Delimiter" token = true ->
  Parser.isa "Operator" token = false -> Parser.isa "Operand" token = false ->
  Parser.push (Parser.engine (S n)) token (Parser.mkState (rest ++ [p]) i c)
  = Ok (tt, Parser.mkState
              (rest ++ [p; if Parser.isApply token
                           then Parser.set_removable false token else token]) i c).
Proof.
  intros Ip It Cl Dl Nr Nd. rewrite push_S, Stack_push_pushed.
  unfold top_of. cbn [Parser.stack]. rewrite last_snoc.
  unfold Parser.followedBy. rewrite Ip. unfold Parser.ApplyPending_followedBy.
  unfold Parser.bind at 1. unfold Parser.ApplyPending_checkOperator. rewrite Nr. cbn [negb].
  unfold Parser.ret at 1.
  unfold Parser.bind at 1. unfold Parser.ApplyPending_checkOperand. rewrite Nd. cbn [negb].
  unfold Parser.ret at 1. unfold Parser.ret at 1.
  unfold Parser.ApplyPending_checkDelimiter. rewrite Dl. cbn [andb].
  cbn [Parser.stack]. rewrite last_snoc.
  assert (F : forall t', Parser.impl t' = Class.IDelimiter -> Parser.isClose t' = false ->
              forall s, Parser.follows (Parser.push (Parser.engine n))
                          (Parser.appendTop (Parser.engine n)) (Parser.closeLoop (Parser.engine n))
                          t' (Some p) s = Ok ([t'], s)).
  { intros t' I' C' s. unfold Parser.follows. rewrite I'. unfold Parser.Delimiter_follows.
    rewrite C'. reflexivity. }
  destruct (Parser.isApply token).
  - rewrite (F (Parser.set_removable false token) It Cl). unfold pushed, with_stack.
    cbn [Parser.stack Parser.nextId Parser.cells]. rewrite <- app_assoc. reflexivity.
  - rewrite (F token It Cl). unfold pushed, with_stack.
    cbn [Parser.stack Parser.nextId Parser.cells]. rewrite <- app_assoc. reflexivity.
Qed.

Lemma argument_delimiter_kept_witness :
  Parser.removable (token_of Class.Parens "(") = true
  /\ Parser.push (Parser.engine 1) (token_of Class.Parens "(")
       (Parser.mkState ([] ++ [pending 1 (Some sin_data)]) 2 [Parser.Count 1])
     = Ok (tt, Parser.mkState
                 ([] ++ [pending 1 (Some sin_data);
                         if Parser.isApply (token_of Class.Parens "(")
                         then Parser.set_removable false (token_of Class.Parens "(")
                         else token_of Class.Parens "("]) 2 [Parser.Count 1]).
Proof.
  split; [reflexivity|].
  apply (argument_delimiter_kept 0 (pending 1 (Some sin_data)) (token_of Class.Parens "(")
           [] 2 [Parser.Count 1]); reflexivity.
Defined.
